(** * BrewBuddy backend: a shallow embedding of [server.js] and [db/database.js]

    The development models the Express handlers of [server.js]
    (registration, token validation, the per-user coffee list and the
    AI extraction proxy) together with the SQL statements they issue, which
    are the statements of [queries] in [db/database.js].

    Conventions.
    - A JavaScript string is a [string]: each character is one code unit
      (the model covers code units below 256).
    - A JSON value, as [express.json()] hands it to a handler and as
      [res.json] sends it back, is a [json]; [undefined] is [None].
    - A handler is a function from the request and the [World] to a response
      and the next [World]; what the handler cannot decide itself
      ([JSON.stringify], [JSON.parse], [uuidv4()], the wall clock, the
      upstream reply) comes from an [Env].
    - JSON numbers are integers ([Z]); the handlers only pass numbers on
      or test them against zero.
    - In a handler a SQL statement fails only on a [UNIQUE] constraint;
      a connection that fails appears only where [db/database.js] opens
      and closes it ([DbModule]).
    - Requests are served one after the other: a handler runs to its
      response before the next request is taken.
    - The rate limiters run before a handler and are outside the model:
      every statement about a handler is about a request that reaches it.
      Of the CORS filter the model has the decision on the origin
      ([Config.cors_allows]). The health check and the fallbacks for
      unknown routes hold no state and are left out. *)

From Stdlib Require Import List String Ascii ZArith Lia Bool Arith PeanoNat.
From Stdlib Require Import Permutation Sorted DecimalString.
Import ListNotations.
Local Open Scope string_scope.
Local Open Scope list_scope.

(* ================================================================== *)
(** ** JavaScript values *)
(* ================================================================== *)

Module Js.

#[local] Set Warnings "-register-all".

Inductive json : Type :=
| JNull
| JBool (b : bool)
| JNum (n : Z)
| JStr (s : string)
| JArr (items : list json)
| JObj (props : list (string * json)).

(** A value that may be [undefined]. *)
Definition value := option json.

(** [ToBoolean]: [undefined], [null], [false], [0] and [""] are falsy. *)
Definition truthy (v : value) : bool :=
  match v with
  | None => false
  | Some JNull => false
  | Some (JBool b) => b
  | Some (JNum n) => negb (n =? 0)%Z
  | Some (JStr s) => negb (s =? "")
  | Some (JArr _) => true
  | Some (JObj _) => true
  end.

(** Own property lookup in an object's property list. *)
Fixpoint assoc (k : string) (props : list (string * json)) : value :=
  match props with
  | [] => None
  | (k', v) :: rest => if k' =? k then Some v else assoc k rest
  end.

(** Property assignment while an object literal is built: an existing key
    keeps its place and takes the new value, a new key goes last. *)
Fixpoint obj_set (k : string) (v : json) (props : list (string * json))
  : list (string * json) :=
  match props with
  | [] => [(k, v)]
  | (k', v') :: rest =>
      if k' =? k then (k, v) :: rest else (k', v') :: obj_set k v rest
  end.

Definition obj_set_all (kvs props : list (string * json)) : list (string * json) :=
  fold_left (fun acc kv => obj_set (fst kv) (snd kv) acc) kvs props.

Definition nat_to_string (n : nat) : string :=
  DecimalString.NilZero.string_of_uint (Nat.to_uint n).

Definition Z_to_string (z : Z) : string :=
  DecimalString.NilZero.string_of_int (Z.to_int z).

Fixpoint chars (s : string) : list string :=
  match s with
  | EmptyString => []
  | String c r => String c EmptyString :: chars r
  end.

Fixpoint indexed {A} (i : nat) (l : list A) : list (string * A) :=
  match l with
  | [] => []
  | x :: r => (nat_to_string i, x) :: indexed (S i) r
  end.

(** The own enumerable properties that [...v] copies into an object
    literal: those of an object, the indices of an array or of a string,
    nothing for the other values. *)
Definition spread (v : json) : list (string * json) :=
  match v with
  | JObj props => props
  | JArr items => indexed 0 items
  | JStr s => indexed 0 (map JStr (chars s))
  | _ => []
  end.

(** [v.k] for a value that is neither [undefined] nor [null], and a
    property name that is not an array index (the handlers read no
    other). *)
Definition prop (v : json) (k : string) : value :=
  match v with
  | JObj props => assoc k props
  | JArr items =>
      if k =? "length" then Some (JNum (Z.of_nat (List.length items))) else None
  | JStr s =>
      if k =? "length" then Some (JNum (Z.of_nat (String.length s))) else None
  | _ => None
  end.

(** [a || b]. *)
Definition or_else (a : value) (b : json) : json :=
  match a with
  | Some v => if truthy a then v else b
  | None => b
  end.

(** White space and line terminators, as [String.prototype.trim] and the
    regular expression class [\s] take them (tab, LF, VT, FF, CR, space and
    the no-break space among code units below 256). *)
Definition is_space (c : ascii) : bool :=
  let n := nat_of_ascii c in
  (((9 <=? n) && (n <=? 13)) || (n =? 32) || (n =? 160))%nat.

Fixpoint trimStart (s : string) : string :=
  match s with
  | EmptyString => EmptyString
  | String c r => if is_space c then trimStart r else s
  end.

Fixpoint trimEnd (s : string) : string :=
  match s with
  | EmptyString => EmptyString
  | String c r =>
      let r' := trimEnd r in
      if is_space c && (r' =? "") then EmptyString else String c r'
  end.

Definition trim (s : string) : string := trimEnd (trimStart s).

(** What a handler can throw. *)
Inductive exn : Type :=
| JsError (message : string)      (* [throw new Error(message)] *)
| TypeError                       (* raised by the engine *)
| SyntaxError                     (* raised by [JSON.parse] / [response.json()] *)
| SqliteConstraint                (* a UNIQUE constraint failed *)
| FetchFailed.                    (* [fetch] rejected *)

(** [ToString(v)] on a JSON value, as [new Error(v)] and a comparison
    with a number apply it; [None] when the conversion throws a TypeError.
    An object that [JSON.parse] built answers through
    [Object.prototype.toString], unless a property of its own named
    [toString] hides that method: no JSON value can be called, [valueOf]
    gives back the object itself, and the conversion is left with nothing
    to call. An array answers through [join], which converts the elements
    in turn and writes nothing for [null]. *)
Fixpoint to_String (v : json) : option string :=
  match v with
  | JNull => Some "null"
  | JBool true => Some "true"
  | JBool false => Some "false"
  | JNum n => Some (Z_to_string n)
  | JStr s => Some s
  | JArr items =>
      (fix join (l : list json) : option string :=
         match l with
         | [] => Some ""
         | x :: r =>
             match match x with JNull => Some "" | _ => to_String x end, join r with
             | Some first, Some others =>
                 Some (match r with
                       | [] => first
                       | _ => String.append first (String.append "," others)
                       end)
             | _, _ => None
             end
         end) items
  | JObj props =>
      match assoc "toString" props with
      | Some _ => None
      | None => Some "[object Object]"
      end
  end.

End Js.
Import Js.

(* ================================================================== *)
(** ** The two tables and the statements of [queries] *)
(* ================================================================== *)

(** A row of [users]: [id], [username], [token], [created_at]. *)
Record UserRow : Type := mkUser {
  u_id : nat;
  u_username : string;
  u_token : string;
  u_created_at : nat
}.

(** A row of [coffees]: [id], [user_id], [data], [created_at]. *)
Record CoffeeRow : Type := mkCoffee {
  c_id : nat;
  c_user_id : nat;
  c_data : string;
  c_created_at : nat
}.

(** The database file: both tables in rowid order and, for each, the
    [sqlite_sequence] entry that [AUTOINCREMENT] keeps. [created_at] is the
    second-resolution [CURRENT_TIMESTAMP], counted in seconds. *)
Record Db : Type := mkDb {
  users : list UserRow;
  coffees : list CoffeeRow;
  users_seq : nat;
  coffees_seq : nat
}.

Module Database.

(** [initDatabase] on a fresh file: [CREATE TABLE IF NOT EXISTS] twice. *)
Definition empty : Db := mkDb [] [] 0 0.

(** SQLite's [LOWER], the one [server.js] runs on: only the ASCII letters
    are folded. *)
Definition lower_char (c : ascii) : ascii :=
  let n := nat_of_ascii c in
  if ((65 <=? n) && (n <=? 90))%nat then ascii_of_nat (n + 32) else c.

Fixpoint LOWER (s : string) : string :=
  match s with
  | EmptyString => EmptyString
  | String c r => String (lower_char c) (LOWER r)
  end.

(** [AUTOINCREMENT]: one more than the largest rowid the table ever held. *)
Definition next_rowid (seq : nat) (ids : list nat) : nat :=
  S (Nat.max seq (list_max ids)).

(** [SELECT id, username, created_at FROM users WHERE token = ?] *)
Definition getUserByToken (token : string) (db : Db) : option UserRow :=
  find (fun u => u_token u =? token) (users db).

(** [SELECT COUNT( * ) as count FROM users] *)
Definition getUserCount (db : Db) : nat := List.length (users db).

(** [SELECT id FROM users WHERE LOWER(username) = LOWER(?)], as a
    boolean. *)
Definition usernameExists (username : string) (db : Db) : bool :=
  existsb (fun u => LOWER (u_username u) =? LOWER username) (users db).

(** The two [UNIQUE] columns of [users]. *)
Definition violates_unique (username token : string) (db : Db) : bool :=
  existsb (fun u => (u_username u =? username) || (u_token u =? token)) (users db).

(** [INSERT INTO users (username, token) VALUES (?, ?)] at second [now];
    [None] when a [UNIQUE] constraint fails, else the new state and
    [lastID]. *)
Definition createUser (username token : string) (now : nat) (db : Db)
  : option (Db * nat) :=
  if violates_unique username token db then None
  else
    let id := next_rowid (users_seq db) (map u_id (users db)) in
    Some (mkDb (users db ++ [mkUser id username token now])
               (coffees db) id (coffees_seq db), id).

(** [ORDER BY created_at DESC] over rows taken in rowid order. SQL leaves
    the order of rows with the same [created_at] open; SQLite answers this
    query from [idx_coffees_user_created], whose entries end with the
    rowid, so rows of the same second come in rowid order. *)
Fixpoint insert_desc (r : CoffeeRow) (l : list CoffeeRow) : list CoffeeRow :=
  match l with
  | [] => [r]
  | x :: l' =>
      if (c_created_at r <? c_created_at x)%nat then x :: insert_desc r l'
      else r :: l
  end.

Definition order_by_created_at_desc (l : list CoffeeRow) : list CoffeeRow :=
  fold_right insert_desc [] l.

Definition owned_by (userId : nat) (c : CoffeeRow) : bool :=
  (c_user_id c =? userId)%nat.

(** [SELECT id, data, created_at FROM coffees WHERE user_id = ?
     ORDER BY created_at DESC] *)
Definition getUserCoffees (userId : nat) (db : Db) : list CoffeeRow :=
  order_by_created_at_desc (filter (owned_by userId) (coffees db)).

(** [INSERT INTO coffees (user_id, data) VALUES (?, ?)] at second [now]. *)
Definition saveCoffee (userId : nat) (data : string) (now : nat) (db : Db)
  : Db * nat :=
  let id := next_rowid (coffees_seq db) (map c_id (coffees db)) in
  (mkDb (users db) (coffees db ++ [mkCoffee id userId data now])
        (users_seq db) id, id).

(** [DELETE FROM coffees WHERE user_id = ?] *)
Definition deleteUserCoffees (userId : nat) (db : Db) : Db :=
  mkDb (users db) (filter (fun c => negb (owned_by userId c)) (coffees db))
       (users_seq db) (coffees_seq db).

End Database.

(* ================================================================== *)
(** ** The environment and the world *)
(* ================================================================== *)

(** The body [fetch] posts to [https://api.anthropic.com/v1/messages]: the
    model, the token limit and the prompt are constants, the image and its
    media type come from the request. *)
Record OutboundRequest : Type := mkOut {
  out_media_type : json;
  out_data : json
}.

(** What [fetch] and then [response.json()] give back. *)
Inductive FetchResult : Type :=
| FetchRejects                                   (* network failure *)
| FetchResponse (ok : bool) (body : option json).
                 (* [response.ok]; [None]: the body is not JSON *)

(** What a handler takes from outside. *)
Record Env : Type := mkEnv {
  JSON_stringify : json -> string;
  JSON_parse : string -> option json;     (* [None]: throws SyntaxError *)
  uuidv4 : nat -> string;                 (* the k-th call of [uuidv4()] *)
  elapse : nat -> nat;                    (* ms passing before the k-th clock reading *)
  fetch : nat -> OutboundRequest -> FetchResult;   (* the k-th upstream call *)
  datetime_text : nat -> string;          (* a [created_at] second as SQL text *)
  toISOString : nat -> string;            (* [Date.prototype.toISOString] of a ms count *)
  StringToNumber_gt0 : string -> bool     (* [ToNumber(text) > 0] *)
}.

Record World : Type := mkWorld {
  w_db : Db;
  w_clock : nat;                          (* ms at the last clock reading *)
  w_clock_reads : nat;
  w_uuid_calls : nat;
  w_outbound : list OutboundRequest;      (* upstream calls made, oldest first *)
  w_console : list (string * exn)         (* [console.error(label, error.message)] *)
}.

Definition initial_world : World := mkWorld Database.empty 0 0 0 [] [].

Definition set_db (db : Db) (w : World) : World :=
  mkWorld db (w_clock w) (w_clock_reads w) (w_uuid_calls w) (w_outbound w) (w_console w).

Definition console_error (label : string) (e : exn) (w : World) : World :=
  mkWorld (w_db w) (w_clock w) (w_clock_reads w) (w_uuid_calls w) (w_outbound w)
          (w_console w ++ [(label, e)]).

(** An HTTP response: [res.status(s).json(body)]. *)
Record Response : Type := mkResponse {
  status : nat;
  body : json
}.

(** *** The handler monad: world passing with exceptions *)

Inductive outcome (A : Type) : Type :=
| Done (a : A)
| Throws (e : exn).
Arguments Done {A} a.
Arguments Throws {A} e.

Definition M (A : Type) : Type := World -> outcome A * World.

Definition ret {A} (a : A) : M A := fun w => (Done a, w).
Definition throw {A} (e : exn) : M A := fun w => (Throws e, w).
Definition bind {A B} (m : M A) (k : A -> M B) : M B :=
  fun w =>
    match m w with
    | (Done a, w') => k a w'
    | (Throws e, w') => (Throws e, w')
    end.

Declare Scope handler_scope.
Delimit Scope handler_scope with handler.
Notation "x <- m ;; k" := (bind m (fun x => k))
  (at level 61, m at next level, right associativity) : handler_scope.
Notation "m ;;; k" := (bind m (fun _ => k))
  (at level 61, right associativity) : handler_scope.
Local Open Scope handler_scope.

(** [try { ... } catch (error) { console.error(label, error.message);
    res.status(500).json(generic) }] *)
Definition try_catch (label : string) (generic : Response) (m : M Response)
  : World -> Response * World :=
  fun w =>
    match m w with
    | (Done r, w') => (r, w')
    | (Throws e, w') => (generic, console_error label e w')
    end.

(** A conversion of the engine that throws a TypeError where it is
    [None]. *)
Definition or_TypeError {A} (converted : option A) : M A :=
  match converted with
  | Some a => ret a
  | None => throw TypeError
  end.

Fixpoint for_each {A} (l : list A) (f : A -> M unit) : M unit :=
  match l with
  | [] => ret tt
  | x :: r => f x ;;; for_each r f
  end.

(* ================================================================== *)
(** ** The handlers of [server.js] *)
(* ================================================================== *)

(** Request bodies, as [express.json()] parses them: a field that is absent
    is [None]. Tokens travel as text. *)
Record RegisterBody : Type := mkRegisterBody {
  rb_username : value
}.

Record CoffeesBody : Type := mkCoffeesBody {
  cb_token : option string;
  cb_coffees : value
}.

Record AnalyzeBody : Type := mkAnalyzeBody {
  ab_imageData : value;
  ab_mediaType : value
}.

Definition failure (code : nat) (message : string) : Response :=
  mkResponse code (JObj [("success", JBool false); ("error", JStr message)]).

Definition server_error : Response := failure 500 "Server error".

Definition analysis_failed : Response :=
  failure 500 "Analysis failed. Please try again.".

Definition username_too_short : Response :=
  failure 400 "Username must be at least 2 characters".

Definition tester_limit_reached : Response :=
  mkResponse 403 (JObj [("success", JBool false);
                        ("error", JStr "Tester limit reached (10/10)");
                        ("spotsRemaining", JNum 0)]).

Definition username_taken : Response := failure 409 "Username already taken".

Definition registered (id : nat) (username token : string) (newCount : nat)
  : Response :=
  mkResponse 200
    (JObj [("success", JBool true);
           ("user", JObj [("id", JNum (Z.of_nat id));
                          ("username", JStr username);
                          ("token", JStr token)]);
           ("spotsRemaining", JNum (10 - Z.of_nat newCount))]).

Definition token_required : Response := failure 400 "Token required".

Definition invalid_token_validate : Response :=
  mkResponse 401 (JObj [("success", JBool false); ("valid", JBool false);
                        ("error", JStr "Invalid token")]).

Definition unauthorized : Response := failure 401 "Unauthorized".
Definition invalid_token : Response := failure 401 "Invalid token".

Definition coffees_saved (saved : json) : Response :=
  mkResponse 200 (JObj [("success", JBool true); ("saved", saved)]).

Definition coffees_listed (parsed : list json) : Response :=
  mkResponse 200 (JObj [("success", JBool true); ("coffees", JArr parsed)]).

Definition image_data_required : Response := failure 400 "Image data required".

(** [!token] on a token that is text or absent. *)
Definition token_given (token : option string) : bool :=
  truthy (option_map JStr token).

(** [for (const x of v)]: arrays and strings are iterable, the other JSON
    values are not. *)
Definition iterate (v : json) : option (list json) :=
  match v with
  | JArr items => Some items
  | JStr s => Some (map JStr (chars s))
  | _ => None
  end.

(** [v[0]] for a value that is neither [undefined] nor [null]. *)
Definition first_element (v : json) : value :=
  match v with
  | JArr items => nth_error items 0
  | JStr s => nth_error (map JStr (chars s)) 0
  | JObj props => assoc "0" props
  | _ => None
  end.

(** The regular expression [/\{[\s\S]*\}/] on a text: the engine tries the
    start positions from the left; at an opening brace the star takes
    everything and gives back up to the last closing brace. The result is
    [jsonMatch[0]], [None] for [null]. *)
Fixpoint upto_last_close (s : string) : option string :=
  match s with
  | EmptyString => None
  | String c r =>
      match upto_last_close r with
      | Some m => Some (String c m)
      | None => if Ascii.eqb c "}" then Some (String c EmptyString) else None
      end
  end.

Fixpoint match_braces (s : string) : option string :=
  match s with
  | EmptyString => None
  | String c r =>
      if Ascii.eqb c "{" then
        match upto_last_close r with
        | Some m => Some (String c m)
        | None => match_braces r
        end
      else match_braces r
  end.

(** [{ id: c.id, ...JSON.parse(c.data), savedAt: c.created_at }] *)
Definition listed_record (id : nat) (parsed : json) (savedAt : string) : json :=
  JObj (obj_set "savedAt" (JStr savedAt)
          (obj_set_all (spread parsed) [("id", JNum (Z.of_nat id))])).

Section Server.

Variable E : Env.

(** *** Effects *)

(** A reading of the wall clock, in milliseconds. *)
Definition Date_now : M nat :=
  fun w =>
    let t := w_clock w + elapse E (w_clock_reads w) in
    (Done t, mkWorld (w_db w) t (S (w_clock_reads w)) (w_uuid_calls w)
                     (w_outbound w) (w_console w)).

(** SQLite's [CURRENT_TIMESTAMP], in seconds. *)
Definition CURRENT_TIMESTAMP : M nat :=
  t <- Date_now ;; ret (t / 1000).

Definition call_uuidv4 : M string :=
  fun w =>
    (Done (uuidv4 E (w_uuid_calls w)),
     mkWorld (w_db w) (w_clock w) (w_clock_reads w) (S (w_uuid_calls w))
             (w_outbound w) (w_console w)).

Definition call_fetch (req : OutboundRequest) : M FetchResult :=
  fun w =>
    (Done (fetch E (List.length (w_outbound w)) req),
     mkWorld (w_db w) (w_clock w) (w_clock_reads w) (w_uuid_calls w)
             (w_outbound w ++ [req]) (w_console w)).

Definition query {A} (q : Db -> A) : M A :=
  fun w => (Done (q (w_db w)), w).

Definition run_createUser (username token : string) : M nat :=
  fun w =>
    if Database.violates_unique username token (w_db w)
    then (Throws SqliteConstraint, w)
    else
      match CURRENT_TIMESTAMP w with
      | (Done now, w1) =>
          match Database.createUser username token now (w_db w1) with
          | Some (db', id) => (Done id, set_db db' w1)
          | None => (Throws SqliteConstraint, w)
          end
      | (Throws e, w1) => (Throws e, w1)
      end.

Definition run_saveCoffee (userId : nat) (data : string) : M unit :=
  now <- CURRENT_TIMESTAMP ;;
  fun w => (Done tt, set_db (fst (Database.saveCoffee userId data now (w_db w))) w).

Definition run_deleteUserCoffees (userId : nat) : M unit :=
  fun w => (Done tt, set_db (Database.deleteUserCoffees userId (w_db w)) w).

(** *** [POST /api/auth/register] *)

(** [username.trim()]: only a string has the method. *)
Definition call_trim (v : json) : M string :=
  match v with
  | JStr s => ret (trim s)
  | _ => throw TypeError
  end.

Definition register_body (b : RegisterBody) : M Response :=
  match rb_username b with
  | None => ret username_too_short
  | Some username =>
      if negb (truthy (Some username)) then ret username_too_short
      else
        trimmed <- call_trim username ;;
        if (String.length trimmed <? 2)%nat then ret username_too_short
        else
          count <- query Database.getUserCount ;;
          if (10 <=? count)%nat then ret tester_limit_reached
          else
            existing <- query (Database.usernameExists trimmed) ;;
            if existing then ret username_taken
            else
              token <- call_uuidv4 ;;
              lastID <- run_createUser trimmed token ;;
              newCount <- query Database.getUserCount ;;
              ret (registered lastID trimmed token newCount)
  end.

Definition auth_register (b : RegisterBody) : World -> Response * World :=
  try_catch "Register error:" server_error (register_body b).

(** *** [GET /api/auth/validate] *)

Definition validate_body (token : option string) : M Response :=
  match token with
  | None => ret token_required
  | Some t =>
      if negb (token_given token) then ret token_required
      else
        user <- query (Database.getUserByToken t) ;;
        match user with
        | None => ret invalid_token_validate
        | Some u =>
            ret (mkResponse 200
                   (JObj [("success", JBool true); ("valid", JBool true);
                          ("user", JObj [("id", JNum (Z.of_nat (u_id u)));
                                         ("username", JStr (u_username u));
                                         ("createdAt",
                                          JStr (datetime_text E (u_created_at u)))])]))
        end
  end.

Definition auth_validate (token : option string) : World -> Response * World :=
  try_catch "Validate error:" server_error (validate_body token).

(** *** [GET /api/coffees] *)

(** [coffees.map(c => ({ id, ...JSON.parse(c.data), savedAt }))]: the first
    row whose data does not parse throws. *)
Fixpoint parse_rows (rows : list CoffeeRow) : M (list json) :=
  match rows with
  | [] => ret []
  | c :: rest =>
      match JSON_parse E (c_data c) with
      | None => throw SyntaxError
      | Some parsed =>
          more <- parse_rows rest ;;
          ret (listed_record (c_id c) parsed (datetime_text E (c_created_at c))
                 :: more)
      end
  end.

Definition get_coffees_body (token : option string) : M Response :=
  match token with
  | None => ret unauthorized
  | Some t =>
      if negb (token_given token) then ret unauthorized
      else
        user <- query (Database.getUserByToken t) ;;
        match user with
        | None => ret invalid_token
        | Some u =>
            rows <- query (Database.getUserCoffees (u_id u)) ;;
            parsed <- parse_rows rows ;;
            ret (coffees_listed parsed)
        end
  end.

Definition get_coffees (token : option string) : World -> Response * World :=
  try_catch "Get coffees error:" server_error (get_coffees_body token).

(** *** [POST /api/coffees] *)

(** [x > 0] on a property value; [None] when the comparison throws a
    TypeError. An array or an object is first converted to a primitive,
    which for both ends in [ToString]: the text of an array is then read
    as a number, the text of an object is not one. *)
Definition gt_zero (v : value) : option bool :=
  match v with
  | None => Some false
  | Some JNull => Some false
  | Some (JBool b) => Some b
  | Some (JNum n) => Some (0 <? n)%Z
  | Some (JStr s) => Some (StringToNumber_gt0 E s)
  | Some (JArr items) => option_map (StringToNumber_gt0 E) (to_String (JArr items))
  | Some (JObj props) =>
      match to_String (JObj props) with
      | Some _ => Some false
      | None => None
      end
  end.

(** [coffees && coffees.length > 0]; [None] when the comparison throws. *)
Definition has_coffees (coffees : value) : option bool :=
  match coffees with
  | None => Some false
  | Some c => if truthy coffees then gt_zero (prop c "length") else Some false
  end.

(** [coffees?.length || 0] *)
Definition saved_count (coffees : value) : json :=
  match coffees with
  | None => JNum 0
  | Some JNull => JNum 0
  | Some c => or_else (prop c "length") (JNum 0)
  end.

Definition insert_all (userId : nat) (coffees : json) : M unit :=
  match iterate coffees with
  | None => throw TypeError
  | Some items =>
      for_each items (fun coffee => run_saveCoffee userId (JSON_stringify E coffee))
  end.

Definition post_coffees_body (b : CoffeesBody) : M Response :=
  match cb_token b with
  | None => ret unauthorized
  | Some t =>
      if negb (token_given (cb_token b)) then ret unauthorized
      else
        user <- query (Database.getUserByToken t) ;;
        match user with
        | None => ret invalid_token
        | Some u =>
            run_deleteUserCoffees (u_id u) ;;;
            (match cb_coffees b with
             | Some coffees =>
                 nonempty <- or_TypeError (has_coffees (cb_coffees b)) ;;
                 if nonempty then insert_all (u_id u) coffees else ret tt
             | None => ret tt
             end) ;;;
            ret (coffees_saved (saved_count (cb_coffees b)))
        end
  end.

Definition post_coffees (b : CoffeesBody) : World -> Response * World :=
  try_catch "Save coffees error:" server_error (post_coffees_body b).

(** *** [POST /api/analyze-coffee] *)

(** [v.k]: a TypeError on [undefined] and [null]. The handlers only read
    property names that are not array indices. *)
Definition member (v : value) (k : string) : M value :=
  match v with
  | None => throw TypeError
  | Some JNull => throw TypeError
  | Some x => ret (prop x k)
  end.

(** [v?.k] *)
Definition optional_member (v : value) (k : string) : value :=
  match v with
  | None => None
  | Some JNull => None
  | Some x => prop x k
  end.

(** [v[0]] *)
Definition element0 (v : value) : M value :=
  match v with
  | None => throw TypeError
  | Some JNull => throw TypeError
  | Some x => ret (first_element x)
  end.

(** [text.match(/\{[\s\S]*\}/)]: only a string has the method. *)
Definition call_match (text : value) : M (option string) :=
  match text with
  | Some (JStr t) => ret (match_braces t)
  | _ => throw TypeError
  end.

(** The [data] object of a successful analysis. *)
Definition normalized (coffeeData : json) (addedDate : string) : json :=
  JObj [("name", or_else (prop coffeeData "name") (JStr "Unknown"));
        ("origin", or_else (prop coffeeData "origin") (JStr "Unknown"));
        ("process", or_else (prop coffeeData "process") (JStr "washed"));
        ("cultivar", or_else (prop coffeeData "cultivar") (JStr "Unknown"));
        ("altitude", or_else (prop coffeeData "altitude") (JStr "1500"));
        ("roaster", or_else (prop coffeeData "roaster") (JStr "Unknown"));
        ("tastingNotes", or_else (prop coffeeData "tastingNotes") (JStr "No notes"));
        ("addedDate", JStr addedDate)].

Definition analyzed (data : json) : Response :=
  mkResponse 200 (JObj [("success", JBool true); ("data", data)]).

(** From [const text = data.content[0].text] to the response. *)
Definition extract_and_respond (data : json) : M Response :=
  content <- member (Some data) "content" ;;
  block <- element0 content ;;
  text <- member block "text" ;;
  jsonMatch <- call_match text ;;
  match jsonMatch with
  | None => throw (JsError "Could not parse coffee data")
  | Some span =>
      match JSON_parse E span with
      | None => throw SyntaxError
      | Some JNull => throw TypeError
      | Some coffeeData =>
          t <- Date_now ;;
          ret (analyzed (normalized coffeeData (toISOString E t)))
      end
  end.

Definition analyze_body (b : AnalyzeBody) : M Response :=
  match ab_imageData b with
  | None => ret image_data_required
  | Some imageData =>
      if negb (truthy (Some imageData)) then ret image_data_required
      else
        response <- call_fetch
                      (mkOut (or_else (ab_mediaType b) (JStr "image/jpeg"))
                             imageData) ;;
        match response with
        | FetchRejects => throw FetchFailed
        | FetchResponse _ None => throw SyntaxError
        | FetchResponse ok (Some data) =>
            if negb ok then
              error <- member (Some data) "error" ;;
              message <- or_TypeError
                           (to_String (or_else (optional_member error "message")
                                               (JStr "API error"))) ;;
              throw (JsError message)
            else extract_and_respond data
        end
  end.

Definition analyze_coffee (b : AnalyzeBody) : World -> Response * World :=
  try_catch "Analyze error:" analysis_failed (analyze_body b).

(** *** The server as a transition system *)

Inductive Request : Type :=
| PostRegister (b : RegisterBody)
| GetValidate (token : option string)
| GetCoffees (token : option string)
| PostCoffees (b : CoffeesBody)
| PostAnalyze (b : AnalyzeBody).

Definition handle (r : Request) : World -> Response * World :=
  match r with
  | PostRegister b => auth_register b
  | GetValidate token => auth_validate token
  | GetCoffees token => get_coffees token
  | PostCoffees b => post_coffees b
  | PostAnalyze b => analyze_coffee b
  end.

(** Requests served one after the other. *)
Fixpoint serve (rs : list Request) (w : World) : list Response * World :=
  match rs with
  | [] => ([], w)
  | r :: rest =>
      let (resp, w1) := handle r w in
      let (resps, w2) := serve rest w1 in
      (resp :: resps, w2)
  end.

(** The worlds the server can be in after a start on a fresh database. *)
Inductive reachable : World -> Prop :=
| reachable_start : reachable initial_world
| reachable_step : forall w r,
    reachable w -> reachable (snd (handle r w)).

End Server.

(* ================================================================== *)
(** ** A reference environment *)
(* ================================================================== *)

(** A concrete [Env] for the closed examples: a JSON printer and a
    recursive-descent JSON reader for the texts the examples use (integers,
    strings whose only escapes are the quote and the backslash, arrays,
    objects), numbered tokens, and a clock that the example chooses. *)
Module Reference.

Definition quote_char : ascii := ascii_of_nat 34.
Definition backslash : ascii := ascii_of_nat 92.

Fixpoint escape (s : string) : string :=
  match s with
  | EmptyString => EmptyString
  | String c r =>
      if Ascii.eqb c quote_char || Ascii.eqb c backslash
      then String backslash (String c (escape r))
      else String c (escape r)
  end.

Definition quoted (s : string) : string :=
  String quote_char (String.append (escape s) (String quote_char EmptyString)).

Fixpoint stringify (v : json) : string :=
  match v with
  | JNull => "null"
  | JBool true => "true"
  | JBool false => "false"
  | JNum n => Z_to_string n
  | JStr s => quoted s
  | JArr items =>
      String.append "["
        (String.append
           ((fix go (l : list json) : string :=
               match l with
               | [] => ""
               | x :: r =>
                   match r with
                   | [] => stringify x
                   | _ => String.append (stringify x) (String.append "," (go r))
                   end
               end) items)
           "]")
  | JObj props =>
      String.append "{"
        (String.append
           ((fix go (l : list (string * json)) : string :=
               match l with
               | [] => ""
               | (k, x) :: r =>
                   let kv := String.append (quoted k) (String.append ":" (stringify x)) in
                   match r with
                   | [] => kv
                   | _ => String.append kv (String.append "," (go r))
                   end
               end) props)
           "}")
  end.

Definition is_json_ws (c : ascii) : bool :=
  let n := nat_of_ascii c in
  ((n =? 32) || (n =? 9) || (n =? 10) || (n =? 13))%nat.

Fixpoint skip_ws (s : string) : string :=
  match s with
  | EmptyString => EmptyString
  | String c r => if is_json_ws c then skip_ws r else s
  end.

(** The characters of a string literal after its opening quote. *)
Fixpoint read_string (s : string) : option (string * string) :=
  match s with
  | EmptyString => None
  | String c r =>
      if Ascii.eqb c quote_char then Some (EmptyString, r)
      else if Ascii.eqb c backslash then
        match r with
        | String c2 r2 =>
            if Ascii.eqb c2 quote_char || Ascii.eqb c2 backslash then
              match read_string r2 with
              | Some (t, rest) => Some (String c2 t, rest)
              | None => None
              end
            else None
        | EmptyString => None
        end
      else if (nat_of_ascii c <? 32)%nat then None
      else
        match read_string r with
        | Some (t, rest) => Some (String c t, rest)
        | None => None
        end
  end.

Definition digit_of (c : ascii) : option Z :=
  let n := nat_of_ascii c in
  if ((48 <=? n) && (n <=? 57))%nat then Some (Z.of_nat (n - 48)) else None.

Fixpoint read_digits (acc : Z) (s : string) : Z * string :=
  match s with
  | EmptyString => (acc, s)
  | String c r =>
      match digit_of c with
      | Some d => read_digits (10 * acc + d)%Z r
      | None => (acc, s)
      end
  end.

(** An integer literal; a fraction or an exponent is not read. *)
Definition read_unsigned (s : string) : option (Z * string) :=
  match s with
  | String c r =>
      match digit_of c with
      | Some d =>
          let (n, rest) := read_digits d r in
          let leading_zero := (d =? 0)%Z && negb (String.length rest =? String.length r)%nat in
          let continues :=
            match rest with
            | String c' _ => Ascii.eqb c' "." || Ascii.eqb c' "e" || Ascii.eqb c' "E"
            | EmptyString => false
            end in
          if leading_zero || continues then None else Some (n, rest)
      | None => None
      end
  | EmptyString => None
  end.

Definition read_number (s : string) : option (json * string) :=
  match s with
  | String c r =>
      if Ascii.eqb c "-" then
        match read_unsigned r with
        | Some (n, rest) => Some (JNum (- n), rest)
        | None => None
        end
      else
        match read_unsigned s with
        | Some (n, rest) => Some (JNum n, rest)
        | None => None
        end
  | EmptyString => None
  end.

Fixpoint strip_prefix (p s : string) : option string :=
  match p, s with
  | EmptyString, _ => Some s
  | String a p', String b s' => if Ascii.eqb a b then strip_prefix p' s' else None
  | _, EmptyString => None
  end.

Definition keyword (p : string) (v : json) (s : string) : option (json * string) :=
  match strip_prefix p s with
  | Some rest => Some (v, rest)
  | None => None
  end.

Fixpoint read_value (fuel : nat) (s : string) {struct fuel} : option (json * string) :=
  match fuel with
  | O => None
  | S f =>
      match skip_ws s with
      | EmptyString => None
      | String c r =>
          if Ascii.eqb c "{" then
            match skip_ws r with
            | String c' r' =>
                if Ascii.eqb c' "}" then Some (JObj [], r') else read_members f r []
            | EmptyString => None
            end
          else if Ascii.eqb c "[" then
            match skip_ws r with
            | String c' r' =>
                if Ascii.eqb c' "]" then Some (JArr [], r') else read_elements f r []
            | EmptyString => None
            end
          else if Ascii.eqb c quote_char then
            match read_string r with
            | Some (t, rest) => Some (JStr t, rest)
            | None => None
            end
          else if Ascii.eqb c "n" then keyword "null" JNull (String c r)
          else if Ascii.eqb c "t" then keyword "true" (JBool true) (String c r)
          else if Ascii.eqb c "f" then keyword "false" (JBool false) (String c r)
          else read_number (String c r)
      end
  end
with read_elements (fuel : nat) (s : string) (acc : list json) {struct fuel}
  : option (json * string) :=
  match fuel with
  | O => None
  | S f =>
      match read_value f s with
      | Some (v, rest) =>
          match skip_ws rest with
          | String c r =>
              if Ascii.eqb c "," then read_elements f r (v :: acc)
              else if Ascii.eqb c "]" then Some (JArr (rev (v :: acc)), r)
              else None
          | EmptyString => None
          end
      | None => None
      end
  end
with read_members (fuel : nat) (s : string) (acc : list (string * json)) {struct fuel}
  : option (json * string) :=
  match fuel with
  | O => None
  | S f =>
      match skip_ws s with
      | String c r =>
          if Ascii.eqb c quote_char then
            match read_string r with
            | Some (k, rest) =>
                match skip_ws rest with
                | String c1 r1 =>
                    if Ascii.eqb c1 ":" then
                      match read_value f r1 with
                      | Some (v, rest2) =>
                          match skip_ws rest2 with
                          | String c2 r2 =>
                              if Ascii.eqb c2 "," then read_members f r2 (obj_set k v acc)
                              else if Ascii.eqb c2 "}" then Some (JObj (obj_set k v acc), r2)
                              else None
                          | EmptyString => None
                          end
                      | None => None
                      end
                    else None
                | EmptyString => None
                end
            | None => None
            end
          else None
      | EmptyString => None
      end
  end.

Definition parse (s : string) : option json :=
  match read_value (2 * String.length s + 2) s with
  | Some (v, rest) =>
      match skip_ws rest with
      | EmptyString => Some v
      | _ => None
      end
  | None => None
  end.

(** The k-th token, in the layout of a version-4 UUID. *)
Definition token_of (k : nat) : string :=
  String.append "00000000-0000-4000-8000-"
    (String.append (if (k <? 10)%nat then "00000000000" else "0000000000")
                   (nat_to_string k)).

(** [ToNumber(text) > 0] for a text of decimal digits. *)
Definition digits_gt0 (s : string) : bool :=
  match read_unsigned s with
  | Some (n, EmptyString) => (0 <? n)%Z
  | _ => false
  end.

Definition env (elapsed : nat -> nat) (upstream : nat -> OutboundRequest -> FetchResult)
  : Env :=
  mkEnv stringify parse token_of elapsed upstream
        (fun s => String.append "t+" (nat_to_string s))
        (fun ms => String.append (nat_to_string ms) "ms")
        digits_gt0.

Definition offline : nat -> OutboundRequest -> FetchResult :=
  fun _ _ => FetchRejects.

(** A clock that does not reach the next second while the example runs. *)
Definition quick : nat -> nat := fun _ => 1.

(** A clock on which every reading falls into a later second. *)
Definition slow : nat -> nat := fun _ => 1500.

End Reference.

(* ================================================================== *)
(** ** Vocabulary of the statements *)
(* ================================================================== *)

(** The upstream call a request with an image makes. *)
Definition upstream_request (imageData : json) (mediaType : value) : OutboundRequest :=
  mkOut (or_else mediaType (JStr "image/jpeg")) imageData.

(** [data.content[0].text] when that is a string: the text of the first
    content block of the reply. *)
Definition reply_text (data : json) : option string :=
  match data with
  | JNull => None
  | _ =>
      match prop data "content" with
      | None => None
      | Some JNull => None
      | Some content =>
          match first_element content with
          | None => None
          | Some JNull => None
          | Some block =>
              match prop block "text" with
              | Some (JStr t) => Some t
              | _ => None
              end
          end
      end
  end.

Fixpoint has_char (c : ascii) (s : string) : bool :=
  match s with
  | EmptyString => false
  | String c' r => Ascii.eqb c' c || has_char c r
  end.

(** The seven fields of the extraction schema with their defaults in
    [server.js]. *)
Definition schema_defaults : list (string * string) :=
  [("name", "Unknown"); ("origin", "Unknown"); ("process", "washed");
   ("cultivar", "Unknown"); ("altitude", "1500"); ("roaster", "Unknown");
   ("tastingNotes", "No notes")].

(** *** The extraction as the specification words it *)

(** The first block of [data.content] whose [type] is ["text"], and its
    text. *)
Definition is_text_block (block : json) : bool :=
  match prop block "type" with
  | Some (JStr t) => t =? "text"
  | _ => false
  end.

Definition first_text_block (data : json) : option string :=
  match prop data "content" with
  | Some (JArr blocks) =>
      match find is_text_block blocks with
      | Some block =>
          match prop block "text" with
          | Some (JStr t) => Some t
          | _ => None
          end
      | None => None
      end
  | _ => None
  end.

Fixpoint starts_with (p s : string) : bool :=
  match p, s with
  | EmptyString, _ => true
  | String a p', String b s' => Ascii.eqb a b && starts_with p' s'
  | String _ _, EmptyString => false
  end.

(** [text.replace(/p\s*/g, '')] for a literal [p]: [skip] characters of a
    match are still to drop, [ws] says that the white space after a match
    is being dropped. *)
Fixpoint remove_all (p : string) (skip : nat) (ws : bool) (s : string) : string :=
  match s with
  | EmptyString => EmptyString
  | String c r =>
      match skip with
      | S k => remove_all p k true r
      | O =>
          if ws && is_space c then remove_all p 0 true r
          else if starts_with p s then remove_all p (String.length p - 1) true r
          else String c (remove_all p 0 false r)
      end
  end.

(** Stripping the markdown code fences: the opening fence with its
    language tag, then any fence left. *)
Definition strip_code_fences (s : string) : string :=
  remove_all "```" 0 false (remove_all "```json" 0 false s).

(** First text block, fences stripped, first brace span. *)
Definition specified_span (data : json) : option string :=
  match first_text_block data with
  | Some t => match_braces (strip_code_fences t)
  | None => None
  end.

(** The world after one reading of the clock. *)
Definition after_clock_reading (E : Env) (w : World) : World :=
  mkWorld (w_db w) (w_clock w + elapse E (w_clock_reads w)) (S (w_clock_reads w))
          (w_uuid_calls w) (w_outbound w) (w_console w).

(** The world after one upstream call. *)
Definition after_upstream_call (req : OutboundRequest) (w : World) : World :=
  mkWorld (w_db w) (w_clock w) (w_clock_reads w) (w_uuid_calls w)
          (w_outbound w ++ [req]) (w_console w).

(** The millisecond the next clock reading of [w] shows. *)
Definition next_reading (E : Env) (w : World) : nat :=
  w_clock w + elapse E (w_clock_reads w).

(** *** The coffee list *)

(** One [INSERT INTO coffees]: a clock reading, then the new row. *)
Definition save_one (E : Env) (userId : nat) (coffee : json) (w : World) : World :=
  set_db (fst (Database.saveCoffee userId (JSON_stringify E coffee)
                 (next_reading E w / 1000) (w_db w)))
         (after_clock_reading E w).

Definition save_all (E : Env) (userId : nat) (items : list json) (w : World) : World :=
  fold_left (fun w' coffee => save_one E userId coffee w') items w.

(** The rows that [save_all] appends, in the order of insertion. *)
Fixpoint inserted_rows (E : Env) (userId : nat) (items : list json) (w : World)
  : list CoffeeRow :=
  match items with
  | [] => []
  | coffee :: rest =>
      mkCoffee (Database.next_rowid (coffees_seq (w_db w)) (map c_id (coffees (w_db w))))
               userId (JSON_stringify E coffee) (next_reading E w / 1000)
        :: inserted_rows E userId rest (save_one E userId coffee w)
  end.

(** A stored row with the coffee it holds, as [GET /api/coffees] shows it:
    the coffee's fields merged with the row's id and save time. *)
Definition stored_record (E : Env) (p : CoffeeRow * json) : json :=
  listed_record (c_id (fst p)) (snd p) (datetime_text E (c_created_at (fst p))).

Definition newest_first (p q : CoffeeRow * json) : Prop :=
  c_created_at (fst q) <= c_created_at (fst p).

(** [response] lists, for user [userId], exactly the coffees [cs]: the
    user's stored rows are one row per coffee, in the order submitted, and
    the response shows each of them once, newest first, in the order
    submitted when all were saved within one second. *)
Definition lists_exactly (E : Env) (userId : nat) (cs : list json) (db : Db)
    (response : Response) : Prop :=
  exists (rows : list CoffeeRow) (listing : list (CoffeeRow * json)),
    filter (Database.owned_by userId) (coffees db) = rows /\
    map c_data rows = map (JSON_stringify E) cs /\
    Permutation listing (combine rows cs) /\
    Sorted newest_first listing /\
    ((forall p q, In p listing -> In q listing ->
                  c_created_at (fst p) = c_created_at (fst q)) ->
     listing = combine rows cs) /\
    response = coffees_listed (map (stored_record E) listing).

Definition not_older (a b : CoffeeRow) : Prop := c_created_at b <= c_created_at a.

(** The coffee a row holds; [null] stands in where the data does not parse. *)
Definition row_coffee (E : Env) (row : CoffeeRow) : json :=
  match JSON_parse E (c_data row) with
  | Some parsed => parsed
  | None => JNull
  end.

Definition row_record (E : Env) (row : CoffeeRow) : json :=
  stored_record E (row, row_coffee E row).

(** *** Registration *)

Definition register_request (username : string) : Request :=
  PostRegister (mkRegisterBody (Some (JStr username))).

(** The world after one call of [uuidv4()]. *)
Definition after_uuid_call (w : World) : World :=
  mkWorld (w_db w) (w_clock w) (w_clock_reads w) (S (w_uuid_calls w))
          (w_outbound w) (w_console w).

(** The id the next row of [users] gets. *)
Definition next_user_id (db : Db) : nat :=
  Database.next_rowid (users_seq db) (map u_id (users db)).

(** [users] with one more row. *)
Definition with_user (u : UserRow) (db : Db) : Db :=
  mkDb (users db ++ [u]) (coffees db) (u_id u) (coffees_seq db).

(** The world after a registration that went through: a token was drawn,
    the clock was read, the row was inserted. *)
Definition after_registration (E : Env) (username : string) (w : World) : World :=
  let w1 := after_uuid_call w in
  set_db (with_user (mkUser (next_user_id (w_db w)) username
                            (uuidv4 E (w_uuid_calls w))
                            (next_reading E w1 / 1000))
                    (w_db w))
         (after_clock_reading E w1).

Definition token_in_use (token : string) (db : Db) : bool :=
  existsb (fun u => u_token u =? token) (users db).


(** [spotsRemaining] of a response, when it carries one. *)
Definition spotsRemaining (r : Response) : value := prop (body r) "spotsRemaining".

(** The answer of [GET /api/auth/validate] for a user row. *)
Definition validated (id : nat) (username createdAt : string) : Response :=
  mkResponse 200
    (JObj [("success", JBool true); ("valid", JBool true);
           ("user", JObj [("id", JNum (Z.of_nat id));
                          ("username", JStr username);
                          ("createdAt", JStr createdAt)])]).

(* ================================================================== *)
(** ** The earlier analyze server *)
(* ================================================================== *)

(** The source tree also carries the earlier, stand-alone analyze server
    (the second document of [db/database.js]): no database, no rate limit,
    the upstream call made through the SDK client. [server.js] replaced it;
    the model keeps it to show where the two differ. *)
Module Legacy.

(** [anthropic.messages.create]: the message, or a rejection with the
    SDK's error text. *)
Inductive SdkResult : Type :=
| SdkRejects (message : string)
| SdkMessage (message : json).

Section Handler.

Variable JSON_parse : string -> option json.
Variable create : OutboundRequest -> SdkResult.
(** The text of an error the engine raises. *)
Variable engine_message : exn -> string.

Definition message_of (e : exn) : string :=
  match e with
  | JsError m => m
  | _ => engine_message e
  end.

(** [message.content.find((block) => block.type === 'text')] *)
Fixpoint find_text (blocks : list json) : outcome (option json) :=
  match blocks with
  | [] => Done None
  | JNull :: _ => Throws TypeError
  | block :: rest => if is_text_block block then Done (Some block) else find_text rest
  end.

(** From the message to [coffeeData]. *)
Definition extract (message : json) : outcome json :=
  match prop message "content" with
  | Some (JArr blocks) =>
      match find_text blocks with
      | Throws e => Throws e
      | Done None => Throws (JsError "No text response from Claude")
      | Done (Some textContent) =>
          match prop textContent "text" with
          | Some (JStr text) =>
              match match_braces (strip_code_fences (trim text)) with
              | None => Throws (JsError "Invalid response format from Claude")
              | Some span =>
                  match JSON_parse span with
                  | Some coffeeData => Done coffeeData
                  | None => Throws SyntaxError
                  end
              end
          | _ => Throws TypeError
          end
      end
  | _ => Throws TypeError
  end.

(** [res.status(500).json({ success: false,
      error: error.message || 'Failed to analyze coffee image' })] *)
Definition failed (e : exn) : Response :=
  failure 500 (if message_of e =? "" then "Failed to analyze coffee image"
               else message_of e).

(** The handler: the response and the upstream calls it made. *)
Definition analyze (b : AnalyzeBody) : Response * list OutboundRequest :=
  match ab_imageData b with
  | None => (mkResponse 400 (JObj [("error", JStr "No image data provided")]), [])
  | Some imageData =>
      if negb (truthy (Some imageData))
      then (mkResponse 400 (JObj [("error", JStr "No image data provided")]), [])
      else
        let req := upstream_request imageData (ab_mediaType b) in
        match create req with
        | SdkRejects m => (failed (JsError m), [req])
        | SdkMessage message =>
            match extract message with
            | Done coffeeData =>
                (mkResponse 200 (JObj [("success", JBool true); ("data", coffeeData)]),
                 [req])
            | Throws e => (failed e, [req])
            end
        end
  end.

End Handler.

End Legacy.

(** *** Sample data for the closed examples *)

Module Samples.

(** No upstream, and a clock that stays within one second. *)
Definition local_env : Env := Reference.env Reference.quick Reference.offline.

(** An upstream that answers every call with [data], accepted or refused. *)
Definition answering (data : json) : Env :=
  Reference.env Reference.quick (fun _ _ => FetchResponse true (Some data)).

Definition refusing (data : json) : Env :=
  Reference.env Reference.quick (fun _ _ => FetchResponse false (Some data)).

(** A reply with a single text block. *)
Definition reply_with (text : string) : json :=
  JObj [("content", JArr [JObj [("type", JStr "text"); ("text", JStr text)]])].

(** A reply whose text block comes second. *)
Definition reply_text_second (text : string) : json :=
  JObj [("content", JArr [JObj [("type", JStr "tool_use"); ("name", JStr "lookup")];
                          JObj [("type", JStr "text"); ("text", JStr text)]])].

Definition overloaded : json :=
  JObj [("type", JStr "error");
        ("error", JObj [("type", JStr "overloaded_error");
                        ("message", JStr "Overloaded")])].

Definition bad_key : json :=
  JObj [("type", JStr "error");
        ("error", JObj [("type", JStr "authentication_error");
                        ("message", JStr "invalid x-api-key")])].

Definition photo : AnalyzeBody :=
  mkAnalyzeBody (Some (JStr "aGVsbG8=")) (Some (JStr "image/png")).

Definition espresso : json :=
  JObj [("name", JStr "Espresso"); ("origin", JStr "Brazil")].

Definition filter_roast : json :=
  JObj [("name", JStr "Filter"); ("process", JStr "washed")].

Definition decaf : json := JObj [("name", JStr "Decaf")].

Definition alice_token : string := Reference.token_of 0.

(** The world after "alice" registered on a fresh database. *)
Definition with_alice : World :=
  snd (serve local_env [register_request "alice"] initial_world).

(** ... and saved two coffees. *)
Definition with_two_coffees : World :=
  snd (post_coffees local_env
         (mkCoffeesBody (Some alice_token) (Some (JArr [espresso; filter_roast])))
         with_alice).

Definition ten_names : list string :=
  ["Coffee"; "user1"; "user2"; "user3"; "user4"; "user5"; "user6"; "user7";
   "user8"; "user9"].

(** The world after ten users registered. *)
Definition full_house : World :=
  snd (serve local_env (map register_request ten_names) initial_world).


End Samples.

(* ================================================================== *)
(** ** Start-up configuration of [server.js] *)
(* ================================================================== *)

(** The top of [server.js]: the check of the environment, the port and the
    list of origins the CORS filter lets through. [process.env] is a
    function from names to texts. *)
Module Config.

Definition Environ : Type := string -> option string.

(** [!!process.env[key]] *)
Definition is_set (env : Environ) (key : string) : bool :=
  truthy (option_map JStr (env key)).

(** [validateEnvironment]: the names it reports, and whether the process
    goes on or ends with [process.exit(1)]. *)
Definition required : list string := ["ANTHROPIC_API_KEY"].

Definition missing (env : Environ) : list string :=
  filter (fun key => negb (is_set env key)) required.

Inductive Startup : Type :=
| Exits (code : nat) (reported : list string)
| Continues.

Definition validateEnvironment (env : Environ) : Startup :=
  if (0 <? List.length (missing env))%nat then Exits 1 (missing env)
  else Continues.

(** [text.split(sep)] for a separator of one character. *)
Fixpoint split_on (sep : ascii) (s : string) : list string :=
  match s with
  | EmptyString => [EmptyString]
  | String c r =>
      if Ascii.eqb c sep then EmptyString :: split_on sep r
      else
        match split_on sep r with
        | piece :: pieces => String c piece :: pieces
        | [] => [String c EmptyString]
        end
  end.

Definition local_origins : list string :=
  ["http://localhost:3000"; "http://localhost:5173"; "http://127.0.0.1:5173"].

Definition is_development (env : Environ) : bool :=
  match env "NODE_ENV" with
  | Some v => v =? "development"
  | None => false
  end.

(** [allowedOrigins], once the module is loaded. *)
Definition allowedOrigins (env : Environ) : list string :=
  (match env "ALLOWED_ORIGINS" with
   | Some v => if is_set env "ALLOWED_ORIGINS" then map trim (split_on "," v) else []
   | None => []
   end)
  ++ (if is_development env then local_origins else []).

(** The [origin] callback of the CORS filter on the [Origin] header of a
    request ([None]: no header): [true] for [callback(null, true)], [false]
    for [callback(new Error('Not allowed by CORS'))]. *)
Definition cors_allows (env : Environ) (origin : option string) : bool :=
  match origin with
  | None => true
  | Some o =>
      if negb (truthy (Some (JStr o))) then true
      else existsb (String.eqb o) (allowedOrigins env)
  end.

End Config.

(* ================================================================== *)
(** ** The module state of [db/database.js] *)
(* ================================================================== *)

(** [db/database.js] keeps the connection in two module variables, [db] and
    [dbType], that [initDatabase] sets and [closeDatabase] clears; every
    helper of [queries] first asks [getDatabase] for the connection. The
    data live outside the module, in the SQLite file or on the PostgreSQL
    server, and outlast a connection. The model has one file and one
    server: [DATABASE_PATH] and [DATABASE_URL] name the same ones at every
    call. *)
Module DbModule.

Inductive DbType : Type := sqlite | postgresql.

(** What [db] holds: the handle [open] returns, or the wrapper around the
    pool. *)
Inductive Handle : Type := SqliteHandle | PoolWrapper.

Record State : Type := mkState {
  m_db : option Handle;
  m_dbType : option DbType;
  m_file : Db;                    (* the SQLite file *)
  m_server : Db                   (* the PostgreSQL database *)
}.

(** The module as loaded, on a fresh file and a fresh server. *)
Definition loaded : State := mkState None None Database.empty Database.empty.

Definition not_initialized : exn :=
  JsError "Database not initialized. Call initDatabase() first.".

Definition set_dbType (t : DbType) (st : State) : State :=
  mkState (m_db st) (Some t) (m_file st) (m_server st).

Definition set_handle (h : Handle) (st : State) : State :=
  mkState (Some h) (m_dbType st) (m_file st) (m_server st).

(** [process.env.NODE_ENV === 'production'] *)
Definition isProduction (env : Config.Environ) : bool :=
  match env "NODE_ENV" with
  | Some v => v =? "production"
  | None => false
  end.

(** [initDatabase]. [connect] is what the first step on the connection
    does, [SELECT NOW()] on the pool or [open] on the file: [None] when it
    goes through, the error when it rejects. [tables] is the same for the
    table script, which is [CREATE ... IF NOT EXISTS] throughout and leaves
    existing data alone. *)
Definition initDatabase (env : Config.Environ) (connect tables : option exn)
    (st : State) : outcome (Handle * DbType) * State :=
  let hasDatabaseUrl := Config.is_set env "DATABASE_URL" in
  if isProduction env && hasDatabaseUrl then
    let st1 := set_dbType postgresql st in
    match connect with
    | Some err => (Throws err, st1)
    | None =>
        let st2 := set_handle PoolWrapper st1 in
        match tables with
        | Some err => (Throws err, st2)
        | None => (Done (PoolWrapper, postgresql), st2)
        end
    end
  else
    let st1 := set_dbType sqlite st in
    match connect with
    | Some err => (Throws err, st1)
    | None =>
        let st2 := set_handle SqliteHandle st1 in
        match tables with
        | Some err => (Throws err, st2)
        | None => (Done (SqliteHandle, sqlite), st2)
        end
    end.

(** [getDatabase] *)
Definition getDatabase (st : State) : outcome Handle :=
  match m_db st with
  | Some h => Done h
  | None => Throws not_initialized
  end.

(** [getDatabaseType] *)
Definition getDatabaseType (st : State) : option DbType := m_dbType st.

(** [closeDatabase]: [db.pool.end()] needs the wrapper and [db.close()] the
    SQLite handle; on the other object the call is a TypeError. [closes] is
    what the call does on the right object. The two variables are cleared
    only when nothing was thrown. *)
Definition closeDatabase (closes : option exn) (st : State) : outcome unit * State :=
  let cleared := mkState None None (m_file st) (m_server st) in
  let ending :=
    match closes with
    | Some err => (Throws err, st)
    | None => (Done tt, cleared)
    end in
  match m_db st, m_dbType st with
  | Some PoolWrapper, Some postgresql => ending
  | Some SqliteHandle, Some postgresql => (Throws TypeError, st)
  | Some SqliteHandle, Some sqlite => ending
  | Some PoolWrapper, Some sqlite => (Throws TypeError, st)
  | _, _ => (Done tt, cleared)
  end.

(** The helpers of [queries] and what they answer. *)
Inductive Query : Type :=
| GetUserByToken (token : string)
| CreateUser (username token : string)
| GetUserCount
| UsernameExists (username : string)
| GetUserCoffees (userId : nat)
| SaveCoffee (userId : nat) (data : string)
| DeleteUserCoffees (userId : nat).

Inductive Answer : Type :=
| UserAnswer (row : option UserRow)
| IdAnswer (id : nat)
| CountAnswer (count : nat)
| BoolAnswer (b : bool)
| RowsAnswer (rows : list CoffeeRow)
| NoAnswer.

(** A helper's statement, in the [?] dialect, on the SQLite file at second
    [now]. *)
Definition on_sqlite (q : Query) (now : nat) (db : Db) : outcome Answer * Db :=
  match q with
  | GetUserByToken token => (Done (UserAnswer (Database.getUserByToken token db)), db)
  | CreateUser username token =>
      match Database.createUser username token now db with
      | Some (db', id) => (Done (IdAnswer id), db')
      | None => (Throws SqliteConstraint, db)
      end
  | GetUserCount => (Done (CountAnswer (Database.getUserCount db)), db)
  | UsernameExists username =>
      (Done (BoolAnswer (Database.usernameExists username db)), db)
  | GetUserCoffees userId => (Done (RowsAnswer (Database.getUserCoffees userId db)), db)
  | SaveCoffee userId data =>
      let (db', id) := Database.saveCoffee userId data now db in
      (Done (IdAnswer id), db')
  | DeleteUserCoffees userId => (Done NoAnswer, Database.deleteUserCoffees userId db)
  end.

(** [getUserCount] has one statement for both dialects; the other helpers
    branch on [dbType]. *)
Definition one_dialect (q : Query) : bool :=
  match q with
  | GetUserCount => true
  | _ => false
  end.

Section Queries.

(** What the other pairings of connection and dialect do with a helper's
    statement: either dialect on the PostgreSQL server, and the [$n]
    dialect on the SQLite file. *)
Variable elsewhere : Handle -> bool -> Query -> nat -> Db -> outcome Answer * Db.

(** A helper of [queries]: [getDatabase()], then the statement in the
    dialect [dbType] selects, on the connection [db] holds. *)
Definition run_query (q : Query) (now : nat) (st : State) : outcome Answer * State :=
  match getDatabase st with
  | Throws e => (Throws e, st)
  | Done h =>
      let dollar :=
        match m_dbType st with Some postgresql => true | _ => false end in
      match h with
      | SqliteHandle =>
          let (a, file) :=
            if negb dollar || one_dialect q then on_sqlite q now (m_file st)
            else elsewhere h dollar q now (m_file st) in
          (a, mkState (m_db st) (m_dbType st) file (m_server st))
      | PoolWrapper =>
          let (a, server) := elsewhere h dollar q now (m_server st) in
          (a, mkState (m_db st) (m_dbType st) (m_file st) server)
      end
  end.

(** Helpers called one after the other, each at its own second. *)
Fixpoint run_queries (qs : list (Query * nat)) (st : State)
  : list (outcome Answer) * State :=
  match qs with
  | [] => ([], st)
  | (q, now) :: rest =>
      let (a, st1) := run_query q now st in
      let (answers, st2) := run_queries rest st1 in
      (a :: answers, st2)
  end.

End Queries.

(** *** The wrapper around the pool *)

(** [exec(sql)] of the wrapper: the text is cut at every semicolon, the
    blank pieces are left out, the others go to [pool.query] one by one
    ([None]: the server takes the statement, else the error it rejects
    with); a rejected statement ends the call there. The result is the
    outcome and the statements sent. *)
Definition blank (s : string) : bool := negb (truthy (Some (JStr (trim s)))).

Fixpoint send_all (pool_query : string -> option exn) (statements : list string)
  : outcome unit * list string :=
  match statements with
  | [] => (Done tt, [])
  | statement :: rest =>
      if negb (blank statement) then
        match pool_query statement with
        | None =>
            let (o, sent) := send_all pool_query rest in (o, statement :: sent)
        | Some err => (Throws err, [statement])
        end
      else send_all pool_query rest
  end.

Definition exec (pool_query : string -> option exn) (sql : string)
  : outcome unit * list string :=
  send_all pool_query
    (filter (fun s => negb (blank s)) (Config.split_on ";" sql)).

End DbModule.

(* ================================================================== *)
(** ** Vocabulary of the further properties *)
(* ================================================================== *)

(** The shape every JSON answer of the five handlers has: one of six
    status codes, a [success] flag that is true exactly at 200, and with
    any other status an [error] text that is not empty. *)
Definition enveloped (r : Response) : Prop :=
  In (status r) [200; 400; 401; 403; 409; 500] /\
  prop (body r) "success" = Some (JBool (status r =? 200)%nat) /\
  (status r <> 200 ->
   exists message, prop (body r) "error" = Some (JStr message) /\ message <> "").

(** The label under which a request's handler logs what it caught. *)
Definition error_label (r : Request) : string :=
  match r with
  | PostRegister _ => "Register error:"
  | GetValidate _ => "Validate error:"
  | GetCoffees _ => "Get coffees error:"
  | PostCoffees _ => "Save coffees error:"
  | PostAnalyze _ => "Analyze error:"
  end.

(** The answer a request's handler gives when it caught something. *)
Definition generic_answer (r : Request) : Response :=
  match r with
  | PostAnalyze _ => analysis_failed
  | _ => server_error
  end.

(** Two users with coffees: after Alice saved two, "bob" registers and
    saves one. *)
Definition bob_token : string := Reference.token_of 1.

Definition two_users : World :=
  snd (serve Samples.local_env
         [register_request "bob";
          PostCoffees (mkCoffeesBody (Some bob_token) (Some (JArr [Samples.decaf])))]
         Samples.with_two_coffees).

(** [s.includes(p)] *)
Fixpoint occurs (p s : string) : bool :=
  starts_with p s ||
  match s with
  | EmptyString => false
  | String _ r => occurs p r
  end.

(* ================================================================== *)
(** ** Properties *)
(* ================================================================== *)

Section Properties.

Variable E : Env.

(** *** The extraction proxy *)

Ltac break_scrutinee :=
  match goal with
  | |- context [match ?x with _ => _ end] =>
      lazymatch x with
      | context [match _ with _ => _ end] => fail
      | _ => destruct x eqn:?
      end
  end.

Lemma extract_and_respond_eq : forall data w,
  extract_and_respond E data w =
  match reply_text data with
  | None => (Throws TypeError, w)
  | Some t =>
      match match_braces t with
      | None => (Throws (JsError "Could not parse coffee data"), w)
      | Some span =>
          match JSON_parse E span with
          | None => (Throws SyntaxError, w)
          | Some JNull => (Throws TypeError, w)
          | Some coffeeData =>
              (Done (analyzed (normalized coffeeData (toISOString E (next_reading E w)))),
               after_clock_reading E w)
          end
      end
  end.
Proof.
  intros data w.
  unfold extract_and_respond, reply_text.
  destruct data; try reflexivity;
    cbn [member bind ret throw prop element0 call_match String.eqb Ascii.eqb Bool.eqb];
    try reflexivity.
  all: repeat (break_scrutinee;
               cbn [member bind ret throw prop element0 call_match first_element];
               try reflexivity).
Qed.

(** The handler on a request that carries an image: one upstream call, then
    the reply decides. *)
Lemma analyze_coffee_eq : forall imageData mediaType w,
  truthy (Some imageData) = true ->
  let req := upstream_request imageData mediaType in
  let w1 := after_upstream_call req w in
  analyze_coffee E (mkAnalyzeBody (Some imageData) mediaType) w =
  match fetch E (List.length (w_outbound w)) req with
  | FetchRejects => (analysis_failed, console_error "Analyze error:" FetchFailed w1)
  | FetchResponse _ None =>
      (analysis_failed, console_error "Analyze error:" SyntaxError w1)
  | FetchResponse false (Some JNull) =>
      (analysis_failed, console_error "Analyze error:" TypeError w1)
  | FetchResponse false (Some data) =>
      (analysis_failed,
       console_error "Analyze error:"
         match to_String (or_else (optional_member (prop data "error") "message")
                                  (JStr "API error")) with
         | Some message => JsError message
         | None => TypeError
         end w1)
  | FetchResponse true (Some data) =>
      try_catch "Analyze error:" analysis_failed (extract_and_respond E data) w1
  end.
Proof.
  intros imageData mediaType w Himg. cbv zeta.
  unfold analyze_coffee, try_catch at 1, analyze_body.
  cbn [ab_imageData ab_mediaType]. rewrite Himg. cbn [negb].
  unfold bind at 1, call_fetch, upstream_request, after_upstream_call.
  destruct (fetch E _ _) as [|[] [[]|]]; try reflexivity;
    cbn [negb]; unfold bind, member, or_TypeError, ret, throw;
    match goal with |- context [to_String ?v] => destruct (to_String v) end;
    reflexivity.
Qed.

(** **** The brace span *)

Lemma has_char_append : forall c a b,
  has_char c (a ++ b)%string = has_char c a || has_char c b.
Proof.
  induction a as [|x a IH]; intros b; simpl.
  - reflexivity.
  - rewrite IH. now rewrite orb_assoc.
Qed.

Lemma upto_last_close_none : forall s,
  upto_last_close s = None <-> has_char "}" s = false.
Proof.
  induction s as [|c r IH]; simpl.
  - tauto.
  - destruct (upto_last_close r) as [m|].
    + split; [discriminate|].
      intros H. apply orb_false_iff in H. destruct H as [_ H].
      apply IH in H. discriminate.
    + destruct (Ascii.eqb c "}"); simpl.
      * split; discriminate.
      * split; intros _; [now apply IH | reflexivity].
Qed.

Lemma upto_last_close_some : forall s m,
  upto_last_close s = Some m ->
  exists body post,
    m = (body ++ "}")%string /\ s = (m ++ post)%string /\ has_char "}" post = false.
Proof.
  induction s as [|c r IH]; simpl; intros m H.
  - discriminate.
  - destruct (upto_last_close r) as [m'|] eqn:Hr.
    + injection H as <-.
      destruct (IH m' eq_refl) as (body & post & Hm & Hs & Hp).
      exists (String c body), post. subst m'. simpl.
      repeat split; try assumption. now rewrite Hs at 1.
    + destruct (Ascii.eqb c "}") eqn:Hc; [|discriminate].
      injection H as <-. apply Ascii.eqb_eq in Hc. subst c.
      exists EmptyString, r. simpl. repeat split.
      now apply upto_last_close_none.
Qed.

(** The span runs from the first opening brace to the last closing brace. *)
Lemma match_braces_some : forall s m,
  match_braces s = Some m ->
  exists pre body post,
    s = (pre ++ m ++ post)%string /\ m = (String "{" body ++ "}")%string /\
    has_char "{" pre = false /\ has_char "}" post = false.
Proof.
  induction s as [|c r IH]; simpl; intros m H.
  - discriminate.
  - destruct (Ascii.eqb c "{") eqn:Hc.
    + destruct (upto_last_close r) as [m'|] eqn:Hr.
      * injection H as <-. apply Ascii.eqb_eq in Hc. subst c.
        destruct (upto_last_close_some _ _ Hr) as (body & post & Hm & Hs & Hp).
        exists EmptyString, body, post. simpl. subst m'.
        repeat split; try assumption. now rewrite Hs at 1.
      * destruct (IH m H) as (pre & body & post & Hs & Hm & Hpre & Hpost).
        apply upto_last_close_none in Hr.
        rewrite Hs in Hr. rewrite !has_char_append in Hr.
        apply orb_false_iff in Hr. destruct Hr as [_ Hr].
        apply orb_false_iff in Hr. destruct Hr as [Hr _].
        rewrite Hm in Hr. simpl in Hr. rewrite has_char_append in Hr.
        simpl in Hr. rewrite orb_true_r in Hr. discriminate.
    + destruct (IH m H) as (pre & body & post & Hs & Hm & Hpre & Hpost).
      exists (String c pre), body, post. simpl. rewrite Hc, Hpre.
      repeat split; try assumption. now rewrite Hs at 1.
Qed.

(** No span: no closing brace stands after an opening one. *)
Lemma match_braces_none : forall s,
  match_braces s = None ->
  forall pre post, s = (pre ++ String "{" post)%string -> has_char "}" post = false.
Proof.
  induction s as [|c r IH]; simpl; intros H pre post Hs.
  - destruct pre; discriminate.
  - destruct pre as [|x pre]; simpl in Hs; injection Hs as Hc Hr.
    + subst c r. simpl in H.
      destruct (upto_last_close post) eqn:Hp; [discriminate|].
      now apply upto_last_close_none.
    + subst x. destruct (Ascii.eqb c "{").
      * destruct (upto_last_close r) eqn:Hp; [discriminate|].
        now apply (IH H pre post).
      * now apply (IH H pre post).
Qed.

Lemma match_braces_no_close : forall s,
  has_char "}" s = false -> match_braces s = None.
Proof.
  induction s as [|c r IH]; simpl; intros H; [reflexivity|].
  apply orb_false_iff in H. destruct H as [Hc Hr].
  rewrite (proj2 (upto_last_close_none r) Hr).
  destruct (Ascii.eqb c "{"); now apply IH.
Qed.

Lemma upto_last_close_append : forall post s,
  has_char "}" post = false ->
  upto_last_close (s ++ post)%string = upto_last_close s.
Proof.
  intros post s Hpost. induction s as [|c r IH]; simpl.
  - now apply upto_last_close_none.
  - now rewrite IH.
Qed.

(** Text around the braces, a code fence for one, does not change the span. *)
Lemma match_braces_wrapped : forall pre t post,
  has_char "{" pre = false -> has_char "}" post = false ->
  match_braces (pre ++ t ++ post)%string = match_braces t.
Proof.
  intros pre t post Hpre Hpost.
  assert (Hmid : match_braces (t ++ post)%string = match_braces t).
  { induction t as [|c r IH]; simpl.
    - now apply match_braces_no_close.
    - rewrite upto_last_close_append, IH by assumption. reflexivity. }
  induction pre as [|c r IH]; simpl in *.
  - exact Hmid.
  - apply orb_false_iff in Hpre. destruct Hpre as [Hc Hr].
    rewrite Hc. now apply IH.
Qed.

(** The data object of a successful analysis, field by field. *)
Lemma normalized_fields : forall coffeeData addedDate,
  exists fields,
    normalized coffeeData addedDate = JObj (fields ++ [("addedDate", JStr addedDate)]) /\
    map fst fields = map fst schema_defaults /\
    (forall f d, In (f, d) schema_defaults ->
       truthy (prop coffeeData f) = false -> assoc f fields = Some (JStr d)) /\
    (forall f d v, In (f, d) schema_defaults ->
       prop coffeeData f = Some v -> truthy (Some v) = true -> assoc f fields = Some v).
Proof.
  intros coffeeData addedDate.
  exists (map (fun fd => (fst fd, or_else (prop coffeeData (fst fd)) (JStr (snd fd))))
              schema_defaults).
  split; [reflexivity|]. split; [reflexivity|].
  split.
  - intros f d Hin Hfalsy.
    assert (Hor : or_else (prop coffeeData f) (JStr d) = JStr d).
    { unfold or_else. destruct (prop coffeeData f); [now rewrite Hfalsy | reflexivity]. }
    simpl in Hin.
    repeat (destruct Hin as [Hin|Hin];
            [injection Hin as <- <-; cbn; now rewrite Hor|]).
    contradiction.
  - intros f d v Hin Hv Htruthy.
    assert (Hor : or_else (prop coffeeData f) (JStr d) = v).
    { unfold or_else. rewrite Hv. now rewrite Htruthy. }
    simpl in Hin.
    repeat (destruct Hin as [Hin|Hin];
            [injection Hin as <- <-; cbn; now rewrite Hor|]).
    contradiction.
Qed.

(** A reply that was accepted: the response and the world it leaves. *)
Lemma analyze_coffee_success : forall imageData mediaType w data t span coffeeData,
  truthy (Some imageData) = true ->
  fetch E (List.length (w_outbound w)) (upstream_request imageData mediaType)
    = FetchResponse true (Some data) ->
  reply_text data = Some t ->
  match_braces t = Some span ->
  JSON_parse E span = Some coffeeData ->
  coffeeData <> JNull ->
  analyze_coffee E (mkAnalyzeBody (Some imageData) mediaType) w =
  (analyzed (normalized coffeeData (toISOString E (next_reading E w))),
   after_clock_reading E (after_upstream_call (upstream_request imageData mediaType) w)).
Proof.
  intros imageData mediaType w data t span coffeeData Himg Hfetch Ht Hspan Hparse Hnull.
  rewrite analyze_coffee_eq by assumption. cbv zeta. rewrite Hfetch.
  unfold try_catch. rewrite extract_and_respond_eq, Ht, Hspan, Hparse.
  destruct coffeeData; try reflexivity. now elim Hnull.
Qed.

(** A reply that was refused: the generic answer. *)
Lemma analyze_coffee_refused : forall imageData mediaType w data,
  truthy (Some imageData) = true ->
  fetch E (List.length (w_outbound w)) (upstream_request imageData mediaType)
    = FetchResponse true (Some data) ->
  match reply_text data with
  | None => True
  | Some t =>
      match match_braces t with
      | None => True
      | Some span =>
          match JSON_parse E span with
          | None => True
          | Some JNull => True
          | Some _ => False
          end
      end
  end ->
  fst (analyze_coffee E (mkAnalyzeBody (Some imageData) mediaType) w) = analysis_failed.
Proof.
  intros imageData mediaType w data Himg Hfetch Hbad.
  rewrite analyze_coffee_eq by assumption. cbv zeta. rewrite Hfetch.
  unfold try_catch. rewrite extract_and_respond_eq.
  destruct (reply_text data) as [t|]; [|reflexivity].
  destruct (match_braces t) as [span|]; [|reflexivity].
  destruct (JSON_parse E span) as [[]|]; try reflexivity; contradiction.
Qed.

(** C6. An analyze request whose [imageData] field is absent is answered
    with HTTP 400 "Image data required"; the world is left as it was, so no
    call to the external service is made and nothing else changes. The
    earlier server answers 400 without a call as well. *)
Theorem analyze_without_image_data : forall (mediaType : value) (w : World),
  let result := analyze_coffee E (mkAnalyzeBody None mediaType) w in
  fst result = image_data_required /\
  status (fst result) = 400 /\
  snd result = w /\
  w_outbound (snd result) = w_outbound w /\
  (forall create engine_message,
     let earlier := Legacy.analyze (JSON_parse E) create engine_message
                      (mkAnalyzeBody None mediaType) in
     status (fst earlier) = 400 /\ snd earlier = []).
Proof.
  intros mediaType w. cbv zeta. repeat split; reflexivity.
Qed.

(** X11. In [server.js], whatever a non-success upstream response carries,
    the caller gets HTTP 500 with the one generic message "Analysis failed.
    Please try again.": two failing upstream responses, however they
    differ, lead to the same response, and the database is not touched. *)
Theorem upstream_failure_is_generic :
  forall (E' : Env) (imageData : json) (mediaType : value) (w : World)
         (upstream upstream' : option json),
  truthy (Some imageData) = true ->
  fetch E (List.length (w_outbound w)) (upstream_request imageData mediaType)
    = FetchResponse false upstream ->
  fetch E' (List.length (w_outbound w)) (upstream_request imageData mediaType)
    = FetchResponse false upstream' ->
  let result := analyze_coffee E (mkAnalyzeBody (Some imageData) mediaType) w in
  let result' := analyze_coffee E' (mkAnalyzeBody (Some imageData) mediaType) w in
  fst result = fst result' /\
  fst result = analysis_failed /\
  status (fst result) = 500 /\
  body (fst result)
    = JObj [("success", JBool false);
            ("error", JStr "Analysis failed. Please try again.")] /\
  w_db (snd result) = w_db w.
Proof.
  intros E' imageData mediaType w upstream upstream' Himg Hfetch Hfetch'.
  cbv zeta.
  assert (Hgeneric : forall E0 up,
    fetch E0 (List.length (w_outbound w)) (upstream_request imageData mediaType)
      = FetchResponse false up ->
    exists w', analyze_coffee E0 (mkAnalyzeBody (Some imageData) mediaType) w
               = (analysis_failed, w') /\ w_db w' = w_db w).
  { intros E0 up H0.
    unfold analyze_coffee, try_catch, analyze_body.
    cbn [ab_imageData ab_mediaType]. rewrite Himg. cbn [negb].
    unfold bind at 1, call_fetch. fold (upstream_request imageData mediaType).
    rewrite H0.
    destruct up as [[]|]; cbn [negb]; unfold bind, member, or_TypeError, ret, throw;
      try match goal with |- context [to_String ?v] => destruct (to_String v) end;
      eexists; split; reflexivity. }
  destruct (Hgeneric E upstream Hfetch) as (w1 & H1 & Hdb).
  destruct (Hgeneric E' upstream' Hfetch') as (w2 & H2 & _).
  rewrite H1, H2. simpl. repeat split; assumption.
Qed.

(** X29. On a successful upstream reply whose first content block carries
    the text, [server.js] takes in that text the span from the first
    opening brace to the last closing brace, so that anything wrapped
    around the span, a code fence for one, is left out, and parses the
    span as JSON. No span, or a span that does not parse, gives the
    generic 500 "Analysis failed. Please try again.", never the parser's
    exception. *)
Theorem analysis_extraction :
  forall (imageData : json) (mediaType : value) (w : World) (data : json) (t : string),
  truthy (Some imageData) = true ->
  fetch E (List.length (w_outbound w)) (upstream_request imageData mediaType)
    = FetchResponse true (Some data) ->
  reply_text data = Some t ->
  let response := fst (analyze_coffee E (mkAnalyzeBody (Some imageData) mediaType) w) in
  (forall before inner after,
      t = (before ++ inner ++ after)%string ->
      has_char "{" before = false -> has_char "}" after = false ->
      match_braces t = match_braces inner) /\
  match match_braces t with
  | None =>
      response = analysis_failed /\
      (forall pre post, t = (pre ++ String "{" post)%string ->
                        has_char "}" post = false)
  | Some span =>
      (exists pre inside post,
          t = (pre ++ span ++ post)%string /\
          span = (String "{" inside ++ "}")%string /\
          has_char "{" pre = false /\ has_char "}" post = false) /\
      match JSON_parse E span with
      | None => response = analysis_failed
      | Some JNull => response = analysis_failed
      | Some coffeeData =>
          response = analyzed (normalized coffeeData
                                 (toISOString E (next_reading E w)))
      end
  end /\
  status analysis_failed = 500 /\
  body analysis_failed
    = JObj [("success", JBool false);
            ("error", JStr "Analysis failed. Please try again.")].
Proof.
  intros imageData mediaType w data t Himg Hfetch Ht. cbv zeta.
  pose proof (analyze_coffee_refused imageData mediaType w data Himg Hfetch) as Hbad.
  rewrite Ht in Hbad.
  split; [|split; [|split; reflexivity]].
  { intros before inner after -> Hb Ha. now apply match_braces_wrapped. }
  destruct (match_braces t) as [span|] eqn:Hspan.
  - split; [now apply match_braces_some|].
    destruct (JSON_parse E span) as [coffeeData|] eqn:Hparse; [|now apply Hbad].
    assert (Hok : coffeeData <> JNull ->
                  fst (analyze_coffee E (mkAnalyzeBody (Some imageData) mediaType) w)
                  = analyzed (normalized coffeeData (toISOString E (next_reading E w)))).
    { intros Hnull.
      now rewrite (analyze_coffee_success imageData mediaType w data t span coffeeData). }
    destruct coffeeData; try (apply Hok; discriminate). now apply Hbad.
  - split; [now apply Hbad | now apply match_braces_none].
Qed.

(** C8, as amended. For every JSON value parsed from the reply, each of the
    seven schema fields that is missing or falsy takes its default:
    "washed" for [process], "1500" for [altitude], "No notes" for
    [tastingNotes] and "Unknown" for [name], [origin], [cultivar] and
    [roaster]; a field with a truthy value keeps it. The data object ends
    with [addedDate], the current time as an ISO string. *)
Theorem analysis_defaults :
  forall (imageData : json) (mediaType : value) (w : World)
         (data : json) (t span : string) (coffeeData : json),
  truthy (Some imageData) = true ->
  fetch E (List.length (w_outbound w)) (upstream_request imageData mediaType)
    = FetchResponse true (Some data) ->
  reply_text data = Some t ->
  match_braces t = Some span ->
  JSON_parse E span = Some coffeeData ->
  coffeeData <> JNull ->
  exists fields,
    fst (analyze_coffee E (mkAnalyzeBody (Some imageData) mediaType) w)
      = analyzed (JObj (fields ++
                        [("addedDate", JStr (toISOString E (next_reading E w)))])) /\
    map fst fields
      = ["name"; "origin"; "process"; "cultivar"; "altitude"; "roaster"; "tastingNotes"] /\
    (forall f d, In (f, d) schema_defaults ->
       truthy (prop coffeeData f) = false -> assoc f fields = Some (JStr d)) /\
    (forall f d v, In (f, d) schema_defaults ->
       prop coffeeData f = Some v -> truthy (Some v) = true -> assoc f fields = Some v).
Proof.
  intros imageData mediaType w data t span coffeeData Himg Hfetch Ht Hspan Hparse Hnull.
  rewrite (analyze_coffee_success imageData mediaType w data t span coffeeData)
    by assumption.
  destruct (normalized_fields coffeeData (toISOString E (next_reading E w)))
    as (fields & Hn & Hkeys & Hdef & Hkeep).
  exists fields. simpl fst. rewrite Hn. repeat split; assumption.
Qed.

(** *** The coffee list *)

Lemma token_given_nonempty : forall t, t <> "" -> token_given (Some t) = true.
Proof.
  intros t Ht. unfold token_given, truthy. simpl.
  apply negb_true_iff. now apply String.eqb_neq.
Qed.

Lemma for_each_save : forall userId items w,
  for_each items (fun coffee => run_saveCoffee E userId (JSON_stringify E coffee)) w
  = (Done tt, save_all E userId items w).
Proof.
  intros userId items. induction items as [|c rest IH]; intros w.
  - reflexivity.
  - cbn [for_each]. unfold bind at 1.
    change (run_saveCoffee E userId (JSON_stringify E c) w)
      with (Done tt, save_one E userId c w).
    apply IH.
Qed.

Lemma save_all_users : forall userId items w,
  users (w_db (save_all E userId items w)) = users (w_db w).
Proof.
  intros userId items. induction items as [|c rest IH]; intros w.
  - reflexivity.
  - unfold save_all in *. cbn [fold_left]. now rewrite IH.
Qed.

Lemma save_all_coffees : forall userId items w,
  coffees (w_db (save_all E userId items w))
  = coffees (w_db w) ++ inserted_rows E userId items w.
Proof.
  intros userId items. induction items as [|c rest IH]; intros w.
  - cbn. now rewrite app_nil_r.
  - unfold save_all in *. cbn [fold_left inserted_rows]. rewrite IH.
    cbn. now rewrite <- app_assoc.
Qed.

Lemma inserted_rows_data : forall userId items w,
  map c_data (inserted_rows E userId items w) = map (JSON_stringify E) items.
Proof.
  intros userId items. induction items as [|c rest IH]; intros w; cbn.
  - reflexivity.
  - now rewrite IH.
Qed.

Lemma inserted_rows_owned : forall userId items w,
  filter (Database.owned_by userId) (inserted_rows E userId items w)
  = inserted_rows E userId items w.
Proof.
  intros userId items. induction items as [|c rest IH]; intros w; cbn.
  - reflexivity.
  - unfold Database.owned_by at 1. cbn. rewrite Nat.eqb_refl. now rewrite IH.
Qed.

Lemma filter_owned_deleted : forall userId l,
  filter (Database.owned_by userId)
         (filter (fun c => negb (Database.owned_by userId c)) l) = [].
Proof.
  intros userId l. induction l as [|c rest IH]; cbn.
  - reflexivity.
  - destruct (Database.owned_by userId c) eqn:Hc; cbn; [assumption|].
    now rewrite Hc.
Qed.

(** [saved: coffees?.length || 0] and the guard of the insert loop, on an
    array. *)
Lemma saved_count_array : forall items,
  saved_count (Some (JArr items)) = JNum (Z.of_nat (List.length items)).
Proof.
  intros items. unfold saved_count, or_else, prop, truthy. cbn.
  destruct items; reflexivity.
Qed.

Lemma has_coffees_array : forall items,
  has_coffees E (Some (JArr items)) = Some (negb (Nat.eqb (List.length items) 0)).
Proof.
  intros items. unfold has_coffees, gt_zero. cbn.
  destruct items; reflexivity.
Qed.

(** The handler on a valid token: the delete, then the inserts. *)
Lemma post_coffees_eq : forall t u coffees w,
  t <> "" ->
  Database.getUserByToken t (w_db w) = Some u ->
  post_coffees E (mkCoffeesBody (Some t) coffees) w =
  let w1 := set_db (Database.deleteUserCoffees (u_id u) (w_db w)) w in
  match coffees with
  | None => (coffees_saved (JNum 0), w1)
  | Some c =>
      match has_coffees E coffees with
      | None => (server_error, console_error "Save coffees error:" TypeError w1)
      | Some true =>
          match iterate c with
          | None => (server_error, console_error "Save coffees error:" TypeError w1)
          | Some items =>
              (coffees_saved (saved_count coffees), save_all E (u_id u) items w1)
          end
      | Some false => (coffees_saved (saved_count coffees), w1)
      end
  end.
Proof.
  intros t u coffees w Ht Hu. cbv zeta.
  unfold post_coffees, try_catch, post_coffees_body. cbn [cb_token cb_coffees].
  rewrite (token_given_nonempty t Ht). cbn [negb].
  unfold bind at 1, query. rewrite Hu.
  unfold bind at 1, run_deleteUserCoffees.
  destruct coffees as [c|]; [|reflexivity].
  unfold bind at 1, or_TypeError.
  destruct (has_coffees E (Some c)) as [[]|]; [|reflexivity|reflexivity].
  unfold ret at 1. unfold bind at 1, insert_all.
  destruct (iterate c) as [items|]; [|reflexivity].
  rewrite for_each_save. reflexivity.
Qed.

Lemma parse_rows_eq : forall rows w,
  (forall row, In row rows -> JSON_parse E (c_data row) <> None) ->
  parse_rows E rows w = (Done (map (row_record E) rows), w).
Proof.
  induction rows as [|row rest IH]; intros w Hparse.
  - reflexivity.
  - cbn [parse_rows map]. unfold row_record at 1, row_coffee, stored_record. cbn [fst snd].
    destruct (JSON_parse E (c_data row)) as [parsed|] eqn:Hrow.
    + unfold bind. rewrite IH by (intros r Hr; apply Hparse; now right). reflexivity.
    + exfalso. apply (Hparse row); [now left | assumption].
Qed.

Lemma get_coffees_eq : forall t u w,
  t <> "" ->
  Database.getUserByToken t (w_db w) = Some u ->
  (forall row, In row (Database.getUserCoffees (u_id u) (w_db w)) ->
               JSON_parse E (c_data row) <> None) ->
  get_coffees E (Some t) w
  = (coffees_listed (map (row_record E) (Database.getUserCoffees (u_id u) (w_db w))), w).
Proof.
  intros t u w Ht Hu Hparse.
  unfold get_coffees, try_catch, get_coffees_body.
  rewrite (token_given_nonempty t Ht). cbn [negb].
  unfold bind at 1, query. rewrite Hu.
  unfold bind at 1. unfold bind at 1.
  rewrite parse_rows_eq by assumption. reflexivity.
Qed.

(** **** [ORDER BY created_at DESC] *)

Lemma insert_desc_perm : forall r l, Permutation (Database.insert_desc r l) (r :: l).
Proof.
  intros r l. induction l as [|x l IH]; cbn [Database.insert_desc].
  - apply Permutation_refl.
  - destruct (c_created_at r <? c_created_at x)%nat.
    + eapply perm_trans; [apply perm_skip, IH | apply perm_swap].
    + apply Permutation_refl.
Qed.

Lemma order_by_perm : forall l, Permutation (Database.order_by_created_at_desc l) l.
Proof.
  induction l as [|r l IH]; cbn [Database.order_by_created_at_desc fold_right].
  - apply perm_nil.
  - eapply perm_trans; [apply insert_desc_perm | now apply perm_skip].
Qed.

Lemma insert_desc_sorted : forall r l,
  Sorted not_older l -> Sorted not_older (Database.insert_desc r l).
Proof.
  intros r l Hs. induction Hs as [|x l Hs IH Hhd]; cbn [Database.insert_desc].
  - repeat constructor.
  - destruct (c_created_at r <? c_created_at x)%nat eqn:Hlt.
    + constructor; [assumption|].
      apply Nat.ltb_lt in Hlt.
      destruct l as [|y l]; cbn [Database.insert_desc] in *.
      * constructor. unfold not_older. lia.
      * destruct (c_created_at r <? c_created_at y)%nat.
        -- constructor. now inversion Hhd.
        -- constructor. unfold not_older. lia.
    + apply Nat.ltb_ge in Hlt.
      constructor; [now constructor|]. constructor. exact Hlt.
Qed.

Lemma order_by_sorted : forall l, Sorted not_older (Database.order_by_created_at_desc l).
Proof.
  induction l as [|r l IH]; cbn [Database.order_by_created_at_desc fold_right].
  - constructor.
  - now apply insert_desc_sorted.
Qed.

Lemma order_by_same_second : forall l,
  (forall a b, In a l -> In b l -> c_created_at a = c_created_at b) ->
  Database.order_by_created_at_desc l = l.
Proof.
  induction l as [|r l IH]; intros Hsame;
    cbn [Database.order_by_created_at_desc fold_right].
  - reflexivity.
  - fold (Database.order_by_created_at_desc l).
    rewrite IH by (intros a b Ha Hb; apply Hsame; now right).
    destruct l as [|x l]; cbn [Database.insert_desc]; [reflexivity|].
    rewrite (Hsame r x) by (cbn; tauto).
    now rewrite Nat.ltb_irrefl.
Qed.

Lemma Sorted_map_rows : forall (f : CoffeeRow -> CoffeeRow * json) l,
  (forall r, fst (f r) = r) ->
  Sorted not_older l -> Sorted newest_first (map f l).
Proof.
  intros f l Hf Hs. induction Hs as [|x l Hs IH Hhd]; cbn.
  - constructor.
  - constructor; [assumption|].
    destruct Hhd as [|y l Hxy]; cbn; constructor.
    unfold newest_first. now rewrite !Hf.
Qed.

(** The rows of one replace hold the coffees that were submitted. *)
Lemma combine_rows_coffees : forall rows cs,
  map c_data rows = map (JSON_stringify E) cs ->
  (forall c, In c cs -> JSON_parse E (JSON_stringify E c) = Some c) ->
  combine rows cs = map (fun r => (r, row_coffee E r)) rows.
Proof.
  induction rows as [|r rows IH]; intros cs Hdata Hround.
  - reflexivity.
  - destruct cs as [|c cs]; [discriminate|].
    cbn in Hdata. injection Hdata as Hr Hrest.
    cbn [combine map]. rewrite (IH cs Hrest) by (intros c' Hc'; apply Hround; now right).
    f_equal. f_equal. unfold row_coffee. rewrite Hr, (Hround c) by now left. reflexivity.
Qed.

Lemma getUserByToken_users : forall t db db',
  users db' = users db ->
  Database.getUserByToken t db' = Database.getUserByToken t db.
Proof. intros t db db' H. unfold Database.getUserByToken. now rewrite H. Qed.

(** One replace followed by one listing. *)
Lemma replace_then_list_once : forall t u w cs,
  t <> "" ->
  Database.getUserByToken t (w_db w) = Some u ->
  (forall c, In c cs -> JSON_parse E (JSON_stringify E c) = Some c) ->
  exists w1 listed,
    post_coffees E (mkCoffeesBody (Some t) (Some (JArr cs))) w
      = (coffees_saved (JNum (Z.of_nat (List.length cs))), w1) /\
    users (w_db w1) = users (w_db w) /\
    get_coffees E (Some t) w1 = (listed, w1) /\
    lists_exactly E (u_id u) cs (w_db w1) listed.
Proof.
  intros t u w cs Ht Hu Hround.
  set (w0 := set_db (Database.deleteUserCoffees (u_id u) (w_db w)) w).
  set (w1 := save_all E (u_id u) cs w0).
  set (rows := inserted_rows E (u_id u) cs w0).
  assert (Hpost : post_coffees E (mkCoffeesBody (Some t) (Some (JArr cs))) w
                  = (coffees_saved (JNum (Z.of_nat (List.length cs))), w1)).
  { rewrite (post_coffees_eq t u) by assumption. cbv zeta. fold w0.
    rewrite has_coffees_array, saved_count_array.
    destruct cs; reflexivity. }
  assert (Husers : users (w_db w1) = users (w_db w)).
  { unfold w1. now rewrite save_all_users. }
  assert (Hrows : filter (Database.owned_by (u_id u)) (coffees (w_db w1)) = rows).
  { unfold w1. rewrite save_all_coffees, filter_app. cbn.
    rewrite filter_owned_deleted. cbn. apply inserted_rows_owned. }
  assert (Hdata : map c_data rows = map (JSON_stringify E) cs)
    by apply inserted_rows_data.
  assert (Hpairs := combine_rows_coffees rows cs Hdata Hround).
  assert (Hparse : forall row, In row rows -> JSON_parse E (c_data row) <> None).
  { intros row Hin.
    assert (Hd : In (c_data row) (map (JSON_stringify E) cs)).
    { rewrite <- Hdata. now apply in_map. }
    apply in_map_iff in Hd. destruct Hd as (c & Hc & Hcin).
    rewrite <- Hc, (Hround c Hcin). discriminate. }
  exists w1, (coffees_listed
                (map (row_record E) (Database.getUserCoffees (u_id u) (w_db w1)))).
  split; [exact Hpost|]. split; [exact Husers|]. split.
  - apply get_coffees_eq; [assumption| |].
    + now rewrite (getUserByToken_users t (w_db w) (w_db w1)).
    + unfold Database.getUserCoffees. rewrite Hrows. intros row Hin.
      apply Hparse. eapply Permutation_in; [apply order_by_perm | exact Hin].
  - exists rows, (map (fun r => (r, row_coffee E r))
                      (Database.order_by_created_at_desc rows)).
    split; [exact Hrows|]. split; [exact Hdata|]. split.
    { rewrite Hpairs. apply Permutation_map, order_by_perm. }
    split.
    { apply Sorted_map_rows; [reflexivity | apply order_by_sorted]. }
    split.
    { intros Hsame. rewrite Hpairs. f_equal. apply order_by_same_second.
      intros a b Ha Hb.
      apply (Hsame (a, row_coffee E a) (b, row_coffee E b));
        apply in_map_iff; eexists; (split; [reflexivity|]);
        (eapply Permutation_in; [apply Permutation_sym, order_by_perm | assumption]). }
    unfold Database.getUserCoffees. rewrite Hrows, map_map. reflexivity.
Qed.

(** **** The listed record *)

Lemma assoc_obj_set : forall k k' v props,
  assoc k (obj_set k' v props) = if k' =? k then Some v else assoc k props.
Proof.
  intros k k' v props. induction props as [|[k0 v0] rest IH]; cbn.
  - destruct (k' =? k); reflexivity.
  - destruct (k0 =? k') eqn:H0; cbn.
    + apply String.eqb_eq in H0. subst k0. destruct (k' =? k); reflexivity.
    + rewrite IH. destruct (k0 =? k) eqn:H1; [|reflexivity].
      apply String.eqb_eq in H1. subst k0. rewrite String.eqb_sym in H0.
      now rewrite H0.
Qed.

Lemma assoc_app : forall k a b,
  assoc k (a ++ b) = match assoc k a with Some v => Some v | None => assoc k b end.
Proof.
  intros k a b. induction a as [|[k0 v0] rest IH]; cbn.
  - reflexivity.
  - destruct (k0 =? k); [reflexivity | exact IH].
Qed.

Lemma assoc_obj_set_all : forall k kvs base,
  assoc k (obj_set_all kvs base)
  = match assoc k (rev kvs) with Some v => Some v | None => assoc k base end.
Proof.
  intros k kvs. unfold obj_set_all.
  induction kvs as [|[k0 v0] rest IH]; intros base; cbn [fold_left rev].
  - reflexivity.
  - rewrite IH, assoc_app. cbn [fst snd assoc].
    destruct (assoc k (rev rest)); [reflexivity|].
    rewrite assoc_obj_set. destruct (k0 =? k); reflexivity.
Qed.

(** What the listing shows for a stored object: every field of the object,
    except that [savedAt] is always the row's save time; [id] is the row's
    id unless the object has an [id] of its own. (A JavaScript object has
    each key once, so the last binding of a key is its only one.) *)
Lemma stored_record_fields : forall (row : CoffeeRow) (fields : list (string * json)) k,
  prop (stored_record E (row, JObj fields)) k =
  if k =? "savedAt" then Some (JStr (datetime_text E (c_created_at row)))
  else match assoc k (rev fields) with
       | Some v => Some v
       | None => if k =? "id" then Some (JNum (Z.of_nat (c_id row))) else None
       end.
Proof.
  intros row fields k. unfold stored_record, listed_record. cbn [fst snd prop spread].
  rewrite assoc_obj_set, assoc_obj_set_all. rewrite (String.eqb_sym "savedAt" k).
  destruct (k =? "savedAt"); [reflexivity|].
  destruct (assoc k (rev fields)); [reflexivity|].
  cbn [assoc]. now rewrite (String.eqb_sym "id" k).
Qed.

(** C1, as amended. For a user with a valid token, replacing the list
    with [cs] and then listing yields exactly the records of [cs]: one
    stored row per coffee, each shown as the coffee's fields merged with
    the row's id and save timestamp, newest first and in the order
    submitted when all were saved within one second. A second replace with
    [cs'] followed by a listing yields exactly the records of [cs']:
    nothing of the earlier list is left, and replacing with the empty list
    leaves the list empty. The merge is not content-equal where the names
    collide: a listed record carries every field of the stored object
    except that [savedAt] is always the row's save time, whatever the
    object holds under that name, and [id] is the row's id only where the
    object has none of its own. *)
Theorem replace_then_list :
  forall (t : string) (u : UserRow) (w : World) (cs cs' : list json),
  t <> "" ->
  Database.getUserByToken t (w_db w) = Some u ->
  (forall c, In c cs -> JSON_parse E (JSON_stringify E c) = Some c) ->
  (forall c, In c cs' -> JSON_parse E (JSON_stringify E c) = Some c) ->
  let (saved, w1) := post_coffees E (mkCoffeesBody (Some t) (Some (JArr cs))) w in
  let (listed, w2) := get_coffees E (Some t) w1 in
  let (saved', w3) := post_coffees E (mkCoffeesBody (Some t) (Some (JArr cs'))) w2 in
  let (listed', w4) := get_coffees E (Some t) w3 in
  saved = coffees_saved (JNum (Z.of_nat (List.length cs))) /\
  lists_exactly E (u_id u) cs (w_db w2) listed /\
  saved' = coffees_saved (JNum (Z.of_nat (List.length cs'))) /\
  lists_exactly E (u_id u) cs' (w_db w4) listed' /\
  (cs' = [] -> listed' = coffees_listed []) /\
  (forall (row : CoffeeRow) (fields : list (string * json)) (k : string),
     prop (stored_record E (row, JObj fields)) k =
     if k =? "savedAt" then Some (JStr (datetime_text E (c_created_at row)))
     else match assoc k (rev fields) with
          | Some v => Some v
          | None => if k =? "id" then Some (JNum (Z.of_nat (c_id row))) else None
          end).
Proof.
  intros t u w cs cs' Ht Hu Hround Hround'.
  destruct (replace_then_list_once t u w cs Ht Hu Hround)
    as (w1 & listed & Hpost & Husers & Hget & Hexact).
  rewrite Hpost, Hget.
  assert (Hu1 : Database.getUserByToken t (w_db w1) = Some u)
    by now rewrite (getUserByToken_users t (w_db w) (w_db w1)).
  destruct (replace_then_list_once t u w1 cs' Ht Hu1 Hround')
    as (w3 & listed' & Hpost' & Husers' & Hget' & Hexact').
  rewrite Hpost', Hget'.
  split; [reflexivity|]. split; [assumption|]. split; [reflexivity|].
  split; [assumption|]. split; [|apply stored_record_fields].
  intros ->.
  destruct Hexact' as (rows & listing & _ & _ & Hperm & _ & _ & ->).
  rewrite combine_nil in Hperm. apply Permutation_sym, Permutation_nil in Hperm.
  now rewrite Hperm.
Qed.

(** C10. A [POST /api/coffees] with a valid token whose [coffees] field is
    absent or [null] deletes all of that user's records and answers
    success with [saved: 0], response and resulting state being those of a
    request with the empty array; the user's list is empty afterwards and
    the rows of the other users are untouched. *)
Theorem omitted_list_clears :
  forall (t : string) (u : UserRow) (w : World),
  t <> "" ->
  Database.getUserByToken t (w_db w) = Some u ->
  let cleared := set_db (Database.deleteUserCoffees (u_id u) (w_db w)) w in
  post_coffees E (mkCoffeesBody (Some t) None) w = (coffees_saved (JNum 0), cleared) /\
  post_coffees E (mkCoffeesBody (Some t) (Some JNull)) w
    = (coffees_saved (JNum 0), cleared) /\
  post_coffees E (mkCoffeesBody (Some t) (Some (JArr []))) w
    = (coffees_saved (JNum 0), cleared) /\
  status (coffees_saved (JNum 0)) = 200 /\
  Database.getUserCoffees (u_id u) (w_db cleared) = [] /\
  get_coffees E (Some t) cleared = (coffees_listed [], cleared) /\
  filter (fun c => negb (Database.owned_by (u_id u) c)) (coffees (w_db cleared))
    = filter (fun c => negb (Database.owned_by (u_id u) c)) (coffees (w_db w)).
Proof.
  intros t u w Ht Hu. cbv zeta.
  assert (Hempty : Database.getUserCoffees (u_id u)
                     (w_db (set_db (Database.deleteUserCoffees (u_id u) (w_db w)) w)) = []).
  { unfold Database.getUserCoffees. cbn. now rewrite filter_owned_deleted. }
  repeat split.
  - now rewrite (post_coffees_eq t u).
  - now rewrite (post_coffees_eq t u).
  - now rewrite (post_coffees_eq t u).
  - exact Hempty.
  - rewrite (get_coffees_eq t u); [now rewrite Hempty | assumption | exact Hu |].
    rewrite Hempty. intros row [].
  - cbn. induction (coffees (w_db w)) as [|c l IH]; cbn; [reflexivity|].
    destruct (Database.owned_by (u_id u) c) eqn:Hc; cbn; [exact IH|].
    rewrite Hc. cbn. now rewrite IH.
Qed.


(** *** Registration and validation *)

Lemma violates_unique_fresh_name : forall name token db,
  Database.usernameExists name db = false ->
  Database.violates_unique name token db = token_in_use token db.
Proof.
  intros name token db. unfold Database.usernameExists, Database.violates_unique, token_in_use.
  induction (users db) as [|u l IH]; cbn; intros H.
  - reflexivity.
  - apply orb_false_iff in H. destruct H as [Hu Hl].
    rewrite (IH Hl).
    destruct (u_username u =? name) eqn:Hname; [|reflexivity].
    apply String.eqb_eq in Hname. rewrite Hname, String.eqb_refl in Hu. discriminate.
Qed.

(** The handler on a username that is text. *)
Lemma auth_register_text : forall s w,
  auth_register E (mkRegisterBody (Some (JStr s))) w =
  if (s =? "") || (String.length (trim s) <? 2)%nat then (username_too_short, w)
  else if (10 <=? Database.getUserCount (w_db w))%nat then (tester_limit_reached, w)
  else if Database.usernameExists (trim s) (w_db w) then (username_taken, w)
  else if token_in_use (uuidv4 E (w_uuid_calls w)) (w_db w)
       then (server_error,
             console_error "Register error:" SqliteConstraint (after_uuid_call w))
  else (registered (next_user_id (w_db w)) (trim s) (uuidv4 E (w_uuid_calls w))
                   (S (Database.getUserCount (w_db w))),
        after_registration E (trim s) w).
Proof.
  intros s w.
  unfold auth_register, try_catch, register_body. cbn [rb_username truthy].
  destruct (s =? "") eqn:Hs; cbn [negb orb]; [reflexivity|].
  unfold bind at 1. cbn [call_trim ret].
  destruct (String.length (trim s) <? 2)%nat; [reflexivity|].
  unfold bind at 1, query at 1.
  destruct (10 <=? Database.getUserCount (w_db w))%nat; [reflexivity|].
  unfold bind at 1, query at 1.
  destruct (Database.usernameExists (trim s) (w_db w)) eqn:Hex; [reflexivity|].
  unfold bind at 1, call_uuidv4.
  unfold bind at 1, run_createUser. cbn [w_db].
  rewrite (violates_unique_fresh_name _ _ _ Hex).
  destruct (token_in_use (uuidv4 E (w_uuid_calls w)) (w_db w)) eqn:Htok; [reflexivity|].
  unfold CURRENT_TIMESTAMP, bind at 1, Date_now. cbn [ret w_db].
  unfold Database.createUser. rewrite (violates_unique_fresh_name _ _ _ Hex), Htok.
  unfold bind, query, ret. cbn.
  unfold Database.getUserCount. cbn. rewrite length_app. cbn.
  rewrite Nat.add_1_r. reflexivity.
Qed.

(** The handler on any other username. *)
Lemma auth_register_other : forall v w,
  (forall s, v <> Some (JStr s)) ->
  auth_register E (mkRegisterBody v) w =
  if truthy v then (server_error, console_error "Register error:" TypeError w)
  else (username_too_short, w).
Proof.
  intros v w Hv. unfold auth_register, try_catch, register_body. cbn [rb_username].
  destruct v as [[]|]; try reflexivity.
  - destruct b; reflexivity.
  - cbn [truthy]. destruct (n =? 0)%Z; reflexivity.
  - now elim (Hv s).
Qed.

Lemma auth_validate_eq : forall t w,
  t <> "" ->
  auth_validate E (Some t) w =
  (match Database.getUserByToken t (w_db w) with
   | None => invalid_token_validate
   | Some u => validated (u_id u) (u_username u) (datetime_text E (u_created_at u))
   end, w).
Proof.
  intros t w Ht. unfold auth_validate, try_catch, validate_body.
  rewrite (token_given_nonempty t Ht). cbn [negb].
  unfold bind, query. destruct (Database.getUserByToken t (w_db w)); reflexivity.
Qed.

(** **** What each handler does to the database *)

Lemma auth_validate_db : forall token w,
  w_db (snd (auth_validate E token w)) = w_db w.
Proof.
  intros token w. unfold auth_validate, try_catch, validate_body.
  destruct token as [t|]; [|reflexivity].
  destruct (negb (token_given (Some t))); [reflexivity|].
  unfold bind, query. destruct (Database.getUserByToken t (w_db w)); reflexivity.
Qed.

Lemma parse_rows_world : forall rows w, snd (parse_rows E rows w) = w.
Proof.
  induction rows as [|row rest IH]; intros w; cbn [parse_rows].
  - reflexivity.
  - destruct (JSON_parse E (c_data row)); [|reflexivity].
    unfold bind. specialize (IH w).
    destruct (parse_rows E rest w) as [[more|e] w']; cbn in *; now subst.
Qed.

Lemma get_coffees_db : forall token w,
  w_db (snd (get_coffees E token w)) = w_db w.
Proof.
  intros token w. unfold get_coffees, try_catch, get_coffees_body.
  destruct token as [t|]; [|reflexivity].
  destruct (negb (token_given (Some t))); [reflexivity|].
  unfold bind at 1, query at 1.
  destruct (Database.getUserByToken t (w_db w)) as [u|]; [|reflexivity].
  unfold bind at 1, query at 1. unfold bind.
  pose proof (parse_rows_world (Database.getUserCoffees (u_id u) (w_db w)) w) as Hw.
  destruct (parse_rows E _ w) as [[parsed|e] w']; cbn in *; now subst.
Qed.

Lemma post_coffees_users : forall b w,
  users (w_db (snd (post_coffees E b w))) = users (w_db w).
Proof.
  intros [token submitted] w.
  destruct token as [t|]; [|reflexivity].
  destruct (String.eqb_spec t "") as [->|Ht]; [reflexivity|].
  destruct (Database.getUserByToken t (w_db w)) as [u|] eqn:Hu.
  - rewrite (post_coffees_eq t u) by assumption. cbv zeta.
    destruct submitted as [c|]; [|reflexivity].
    destruct (has_coffees E (Some c)) as [[]|]; [|reflexivity|reflexivity].
    destruct (iterate c); [|reflexivity].
    cbn [snd]. now rewrite save_all_users.
  - unfold post_coffees, try_catch, post_coffees_body. cbn [cb_token cb_coffees].
    rewrite (token_given_nonempty t Ht). cbn [negb].
    unfold bind, query. now rewrite Hu.
Qed.

Lemma analyze_coffee_db : forall b w,
  w_db (snd (analyze_coffee E b w)) = w_db w.
Proof.
  intros [imageData mediaType] w.
  destruct imageData as [img|]; [|reflexivity].
  destruct (truthy (Some img)) eqn:Himg.
  - rewrite analyze_coffee_eq by assumption. cbv zeta.
    destruct (fetch E _ _) as [|[] [[]|]]; try reflexivity;
      unfold try_catch; rewrite extract_and_respond_eq;
      repeat (break_scrutinee; try reflexivity).
  - unfold analyze_coffee, try_catch, analyze_body. cbn [ab_imageData].
    now rewrite Himg.
Qed.

(** A registration either leaves the database as it was or appends the one
    new user, which it does only below ten users and for a trimmed name of
    two characters or more that no user has. *)
Lemma auth_register_effect : forall b w,
  let w' := snd (auth_register E b w) in
  (w_db w' = w_db w /\ status (fst (auth_register E b w)) <> 200) \/
  exists s,
    rb_username b = Some (JStr s) /\
    (2 <= String.length (trim s))%nat /\
    (Database.getUserCount (w_db w) < 10)%nat /\
    Database.usernameExists (trim s) (w_db w) = false /\
    token_in_use (uuidv4 E (w_uuid_calls w)) (w_db w) = false /\
    fst (auth_register E b w)
      = registered (next_user_id (w_db w)) (trim s) (uuidv4 E (w_uuid_calls w))
                   (S (Database.getUserCount (w_db w))) /\
    w' = after_registration E (trim s) w.
Proof.
  intros [v] w. cbv zeta.
  destruct v as [j|].
  2:{ left. rewrite auth_register_other by discriminate. now split. }
  destruct j as [ |b|n|s|items|props];
    try (left; rewrite auth_register_other by discriminate;
         destruct (truthy _); now split).
  rewrite auth_register_text.
  destruct ((s =? "") || (String.length (trim s) <? 2)%nat) eqn:Hshort;
    [left; now split|].
  destruct (10 <=? Database.getUserCount (w_db w))%nat eqn:Hfull; [left; now split|].
  destruct (Database.usernameExists (trim s) (w_db w)) eqn:Hex; [left; now split|].
  destruct (token_in_use (uuidv4 E (w_uuid_calls w)) (w_db w)) eqn:Htok;
    [left; now split|].
  right. exists s.
  apply orb_false_iff in Hshort. destruct Hshort as [_ Hlen].
  apply Nat.ltb_ge in Hlen. apply Nat.leb_gt in Hfull.
  repeat split; assumption.
Qed.

Lemma handle_users : forall r w,
  let w' := snd (handle E r w) in
  users (w_db w') = users (w_db w) \/
  exists u,
    users (w_db w') = users (w_db w) ++ [u] /\
    (2 <= String.length (u_username u))%nat /\
    (List.length (users (w_db w)) < 10)%nat.
Proof.
  intros r w. cbv zeta. destruct r as [b|token|token|b|b]; cbn [handle].
  - destruct (auth_register_effect b w) as [[Hdb _]|(s & _ & Hlen & Hcount & _ & _ & _ & Hw)].
    + left. now rewrite Hdb.
    + right. rewrite Hw. eexists. split; [reflexivity|]. split; assumption.
  - left. now rewrite auth_validate_db.
  - left. now rewrite get_coffees_db.
  - left. apply post_coffees_users.
  - left. now rewrite analyze_coffee_db.
Qed.

Lemma serve_users : forall rs w,
  exists extra, users (w_db (snd (serve E rs w))) = users (w_db w) ++ extra.
Proof.
  induction rs as [|r rs IH]; intros w; cbn [serve].
  - exists []. cbn. now rewrite app_nil_r.
  - destruct (handle E r w) as [resp w1] eqn:Hr.
    destruct (IH w1) as (extra & Hextra).
    destruct (serve E rs w1) as [resps w2]. cbn [snd] in *.
    pose proof (handle_users r w) as Hstep. cbv zeta in Hstep.
    rewrite Hr in Hstep. cbn [snd] in Hstep.
    destruct Hstep as [Hsame|(u & Hu & _)].
    + exists extra. now rewrite Hextra, Hsame.
    + exists (u :: extra). rewrite Hextra, Hu, <- app_assoc. reflexivity.
Qed.

Lemma reachable_serve : forall rs w,
  reachable E w -> reachable E (snd (serve E rs w)).
Proof.
  induction rs as [|r rs IH]; intros w Hw; cbn [serve].
  - exact Hw.
  - pose proof (reachable_step E w r Hw) as Hstep.
    destruct (handle E r w) as [resp w1]. cbn [snd] in Hstep.
    specialize (IH w1 Hstep). destruct (serve E rs w1) as [resps w2].
    exact IH.
Qed.

(** The registration cap and the shape of the stored names hold in every
    reachable world. *)
Lemma reachable_users : forall w,
  reachable E w ->
  (List.length (users (w_db w)) <= 10)%nat /\
  Forall (fun u => (2 <= String.length (u_username u))%nat) (users (w_db w)).
Proof.
  intros w Hw. induction Hw as [|w r Hw [Hcount Hnames]].
  - cbn. split; [lia | constructor].
  - pose proof (handle_users r w) as Hstep. cbv zeta in Hstep.
    destruct Hstep as [Hsame|(u & Hu & Hlen & Hlt)].
    + rewrite Hsame. now split.
    + rewrite Hu. split.
      * rewrite length_app. cbn. lia.
      * apply Forall_app. split; [assumption|]. now constructor.
Qed.

Lemma find_token_appended : forall token old u extra,
  u_token u = token ->
  existsb (fun x => u_token x =? token) old = false ->
  find (fun x => u_token x =? token) (old ++ [u] ++ extra) = Some u.
Proof.
  intros token old u extra Hu. induction old as [|x old IH]; cbn; intros Hold.
  - now rewrite Hu, String.eqb_refl.
  - apply orb_false_iff in Hold. destruct Hold as [Hx Hold].
    rewrite Hx. now apply IH.
Qed.

Lemma find_token_unknown : forall token l,
  (forall u, In u l -> u_token u <> token) ->
  find (fun x => u_token x =? token) l = None.
Proof.
  intros token l. induction l as [|x l IH]; cbn; intros H.
  - reflexivity.
  - destruct (String.eqb_spec (u_token x) token) as [Heq|_].
    + exfalso. apply (H x); [now left | assumption].
    + apply IH. intros u Hu. apply H. now right.
Qed.

Lemma registered_inj : forall id username token n id' username' token' n',
  registered id username token n = registered id' username' token' n' ->
  id = id' /\ username = username' /\ token = token'.
Proof.
  intros id username token n id' username' token' n' H.
  unfold registered in H. injection H as Hid Hname Htok _.
  apply Nat2Z.inj in Hid. now repeat split.
Qed.

(** C5. A token returned by a successful registration resolves, at any
    later time, to the id and the username that the registration returned;
    a token that no user holds resolves to [valid: false] with HTTP 401. *)
Theorem registered_token_validates :
  forall (b : RegisterBody) (w w1 : World) (id : nat) (username token : string)
         (spots : nat) (later : list Request),
  auth_register E b w = (registered id username token spots, w1) ->
  token <> "" ->
  (exists createdAt,
     fst (auth_validate E (Some token) w1) = validated id username createdAt /\
     fst (auth_validate E (Some token) (snd (serve E later w1)))
       = validated id username createdAt) /\
  (forall (w' : World) (t : string),
     t <> "" ->
     (forall u, In u (users (w_db w')) -> u_token u <> t) ->
     auth_validate E (Some t) w' = (invalid_token_validate, w') /\
     status invalid_token_validate = 401 /\
     prop (body invalid_token_validate) "valid" = Some (JBool false)).
Proof.
  intros b w w1 id username token spots later Hreg Htoken.
  split.
  - destruct (auth_register_effect b w)
      as [[_ Hstatus]|(s & _ & _ & _ & _ & Hfresh & Hresp & Hw1)].
    { rewrite Hreg in Hstatus. now elim Hstatus. }
    rewrite Hreg in Hresp, Hw1. cbn [fst snd] in Hresp, Hw1.
    apply registered_inj in Hresp. destruct Hresp as (Hid & Hname & Htok).
    set (u := mkUser (next_user_id (w_db w)) (trim s) (uuidv4 E (w_uuid_calls w))
                     (next_reading E (after_uuid_call w) / 1000)).
    assert (Husers : users (w_db w1) = users (w_db w) ++ [u]) by now rewrite Hw1.
    assert (Hfind : forall extra,
              find (fun x => u_token x =? token) (users (w_db w) ++ [u] ++ extra) = Some u).
    { intros extra. apply find_token_appended; [now rewrite Htok|].
      now rewrite Htok. }
    exists (datetime_text E (u_created_at u)). split.
    + rewrite auth_validate_eq by assumption. unfold Database.getUserByToken.
      rewrite Husers. specialize (Hfind []). rewrite app_nil_r in Hfind.
      rewrite Hfind. cbn [fst u_id u_username u]. now rewrite Hid, Hname.
    + rewrite auth_validate_eq by assumption. unfold Database.getUserByToken.
      destruct (serve_users later w1) as (extra & Hextra).
      rewrite Hextra, Husers, <- app_assoc, Hfind.
      cbn [fst u_id u_username u]. now rewrite Hid, Hname.
  - intros w' t Ht Hunknown. split; [|split; reflexivity].
    rewrite auth_validate_eq by assumption. unfold Database.getUserByToken.
    now rewrite find_token_unknown.
Qed.

(** **** The registration cap *)

Lemma LOWER_length : forall s, String.length (Database.LOWER s) = String.length s.
Proof. induction s as [|c r IH]; cbn; [reflexivity | now rewrite IH]. Qed.

Lemma long_name_nonempty : forall s,
  (2 <= String.length (trim s))%nat -> (s =? "") = false.
Proof.
  intros s H. apply String.eqb_neq. intros ->. cbn in H. lia.
Qed.









(** C4, as amended. Usernames are compared under [LOWER]: in a reachable
    world, a registration whose trimmed username equals a registered one
    after both are lowercased creates no user. While fewer than ten users
    exist it is refused with HTTP 409 "Username already taken"; once ten
    users exist the capacity check comes first and it is refused with HTTP
    403. *)
Theorem duplicate_username_rejected :
  forall (w : World) (u : UserRow) (s : string),
  reachable E w ->
  In u (users (w_db w)) ->
  Database.LOWER (trim s) = Database.LOWER (u_username u) ->
  auth_register E (mkRegisterBody (Some (JStr s))) w
    = (if (10 <=? List.length (users (w_db w)))%nat
       then tester_limit_reached else username_taken, w) /\
  status username_taken = 409 /\
  status tester_limit_reached = 403.
Proof.
  intros w u s Hw Hu Hlower. split; [|split; reflexivity].
  destruct (reachable_users w Hw) as [_ Hnames].
  assert (Hlen : (2 <= String.length (trim s))%nat).
  { rewrite <- (LOWER_length (trim s)), Hlower, LOWER_length.
    rewrite Forall_forall in Hnames. now apply Hnames. }
  rewrite auth_register_text, (long_name_nonempty s Hlen).
  apply Nat.ltb_ge in Hlen. rewrite Hlen. cbn [orb].
  unfold Database.getUserCount.
  destruct (10 <=? List.length (users (w_db w)))%nat; [reflexivity|].
  assert (Hex : Database.usernameExists (trim s) (w_db w) = true).
  { unfold Database.usernameExists. apply existsb_exists. exists u.
    split; [assumption|]. rewrite Hlower. apply String.eqb_refl. }
  now rewrite Hex.
Qed.

End Properties.

(* ================================================================== *)
(** ** Closed instances *)
(* ================================================================== *)

Import Samples.


(** C1 at work: Alice replaces her list with two coffees and lists them,
    replaces it with one and lists again. *)
Lemma replace_then_list_holds :
  alice_token <> "" /\
  Database.getUserByToken alice_token (w_db with_alice)
    = Some (mkUser 1 "alice" alice_token 0) /\
  (let (saved, w1) :=
     post_coffees local_env
       (mkCoffeesBody (Some alice_token) (Some (JArr [espresso; filter_roast])))
       with_alice in
   let (listed, w2) := get_coffees local_env (Some alice_token) w1 in
   let (saved', w3) :=
     post_coffees local_env (mkCoffeesBody (Some alice_token) (Some (JArr [decaf]))) w2 in
   let (listed', w4) := get_coffees local_env (Some alice_token) w3 in
   saved = coffees_saved (JNum 2) /\
   lists_exactly local_env 1 [espresso; filter_roast] (w_db w2) listed /\
   saved' = coffees_saved (JNum 1) /\
   lists_exactly local_env 1 [decaf] (w_db w4) listed' /\
   ([decaf] = [] -> listed' = coffees_listed []) /\
   (forall (row : CoffeeRow) (fields : list (string * json)) (k : string),
      prop (stored_record local_env (row, JObj fields)) k =
      if k =? "savedAt" then Some (JStr (datetime_text local_env (c_created_at row)))
      else match assoc k (rev fields) with
           | Some v => Some v
           | None => if k =? "id" then Some (JNum (Z.of_nat (c_id row))) else None
           end)).
Proof.
  assert (Htoken : alice_token <> "") by discriminate.
  assert (Huser : Database.getUserByToken alice_token (w_db with_alice)
                  = Some (mkUser 1 "alice" alice_token 0)) by reflexivity.
  split; [exact Htoken|]. split; [exact Huser|].
  apply (replace_then_list local_env alice_token (mkUser 1 "alice" alice_token 0)
           with_alice [espresso; filter_roast] [decaf] Htoken Huser).
  - intros c [<-|[<-|[]]]; reflexivity.
  - intros c [<-|[]]; reflexivity.
Defined.

(** Claim C1 fails where a submitted record has fields named [savedAt] and
    [id]: the record listed is not content-equal to the one submitted, its
    [savedAt] being the row's save time, and it does not carry the row's
    id, the record's own [id] taking its place. *)
Lemma submitted_savedAt_is_overwritten :
  let coffee := JObj [("name", JStr "n"); ("savedAt", JStr "x"); ("id", JNum 99)] in
  let listed := JObj [("id", JNum 99); ("name", JStr "n"); ("savedAt", JStr "t+0")] in
  let w1 := snd (post_coffees local_env
                   (mkCoffeesBody (Some alice_token) (Some (JArr [coffee]))) with_alice) in
  JSON_parse local_env (JSON_stringify local_env coffee) = Some coffee /\
  fst (post_coffees local_env
         (mkCoffeesBody (Some alice_token) (Some (JArr [coffee]))) with_alice)
    = coffees_saved (JNum 1) /\
  map c_id (Database.getUserCoffees 1 (w_db w1)) = [1] /\
  map (datetime_text local_env) (map c_created_at (Database.getUserCoffees 1 (w_db w1)))
    = ["t+0"] /\
  fst (get_coffees local_env (Some alice_token) w1) = coffees_listed [listed] /\
  prop coffee "savedAt" = Some (JStr "x") /\
  prop listed "savedAt" = Some (JStr "t+0") /\
  prop listed "savedAt" <> prop coffee "savedAt" /\
  prop listed "id" = Some (JNum 99) /\
  prop listed "id" <> Some (JNum 1).
Proof. vm_compute. repeat split; discriminate. Qed.

(** What the two listings look like, on a clock that stays within the
    second and on one that moves to a later second before every insert. *)
Example listing_within_one_second :
  fst (get_coffees local_env (Some alice_token) with_two_coffees)
  = coffees_listed
      [JObj [("id", JNum 1); ("name", JStr "Espresso"); ("origin", JStr "Brazil");
             ("savedAt", JStr "t+0")];
       JObj [("id", JNum 2); ("name", JStr "Filter"); ("process", JStr "washed");
             ("savedAt", JStr "t+0")]].
Proof. reflexivity. Qed.

Example listing_across_seconds :
  let slow_env := Reference.env Reference.slow Reference.offline in
  let w0 := snd (serve slow_env [register_request "alice"] initial_world) in
  let w1 := snd (post_coffees slow_env
                   (mkCoffeesBody (Some alice_token) (Some (JArr [espresso; filter_roast])))
                   w0) in
  fst (get_coffees slow_env (Some alice_token) w1)
  = coffees_listed
      [JObj [("id", JNum 2); ("name", JStr "Filter"); ("process", JStr "washed");
             ("savedAt", JStr "t+4")];
       JObj [("id", JNum 1); ("name", JStr "Espresso"); ("origin", JStr "Brazil");
             ("savedAt", JStr "t+3")]].
Proof. reflexivity. Qed.


Example eleventh_registration :
  nth_error (fst (serve local_env (map register_request (ten_names ++ ["late"]))
                    initial_world)) 10
  = Some tester_limit_reached /\
  map spotsRemaining
      (fst (serve local_env (map register_request ten_names) initial_world))
  = map (fun n => Some (JNum n)) [9; 8; 7; 6; 5; 4; 3; 2; 1; 0]%Z.
Proof. split; reflexivity. Qed.



(** Claim C4 fails at capacity: with ten users registered, "COFFEE" is
    refused with 403, not with 409, although "Coffee" is registered. *)
Lemma duplicate_at_capacity_is_403 :
  let (response, w') :=
    auth_register local_env (mkRegisterBody (Some (JStr "COFFEE"))) full_house in
  In "Coffee" (map u_username (users (w_db full_house))) /\
  Database.LOWER (trim "COFFEE") = Database.LOWER "Coffee" /\
  response = tester_limit_reached /\
  status response = 403 /\
  status response <> 409 /\
  w' = full_house.
Proof.
  vm_compute. repeat split; try discriminate. now left.
Qed.

(** C4 as amended, below capacity: " ALICE " after "alice" is a conflict. *)
Lemma duplicate_username_rejected_holds :
  reachable local_env with_alice /\
  In (mkUser 1 "alice" alice_token 0) (users (w_db with_alice)) /\
  Database.LOWER (trim "  ALICE ") = Database.LOWER "alice" /\
  auth_register local_env (mkRegisterBody (Some (JStr "  ALICE "))) with_alice
    = (username_taken, with_alice).
Proof.
  assert (Hreach : reachable local_env with_alice).
  { apply reachable_serve. constructor. }
  assert (Hin : In (mkUser 1 "alice" alice_token 0) (users (w_db with_alice)))
    by (now left).
  assert (Hlower : Database.LOWER (trim "  ALICE ")
                   = Database.LOWER (u_username (mkUser 1 "alice" alice_token 0)))
    by reflexivity.
  split; [exact Hreach|]. split; [exact Hin|]. split; [exact Hlower|].
  exact (proj1 (duplicate_username_rejected local_env with_alice
                  (mkUser 1 "alice" alice_token 0) "  ALICE " Hreach Hin Hlower)).
Defined.

(** C5 at work: Alice's token validates, also after other requests were
    served. *)
Lemma registered_token_validates_holds :
  auth_register local_env (mkRegisterBody (Some (JStr "alice"))) initial_world
    = (registered 1 "alice" alice_token 1, with_alice) /\
  alice_token <> "" /\
  (exists createdAt,
     fst (auth_validate local_env (Some alice_token) with_alice)
       = validated 1 "alice" createdAt /\
     fst (auth_validate local_env (Some alice_token)
            (snd (serve local_env
                    [register_request "bob";
                     PostCoffees (mkCoffeesBody (Some alice_token) (Some (JArr [decaf])))]
                    with_alice)))
       = validated 1 "alice" createdAt).
Proof.
  assert (Hreg : auth_register local_env (mkRegisterBody (Some (JStr "alice")))
                   initial_world
                 = (registered 1 "alice" alice_token 1, with_alice)) by reflexivity.
  assert (Htoken : alice_token <> "") by discriminate.
  split; [exact Hreg|]. split; [exact Htoken|].
  exact (proj1 (registered_token_validates local_env
                  (mkRegisterBody (Some (JStr "alice"))) initial_world with_alice
                  1 "alice" alice_token 1
                  [register_request "bob";
                   PostCoffees (mkCoffeesBody (Some alice_token) (Some (JArr [decaf])))]
                  Hreg Htoken)).
Defined.

Example unknown_token_is_401 :
  auth_validate local_env (Some (Reference.token_of 7)) with_alice
  = (invalid_token_validate, with_alice) /\
  auth_validate local_env (Some "") with_alice = (token_required, with_alice).
Proof. split; reflexivity. Qed.

(** X11 at work: two different upstream failures, one answer. *)
Lemma upstream_failure_is_generic_holds :
  truthy (ab_imageData photo) = true /\
  fetch (refusing overloaded) 0 (upstream_request (JStr "aGVsbG8=") (Some (JStr "image/png")))
    = FetchResponse false (Some overloaded) /\
  fetch (refusing bad_key) 0 (upstream_request (JStr "aGVsbG8=") (Some (JStr "image/png")))
    = FetchResponse false (Some bad_key) /\
  overloaded <> bad_key /\
  fst (analyze_coffee (refusing overloaded) photo initial_world)
    = fst (analyze_coffee (refusing bad_key) photo initial_world) /\
  fst (analyze_coffee (refusing overloaded) photo initial_world) = analysis_failed.
Proof.
  assert (Himg : truthy (Some (JStr "aGVsbG8=")) = true) by reflexivity.
  assert (H1 : fetch (refusing overloaded) (List.length (w_outbound initial_world))
                 (upstream_request (JStr "aGVsbG8=") (Some (JStr "image/png")))
               = FetchResponse false (Some overloaded)) by reflexivity.
  assert (H2 : fetch (refusing bad_key) (List.length (w_outbound initial_world))
                 (upstream_request (JStr "aGVsbG8=") (Some (JStr "image/png")))
               = FetchResponse false (Some bad_key)) by reflexivity.
  split; [exact Himg|]. split; [exact H1|]. split; [exact H2|].
  split; [discriminate|].
  pose proof (upstream_failure_is_generic (refusing overloaded) (refusing bad_key)
                (JStr "aGVsbG8=") (Some (JStr "image/png")) initial_world
                (Some overloaded) (Some bad_key) Himg H1 H2) as H.
  cbv zeta in H. destruct H as (Hsame & Hgeneric & _). split; assumption.
Defined.

Example upstream_message_is_logged_only :
  snd (analyze_coffee (refusing overloaded) photo initial_world)
  = mkWorld Database.empty 0 0 0
      [upstream_request (JStr "aGVsbG8=") (Some (JStr "image/png"))]
      [("Analyze error:", JsError "Overloaded")].
Proof. reflexivity. Qed.

(** C7. The claim holds of the earlier server and fails on [server.js],
    which reads [data.content[0].text] where the claim, and the earlier
    server with [content.find], take the first text block. On a reply whose
    text block comes second, the first text block holds a brace span that
    parses: the earlier server answers 200 with the parsed object,
    [server.js] finds no text in the first block and answers the generic
    500. *)
Theorem text_block_must_come_first :
  let data := reply_text_second "{}" in
  first_text_block data = Some "{}" /\
  specified_span data = Some "{}" /\
  JSON_parse (answering data) "{}" = Some (JObj []) /\
  fst (Legacy.analyze Reference.parse (fun _ => Legacy.SdkMessage data)
         (fun _ => "engine") photo)
    = mkResponse 200 (JObj [("success", JBool true); ("data", JObj [])]) /\
  reply_text data = None /\
  fst (analyze_coffee (answering data) photo initial_world) = analysis_failed /\
  status (fst (analyze_coffee (answering data) photo initial_world)) = 500 /\
  w_console (snd (analyze_coffee (answering data) photo initial_world))
    = [("Analyze error:", TypeError)].
Proof. vm_compute. repeat split. Qed.

(** X29 at work, on a fenced reply: the span is the object, the fence is
    left out. *)
Lemma analysis_extraction_holds :
  let text := String.append "```json "
                (String.append (Reference.stringify espresso) " ```") in
  let data := reply_with text in
  truthy (ab_imageData photo) = true /\
  fetch (answering data) 0 (upstream_request (JStr "aGVsbG8=") (Some (JStr "image/png")))
    = FetchResponse true (Some data) /\
  reply_text data = Some text /\
  match_braces text = Some (Reference.stringify espresso) /\
  fst (analyze_coffee (answering data) photo initial_world)
    = analyzed (normalized espresso
                  (toISOString (answering data) (next_reading (answering data) initial_world))).
Proof.
  cbv zeta.
  set (text := String.append "```json "
                 (String.append (Reference.stringify espresso) " ```")).
  set (data := reply_with text).
  assert (Himg : truthy (Some (JStr "aGVsbG8=")) = true) by reflexivity.
  assert (Hfetch : fetch (answering data) (List.length (w_outbound initial_world))
                     (upstream_request (JStr "aGVsbG8=") (Some (JStr "image/png")))
                   = FetchResponse true (Some data)) by reflexivity.
  assert (Htext : reply_text data = Some text) by reflexivity.
  assert (Hspan : match_braces text = Some (Reference.stringify espresso))
    by reflexivity.
  assert (Hparse : JSON_parse (answering data) (Reference.stringify espresso)
                   = Some espresso) by reflexivity.
  split; [exact Himg|]. split; [exact Hfetch|]. split; [exact Htext|].
  split; [exact Hspan|].
  pose proof (analysis_extraction (answering data) (JStr "aGVsbG8=")
                (Some (JStr "image/png")) initial_world data text Himg Hfetch Htext) as H.
  cbv zeta in H. destruct H as [_ [H _]].
  rewrite Hspan in H. destruct H as [_ H]. rewrite Hparse in H. exact H.
Defined.

(** Claim C8 fails on [tastingNotes]: an object without the field gets
    "No notes", not "Unknown"; and the stamp is [addedDate]. *)
Lemma tastingNotes_default_is_No_notes :
  let data := reply_with "{}" in
  JSON_parse (answering data) "{}" = Some (JObj []) /\
  prop (JObj []) "tastingNotes" = None /\
  exists fields,
    fst (analyze_coffee (answering data) photo initial_world) = analyzed (JObj fields) /\
    assoc "tastingNotes" fields = Some (JStr "No notes") /\
    assoc "tastingNotes" fields <> Some (JStr "Unknown") /\
    assoc "roaster" fields = Some (JStr "Unknown") /\
    assoc "added" fields = None /\
    assoc "addedDate" fields = Some (JStr "1ms").
Proof.
  cbv zeta. split; [reflexivity|]. split; [reflexivity|].
  eexists. split; [reflexivity|]. repeat split. discriminate.
Qed.

(** C8 as amended, on an object with a name, a [null] process and nothing
    else. *)
Lemma analysis_defaults_holds :
  let text := Reference.stringify (JObj [("name", JStr "Espresso"); ("process", JNull)]) in
  let data := reply_with text in
  truthy (ab_imageData photo) = true /\
  fetch (answering data) 0 (upstream_request (JStr "aGVsbG8=") (Some (JStr "image/png")))
    = FetchResponse true (Some data) /\
  reply_text data = Some text /\
  match_braces text = Some text /\
  JSON_parse (answering data) text
    = Some (JObj [("name", JStr "Espresso"); ("process", JNull)]) /\
  JObj [("name", JStr "Espresso"); ("process", JNull)] <> JNull /\
  exists fields,
    fst (analyze_coffee (answering data) photo initial_world)
      = analyzed (JObj (fields ++ [("addedDate", JStr "1ms")])) /\
    assoc "name" fields = Some (JStr "Espresso") /\
    assoc "process" fields = Some (JStr "washed") /\
    assoc "tastingNotes" fields = Some (JStr "No notes").
Proof.
  cbv zeta.
  set (obj := JObj [("name", JStr "Espresso"); ("process", JNull)]).
  set (text := Reference.stringify obj).
  set (data := reply_with text).
  assert (Himg : truthy (Some (JStr "aGVsbG8=")) = true) by reflexivity.
  assert (Hfetch : fetch (answering data) (List.length (w_outbound initial_world))
                     (upstream_request (JStr "aGVsbG8=") (Some (JStr "image/png")))
                   = FetchResponse true (Some data)) by reflexivity.
  assert (Htext : reply_text data = Some text) by reflexivity.
  assert (Hspan : match_braces text = Some text) by reflexivity.
  assert (Hparse : JSON_parse (answering data) text = Some obj) by reflexivity.
  assert (Hnull : obj <> JNull) by discriminate.
  split; [exact Himg|]. split; [exact Hfetch|]. split; [exact Htext|].
  split; [exact Hspan|]. split; [exact Hparse|]. split; [exact Hnull|].
  destruct (analysis_defaults (answering data) (JStr "aGVsbG8=")
              (Some (JStr "image/png")) initial_world data text text obj
              Himg Hfetch Htext Hspan Hparse Hnull)
    as (fields & Hresp & _ & Hdefault & Hkeep).
  exists fields. split; [exact Hresp|]. split; [|split].
  - apply (Hkeep "name" "Unknown"); [now left | reflexivity | reflexivity].
  - apply (Hdefault "process" "washed"); [cbn; tauto | reflexivity].
  - apply (Hdefault "tastingNotes" "No notes"); [cbn; tauto | reflexivity].
Defined.

(** C10 at work: Alice posts without a list. *)
Lemma omitted_list_clears_holds :
  alice_token <> "" /\
  Database.getUserByToken alice_token (w_db with_two_coffees)
    = Some (mkUser 1 "alice" alice_token 0) /\
  List.length (Database.getUserCoffees 1 (w_db with_two_coffees)) = 2 /\
  (let cleared :=
     set_db (Database.deleteUserCoffees 1 (w_db with_two_coffees)) with_two_coffees in
   post_coffees local_env (mkCoffeesBody (Some alice_token) None) with_two_coffees
     = (coffees_saved (JNum 0), cleared) /\
   post_coffees local_env (mkCoffeesBody (Some alice_token) (Some JNull)) with_two_coffees
     = (coffees_saved (JNum 0), cleared) /\
   post_coffees local_env (mkCoffeesBody (Some alice_token) (Some (JArr []))) with_two_coffees
     = (coffees_saved (JNum 0), cleared) /\
   status (coffees_saved (JNum 0)) = 200 /\
   Database.getUserCoffees 1 (w_db cleared) = [] /\
   get_coffees local_env (Some alice_token) cleared = (coffees_listed [], cleared) /\
   filter (fun c => negb (Database.owned_by 1 c)) (coffees (w_db cleared))
     = filter (fun c => negb (Database.owned_by 1 c)) (coffees (w_db with_two_coffees))).
Proof.
  assert (Htoken : alice_token <> "") by discriminate.
  assert (Huser : Database.getUserByToken alice_token (w_db with_two_coffees)
                  = Some (mkUser 1 "alice" alice_token 0)) by reflexivity.
  split; [exact Htoken|]. split; [exact Huser|]. split; [reflexivity|].
  exact (omitted_list_clears local_env alice_token (mkUser 1 "alice" alice_token 0)
           with_two_coffees Htoken Huser).
Defined.

(** *** The earlier server against [server.js] *)

(** The earlier server passes the SDK's error text on to the caller. *)
Lemma legacy_echoes_error : forall JSON_parse create engine_message b imageData m,
  ab_imageData b = Some imageData ->
  truthy (Some imageData) = true ->
  create (upstream_request imageData (ab_mediaType b)) = Legacy.SdkRejects m ->
  m <> "" ->
  fst (Legacy.analyze JSON_parse create engine_message b) = failure 500 m.
Proof.
  intros JSON_parse create engine_message b imageData m Hb Himg Hcreate Hm.
  unfold Legacy.analyze. rewrite Hb, Himg. cbn [negb]. rewrite Hcreate.
  cbn [fst]. unfold Legacy.failed, Legacy.message_of.
  apply String.eqb_neq in Hm. now rewrite Hm.
Qed.

(** On a reply whose text block comes second, and on a fenced reply, the
    earlier server finds the object. *)
Example legacy_takes_first_text_block :
  fst (Legacy.analyze Reference.parse
         (fun _ => Legacy.SdkMessage (reply_text_second "{}"))
         (fun _ => "engine") photo)
  = mkResponse 200 (JObj [("success", JBool true); ("data", JObj [])]).
Proof. reflexivity. Qed.

Example legacy_strips_fences :
  Legacy.extract Reference.parse
    (reply_with (String.append "```json "
                   (String.append (Reference.stringify espresso) " ```")))
  = Done espresso /\
  strip_code_fences
    (String.append "```json " (String.append (Reference.stringify espresso) " ```"))
  = String.append (Reference.stringify espresso) " ".
Proof. split; reflexivity. Qed.

(** C9. The claim holds of [server.js] and fails on the earlier server,
    whose catch block answers with [error.message]: when the upstream call
    is rejected, the caller reads the SDK's error text, status and upstream
    error object included, so two different upstream failures give two
    different responses. [server.js] answers both with the one generic
    message. *)
Theorem legacy_leaks_upstream_error :
  let overloaded_text := String.append "529 " (Reference.stringify overloaded) in
  let bad_key_text := String.append "401 " (Reference.stringify bad_key) in
  let earlier m :=
    fst (Legacy.analyze Reference.parse (fun _ => Legacy.SdkRejects m)
           (fun _ => "engine") photo) in
  earlier overloaded_text = failure 500 overloaded_text /\
  earlier bad_key_text = failure 500 bad_key_text /\
  earlier overloaded_text <> earlier bad_key_text /\
  earlier overloaded_text <> analysis_failed /\
  fst (analyze_coffee (refusing overloaded) photo initial_world) = analysis_failed /\
  fst (analyze_coffee (refusing bad_key) photo initial_world) = analysis_failed.
Proof.
  cbv zeta. repeat split; try reflexivity; vm_compute; discriminate.
Qed.

Lemma find_text_found : forall blocks block,
  Legacy.find_text blocks = Done (Some block) ->
  find is_text_block blocks = Some block.
Proof.
  induction blocks as [|b rest IH]; intros block H; cbn in H.
  - discriminate.
  - destruct b; try discriminate; cbn [find];
      match goal with
      | |- context [is_text_block ?x] =>
          destruct (is_text_block x); [now injection H as -> | now apply IH]
      end.
Qed.

(** X12. When the earlier server accepts a reply, the object it returns is
    the parse of the first brace span of the first text block, trimmed and
    with the code fences stripped. *)
Theorem legacy_extraction :
  forall (JSON_parse : string -> option json) (message coffeeData : json),
  Legacy.extract JSON_parse message = Done coffeeData ->
  exists text span,
    first_text_block message = Some text /\
    match_braces (strip_code_fences (trim text)) = Some span /\
    JSON_parse span = Some coffeeData.
Proof.
  intros JSON_parse message coffeeData H.
  unfold Legacy.extract in H. unfold first_text_block.
  destruct (prop message "content") as [[ | | | |blocks| ]|]; try discriminate.
  destruct (Legacy.find_text blocks) as [[block|]|e] eqn:Hfind; try discriminate.
  rewrite (find_text_found blocks block Hfind).
  destruct (prop block "text") as [[ | | |text| | ]|]; try discriminate.
  destruct (match_braces (strip_code_fences (trim text))) as [span|] eqn:Hspan;
    try discriminate.
  destruct (JSON_parse span) as [v|] eqn:Hparse; try discriminate.
  injection H as <-. exists text, span. now repeat split.
Qed.

Lemma legacy_extraction_holds :
  Legacy.extract Reference.parse
    (reply_text_second (String.append "```json "
                          (String.append (Reference.stringify espresso) " ```")))
    = Done espresso /\
  exists text span,
    first_text_block
      (reply_text_second (String.append "```json "
                            (String.append (Reference.stringify espresso) " ```")))
      = Some text /\
    match_braces (strip_code_fences (trim text)) = Some span /\
    Reference.parse span = Some espresso.
Proof.
  assert (H : Legacy.extract Reference.parse
                (reply_text_second
                   (String.append "```json "
                      (String.append (Reference.stringify espresso) " ```")))
              = Done espresso) by reflexivity.
  split; [exact H|].
  exact (legacy_extraction Reference.parse _ espresso H).
Defined.

(* ================================================================== *)
(** ** Further properties of the service *)
(* ================================================================== *)

(** X1. Deleting a user's coffees removes exactly that user's records: the
    user's list is empty afterwards, every other user's list is what it
    was, and the users table is not touched. *)
Theorem deleteUserCoffees_exact : forall (userId : nat) (db : Db),
  Database.getUserCoffees userId (Database.deleteUserCoffees userId db) = [] /\
  (forall other, other <> userId ->
     Database.getUserCoffees other (Database.deleteUserCoffees userId db)
     = Database.getUserCoffees other db) /\
  users (Database.deleteUserCoffees userId db) = users db.
Proof.
  intros userId db. split; [|split; [|reflexivity]].
  - unfold Database.getUserCoffees. cbn [Database.deleteUserCoffees coffees].
    induction (coffees db) as [|c l IH]; [reflexivity|].
    cbn [filter]. destruct (Database.owned_by userId c) eqn:Hc; cbn [negb filter].
    + exact IH.
    + rewrite Hc. exact IH.
  - intros other Hother. unfold Database.getUserCoffees.
    cbn [Database.deleteUserCoffees coffees]. f_equal.
    induction (coffees db) as [|c l IH]; [reflexivity|].
    cbn [filter]. destruct (Database.owned_by userId c) eqn:Hc; cbn [negb filter].
    + destruct (Database.owned_by other c) eqn:Ho; [|exact IH].
      unfold Database.owned_by in Hc, Ho.
      apply Nat.eqb_eq in Hc. apply Nat.eqb_eq in Ho. congruence.
    + now rewrite IH.
Qed.

(** X2. Registration refuses a username that is absent, falsy, or shorter
    than two characters once trimmed, with HTTP 400, and leaves the world
    as it was. *)
Theorem short_username_is_rejected : forall (E : Env) (w : World),
  auth_register E (mkRegisterBody None) w = (username_too_short, w) /\
  auth_register E (mkRegisterBody (Some JNull)) w = (username_too_short, w) /\
  (forall s, (String.length (trim s) < 2)%nat ->
     auth_register E (mkRegisterBody (Some (JStr s))) w = (username_too_short, w)) /\
  status username_too_short = 400.
Proof.
  intros E w. split; [reflexivity|]. split; [reflexivity|]. split; [|reflexivity].
  intros s Hlen. rewrite auth_register_text.
  apply Nat.ltb_lt in Hlen. rewrite Hlen. now rewrite orb_true_r.
Qed.

(** X3. Both coffee endpoints answer HTTP 401 and change nothing when the
    token is missing, empty, or held by no user. *)
Theorem coffee_endpoints_need_a_token :
  forall (E : Env) (w : World) (submitted : value),
  get_coffees E None w = (unauthorized, w) /\
  get_coffees E (Some "") w = (unauthorized, w) /\
  post_coffees E (mkCoffeesBody None submitted) w = (unauthorized, w) /\
  post_coffees E (mkCoffeesBody (Some "") submitted) w = (unauthorized, w) /\
  (forall t, t <> "" -> Database.getUserByToken t (w_db w) = None ->
     get_coffees E (Some t) w = (invalid_token, w) /\
     post_coffees E (mkCoffeesBody (Some t) submitted) w = (invalid_token, w)) /\
  status unauthorized = 401 /\ status invalid_token = 401.
Proof.
  intros E w submitted. repeat (split; [reflexivity|]). split; [|split; reflexivity].
  intros t Ht Hnone. split.
  - unfold get_coffees, try_catch, get_coffees_body.
    rewrite (token_given_nonempty t Ht). cbn [negb]. unfold bind, query.
    now rewrite Hnone.
  - unfold post_coffees, try_catch, post_coffees_body. cbn [cb_token].
    rewrite (token_given_nonempty t Ht). cbn [negb]. unfold bind, query.
    now rewrite Hnone.
Qed.

(** X4. [usernameExists] compares under [LOWER]: it answers true exactly
    when some user's name equals the given one after both are lowercased,
    so the answer is the same for two spellings that differ in case. *)
Theorem usernameExists_case_insensitive : forall (name : string) (db : Db),
  (Database.usernameExists name db = true <->
   exists u, In u (users db) /\ Database.LOWER (u_username u) = Database.LOWER name) /\
  Database.usernameExists (Database.LOWER name) db = Database.usernameExists name db.
Proof.
  intros name db. split.
  - unfold Database.usernameExists. rewrite existsb_exists.
    split; intros (u & Hin & Hu); exists u; (split; [assumption|]).
    + now apply String.eqb_eq.
    + now apply String.eqb_eq.
  - unfold Database.usernameExists. f_equal.
    assert (Hidem : Database.LOWER (Database.LOWER name) = Database.LOWER name).
    { induction name as [|c r IH]; cbn; [reflexivity|]. rewrite IH. f_equal.
      unfold Database.lower_char.
      destruct ((65 <=? nat_of_ascii c) && (nat_of_ascii c <=? 90))%nat eqn:Hc.
      - apply andb_true_iff in Hc. destruct Hc as [Hlo Hhi].
        apply Nat.leb_le in Hlo. apply Nat.leb_le in Hhi.
        rewrite nat_ascii_embedding by lia.
        replace ((65 <=? nat_of_ascii c + 32) && (nat_of_ascii c + 32 <=? 90))%nat
          with false; [reflexivity|].
        symmetry. apply andb_false_iff. right. apply Nat.leb_gt. lia.
      - now rewrite Hc. }
    now rewrite Hidem.
Qed.

(** X5. The scenario of the specification: "alice" registers and gets a
    token; a second "alice" is refused with 409; her list is empty; she
    saves one coffee named "X" and the answer says one was saved; her list
    then holds one record with that name. *)
Theorem alice_scenario :
  fst (serve local_env
         [register_request "alice";
          register_request "alice";
          GetCoffees (Some alice_token);
          PostCoffees (mkCoffeesBody (Some alice_token)
                         (Some (JArr [JObj [("name", JStr "X")]])));
          GetCoffees (Some alice_token)]
         initial_world)
  = [registered 1 "alice" alice_token 1;
     username_taken;
     coffees_listed [];
     coffees_saved (JNum 1);
     coffees_listed [JObj [("id", JNum 1); ("name", JStr "X"); ("savedAt", JStr "t+0")]]].
Proof. reflexivity. Qed.

(** X6. [GET /api/auth/validate] without a token, or with an empty one,
    answers HTTP 400 "Token required" and changes nothing; no request to
    the validate, list or analyze endpoints changes the database. *)
Theorem read_only_endpoints :
  forall (E : Env) (w : World) (token : option string) (b : AnalyzeBody),
  auth_validate E None w = (token_required, w) /\
  auth_validate E (Some "") w = (token_required, w) /\
  status token_required = 400 /\
  w_db (snd (auth_validate E token w)) = w_db w /\
  w_db (snd (get_coffees E token w)) = w_db w /\
  w_db (snd (analyze_coffee E b w)) = w_db w.
Proof.
  intros E w token b. repeat (split; [reflexivity|]).
  split; [apply auth_validate_db|]. split; [apply get_coffees_db|].
  apply analyze_coffee_db.
Qed.

(** X7. A registration with a username of trimmed length at least 2 that
    no user has (under [LOWER]), below ten users and with a token no user
    holds, succeeds: it answers the new id, the trimmed username, the token
    and the slots left, and appends exactly that user. *)
Theorem registration_succeeds : forall (E : Env) (w : World) (s : string),
  (2 <= String.length (trim s))%nat ->
  (List.length (users (w_db w)) < 10)%nat ->
  Database.usernameExists (trim s) (w_db w) = false ->
  token_in_use (uuidv4 E (w_uuid_calls w)) (w_db w) = false ->
  let (response, w') := auth_register E (mkRegisterBody (Some (JStr s))) w in
  response = registered (next_user_id (w_db w)) (trim s) (uuidv4 E (w_uuid_calls w))
                        (S (List.length (users (w_db w)))) /\
  status response = 200 /\
  spotsRemaining response
    = Some (JNum (10 - Z.of_nat (S (List.length (users (w_db w)))))) /\
  (exists now,
     users (w_db w') = users (w_db w) ++
       [mkUser (next_user_id (w_db w)) (trim s) (uuidv4 E (w_uuid_calls w)) now]) /\
  coffees (w_db w') = coffees (w_db w).
Proof.
  intros E w s Hlen Hcount Hfresh Hunused.
  rewrite auth_register_text, (long_name_nonempty s Hlen).
  apply Nat.ltb_ge in Hlen. rewrite Hlen. cbn [orb].
  unfold Database.getUserCount.
  apply Nat.leb_gt in Hcount. rewrite Hcount, Hfresh, Hunused.
  split; [reflexivity|]. split; [reflexivity|]. split; [reflexivity|].
  split; [|reflexivity]. eexists. reflexivity.
Qed.

Lemma registration_succeeds_holds :
  (2 <= String.length (trim " bob "))%nat /\
  (List.length (users (w_db with_alice)) < 10)%nat /\
  Database.usernameExists (trim " bob ") (w_db with_alice) = false /\
  token_in_use (uuidv4 local_env (w_uuid_calls with_alice)) (w_db with_alice) = false /\
  fst (auth_register local_env (mkRegisterBody (Some (JStr " bob "))) with_alice)
    = registered 2 "bob" (Reference.token_of 1) 2.
Proof.
  assert (H1 : (2 <= String.length (trim " bob "))%nat) by (vm_compute; lia).
  assert (H2 : (List.length (users (w_db with_alice)) < 10)%nat) by (vm_compute; lia).
  assert (H3 : Database.usernameExists (trim " bob ") (w_db with_alice) = false)
    by reflexivity.
  assert (H4 : token_in_use (uuidv4 local_env (w_uuid_calls with_alice))
                 (w_db with_alice) = false) by reflexivity.
  split; [exact H1|]. split; [exact H2|]. split; [exact H3|]. split; [exact H4|].
  pose proof (registration_succeeds local_env with_alice " bob " H1 H2 H3 H4) as H.
  destruct (auth_register local_env (mkRegisterBody (Some (JStr " bob "))) with_alice)
    as [response w'].
  destruct H as [H _]. exact H.
Defined.

(** X8. No request removes or changes a user: after any requests the users
    table is the earlier one with the newly registered users appended. *)
Theorem users_are_never_removed : forall (E : Env) (rs : list Request) (w : World),
  exists added,
    users (w_db (snd (serve E rs w))) = users (w_db w) ++ added.
Proof.
  intros E rs w. apply serve_users.
Qed.

(** X9. The listing query returns the user's rows, each once, newest
    first. *)
Theorem getUserCoffees_order : forall (userId : nat) (db : Db),
  Permutation (Database.getUserCoffees userId db)
              (filter (Database.owned_by userId) (coffees db)) /\
  Sorted not_older (Database.getUserCoffees userId db) /\
  (forall row, In row (Database.getUserCoffees userId db) <->
               In row (coffees db) /\ c_user_id row = userId).
Proof.
  intros userId db. unfold Database.getUserCoffees.
  split; [apply order_by_perm|]. split; [apply order_by_sorted|].
  intros row. split.
  - intros Hin.
    apply (Permutation_in _ (order_by_perm _)) in Hin.
    apply filter_In in Hin. destruct Hin as [Hin Howned].
    split; [assumption|]. now apply Nat.eqb_eq in Howned.
  - intros [Hin Howned].
    apply (Permutation_in _ (Permutation_sym (order_by_perm _))).
    apply filter_In. split; [assumption|]. now apply Nat.eqb_eq.
Qed.



Lemma NoDup_snoc : forall (A : Type) (l : list A) (x : A),
  NoDup l -> ~ In x l -> NoDup (l ++ [x]).
Proof.
  intros A l x Hl Hx. induction Hl as [|y l Hy Hl IH]; cbn.
  - constructor; [intros [] | constructor].
  - constructor.
    + intros Hin. apply in_app_or in Hin. destruct Hin as [Hin|[Heq|[]]].
      * now apply Hy.
      * apply Hx. now left.
    + apply IH. intros Hin. apply Hx. now right.
Qed.


Lemma enveloped_failure : forall code message,
  In code [400; 401; 403; 409; 500] -> message <> "" ->
  enveloped (failure code message).
Proof.
  intros code message Hcode Hm. unfold enveloped, failure. cbn [status body].
  split; [now right|]. split.
  - cbn in Hcode. cbn [prop assoc]. cbn.
    destruct Hcode as [<-|[<-|[<-|[<-|[<-|[]]]]]]; reflexivity.
  - intros _. exists message. split; [reflexivity | assumption].
Qed.

Lemma save_all_console : forall E userId items w,
  w_console (save_all E userId items w) = w_console w.
Proof.
  intros E userId items. unfold save_all.
  induction items as [|c rest IH]; intros w; cbn [fold_left]; [reflexivity|].
  rewrite IH. reflexivity.
Qed.

(** [GET /api/coffees] with the token of user [u]. *)
Lemma get_coffees_known : forall E t u w,
  t <> "" ->
  Database.getUserByToken t (w_db w) = Some u ->
  get_coffees E (Some t) w =
  match fst (parse_rows E (Database.getUserCoffees (u_id u) (w_db w)) w) with
  | Done parsed => (coffees_listed parsed, w)
  | Throws e => (server_error, console_error "Get coffees error:" e w)
  end.
Proof.
  intros E t u w Ht Hu. unfold get_coffees, try_catch, get_coffees_body.
  rewrite (token_given_nonempty t Ht). cbn [negb].
  unfold bind at 1, query at 1. rewrite Hu.
  unfold bind at 1, query at 1. unfold bind.
  pose proof (parse_rows_world E (Database.getUserCoffees (u_id u) (w_db w)) w) as Hw.
  destruct (parse_rows E _ w) as [[parsed|e] w1]; cbn [snd] in Hw; subst w1; reflexivity.
Qed.

Lemma get_coffees_unknown : forall E t w,
  Database.getUserByToken t (w_db w) = None ->
  get_coffees E (Some t) w = (if t =? "" then unauthorized else invalid_token, w).
Proof.
  intros E t w Hu. unfold get_coffees, try_catch, get_coffees_body.
  destruct (String.eqb_spec t "") as [->|Ht]; [reflexivity|].
  rewrite (token_given_nonempty t Ht). cbn [negb].
  unfold bind, query. now rewrite Hu.
Qed.

Lemma post_coffees_unknown : forall E t submitted w,
  Database.getUserByToken t (w_db w) = None ->
  post_coffees E (mkCoffeesBody (Some t) submitted) w
  = (if t =? "" then unauthorized else invalid_token, w).
Proof.
  intros E t submitted w Hu. unfold post_coffees, try_catch, post_coffees_body.
  cbn [cb_token cb_coffees].
  destruct (String.eqb_spec t "") as [->|Ht]; [reflexivity|].
  rewrite (token_given_nonempty t Ht). cbn [negb].
  unfold bind, query. now rewrite Hu.
Qed.

Lemma enveloped_200 : forall fields,
  enveloped (mkResponse 200 (JObj (("success", JBool true) :: fields))).
Proof.
  intros fields. unfold enveloped. cbn [status body]. split; [cbn; tauto|].
  split; [reflexivity|]. intros H. now elim H.
Qed.

Ltac break_match_in H :=
  match type of H with
  | context [match ?x with _ => _ end] =>
      lazymatch x with
      | context [match _ with _ => _ end] => fail
      | _ => destruct x eqn:?
      end
  end.

Ltac break_match_goal :=
  match goal with
  | |- context [match ?x with _ => _ end] =>
      lazymatch x with
      | context [match _ with _ => _ end] => fail
      | _ => destruct x eqn:?
      end
  end.

Ltac answer_failure :=
  left; split; [cbn; lia|]; split; [|reflexivity];
  apply enveloped_failure; [cbn; tauto | discriminate].

Ltac answer_200 :=
  left; split; [cbn; lia|]; split; [apply enveloped_200|].

Ltac answer_caught :=
  right; split; [reflexivity | eexists; reflexivity].

(** What a handler answers and logs: either it caught nothing, answers in
    the envelope with a status other than 500 and logs nothing, or it
    caught [e], answers its generic 500 and logs [e] under its label. *)
Lemma handle_outcome : forall E r w resp w',
  handle E r w = (resp, w') ->
  (status resp <> 500 /\ enveloped resp /\ w_console w' = w_console w) \/
  (resp = generic_answer r /\
   exists e, w_console w' = w_console w ++ [(error_label r, e)]).
Proof.
  intros E r w resp w' H.
  destruct r as [[v]|token|token|[token submitted]|[imageData mediaType]];
    cbn [handle error_label generic_answer] in *.
  - (* register *)
    destruct v as [j|].
    2:{ rewrite auth_register_other in H by discriminate. cbn [truthy] in H.
        injection H as <- <-. answer_failure. }
    destruct j as [ |b|n|s|items|props];
      try (rewrite auth_register_other in H by discriminate;
           destruct (truthy _); injection H as <- <-;
           [answer_caught | answer_failure]).
    rewrite auth_register_text in H.
    destruct ((s =? "") || (String.length (trim s) <? 2)%nat);
      [injection H as <- <-; answer_failure|].
    destruct (10 <=? Database.getUserCount (w_db w))%nat.
    { injection H as <- <-. left. split; [cbn; lia|]. split; [|reflexivity].
      unfold enveloped. cbn. split; [tauto|]. split; [reflexivity|].
      intros _. eexists. split; [reflexivity | discriminate]. }
    destruct (Database.usernameExists (trim s) (w_db w));
      [injection H as <- <-; answer_failure|].
    destruct (token_in_use (uuidv4 E (w_uuid_calls w)) (w_db w));
      injection H as <- <-; [answer_caught|].
    answer_200. reflexivity.
  - (* validate *)
    destruct token as [t|]; [|injection H as <- <-; answer_failure].
    destruct (String.eqb_spec t "") as [->|Ht]; [injection H as <- <-; answer_failure|].
    rewrite auth_validate_eq in H by assumption. injection H as <- <-.
    destruct (Database.getUserByToken t (w_db w)) as [u|].
    + answer_200. reflexivity.
    + left. split; [cbn; lia|]. split; [|reflexivity].
      unfold enveloped. cbn. split; [tauto|]. split; [reflexivity|].
      intros _. eexists. split; [reflexivity | discriminate].
  - (* list *)
    destruct token as [t|]; [|injection H as <- <-; answer_failure].
    destruct (Database.getUserByToken t (w_db w)) as [u|] eqn:Hu.
    + destruct (String.eqb_spec t "") as [->|Ht]; [injection H as <- <-; answer_failure|].
      rewrite (get_coffees_known E t u) in H by assumption.
      destruct (fst (parse_rows E _ w)); injection H as <- <-;
        [answer_200; reflexivity | answer_caught].
    + rewrite get_coffees_unknown in H by assumption.
      destruct (t =? ""); injection H as <- <-; answer_failure.
  - (* replace *)
    destruct token as [t|]; [|injection H as <- <-; answer_failure].
    destruct (Database.getUserByToken t (w_db w)) as [u|] eqn:Hu.
    + destruct (String.eqb_spec t "") as [->|Ht]; [injection H as <- <-; answer_failure|].
      rewrite (post_coffees_eq E t u) in H by assumption. cbv zeta in H.
      destruct submitted as [c|]; [|injection H as <- <-; answer_200; reflexivity].
      destruct (has_coffees E (Some c)) as [[]|];
        [|injection H as <- <-; answer_200; reflexivity
         |injection H as <- <-; answer_caught].
      destruct (iterate c); injection H as <- <-.
      * answer_200. now rewrite save_all_console.
      * answer_caught.
    + rewrite post_coffees_unknown in H by assumption.
      destruct (t =? ""); injection H as <- <-; answer_failure.
  - (* analyze *)
    destruct imageData as [img|]; [|injection H as <- <-; answer_failure].
    destruct (truthy (Some img)) eqn:Himg.
    + rewrite analyze_coffee_eq in H by assumption. cbv zeta in H.
      destruct (fetch E _ _) as [|[] [[]|]];
        try (injection H as <- <-; answer_caught);
        unfold try_catch in H; rewrite extract_and_respond_eq in H;
        repeat (break_match_in H; try (injection H as <- <-; answer_caught));
        injection H as <- <-; answer_200; reflexivity.
    + unfold analyze_coffee, try_catch, analyze_body in H. cbn [ab_imageData] in H.
      rewrite Himg in H. injection H as <- <-. answer_failure.
Qed.

(** X13. Every answer of the five handlers is in one envelope: the status
    is one of 200, 400, 401, 403, 409 and 500, the body carries [success],
    which is [true] exactly when the status is 200, and with any other
    status an [error] text that is not empty. The same holds of every
    answer in a run of requests. *)
Theorem responses_are_enveloped : forall (E : Env) (rs : list Request) (w : World),
  (forall r, enveloped (fst (handle E r w))) /\
  Forall enveloped (fst (serve E rs w)).
Proof.
  intros E rs w.
  assert (Hone : forall r w0, enveloped (fst (handle E r w0))).
  { intros r w0. destruct (handle E r w0) as [resp w'] eqn:H. cbn [fst].
    destruct (handle_outcome E r w0 resp w' H) as [(_ & Henv & _)|[-> _]];
      [assumption|].
    destruct r; apply enveloped_failure; cbn; try tauto; discriminate. }
  split; [intros r; apply Hone|].
  revert w. induction rs as [|r rest IH]; intros w; cbn [serve].
  - constructor.
  - specialize (Hone r w). destruct (handle E r w) as [resp w1].
    specialize (IH w1). destruct (serve E rest w1) as [resps w2].
    cbn [fst] in *. now constructor.
Qed.

(** X14. What a handler catches is logged and not sent: a request is
    answered with status 500 exactly when its handler caught an error, the
    answer is then the handler's fixed one, whatever was caught, and the
    error goes to the console, once, under the handler's label. A request
    answered with another status logs nothing. *)
Theorem errors_are_logged_not_sent : forall (E : Env) (r : Request) (w : World),
  let resp := fst (handle E r w) in
  let w' := snd (handle E r w) in
  (status resp = 500 ->
     resp = generic_answer r /\
     body resp = JObj [("success", JBool false);
                       ("error", JStr (match r with
                                       | PostAnalyze _ => "Analysis failed. Please try again."
                                       | _ => "Server error"
                                       end))] /\
     exists e, w_console w' = w_console w ++ [(error_label r, e)]) /\
  (status resp <> 500 -> w_console w' = w_console w) /\
  (w_console w' = w_console w -> status resp <> 500).
Proof.
  intros E r w. cbv zeta. destruct (handle E r w) as [resp w'] eqn:H. cbn [fst snd].
  destruct (handle_outcome E r w resp w' H) as [(Hs & _ & Hc)|[-> [e He]]].
  - split; [intros H500; now elim Hs|]. split; intros _; assumption.
  - split; [|split].
    + intros _. split; [reflexivity|]. split; [destruct r; reflexivity|].
      now exists e.
    + intros Hs. destruct r; now elim Hs.
    + intros Hsame. rewrite Hsame in He.
      apply (f_equal (@List.length _)) in He. rewrite length_app in He.
      cbn in He. lia.
Qed.

Lemma reachable_ids : forall E w,
  reachable E w -> NoDup (map u_id (users (w_db w))).
Proof.
  intros E w Hw. induction Hw as [|w r Hw IH].
  - constructor.
  - destruct r as [b|token|token|b|b]; cbn [handle].
    + destruct (auth_register_effect E b w)
        as [[Hdb _]|(s & _ & _ & _ & _ & _ & _ & Hw')].
      * now rewrite Hdb.
      * rewrite Hw'. cbn [after_registration set_db w_db with_user users].
        rewrite map_app. cbn [map u_id].
        apply NoDup_snoc; [assumption|]. intros Hin.
        pose proof (proj1 (list_max_le (map u_id (users (w_db w)))
                             (list_max (map u_id (users (w_db w)))))
                          (Nat.le_refl _)) as Hmax.
        rewrite Forall_forall in Hmax. apply Hmax in Hin.
        unfold next_user_id, Database.next_rowid in Hin. lia.
    + now rewrite auth_validate_db.
    + now rewrite get_coffees_db.
    + now rewrite post_coffees_users.
    + now rewrite analyze_coffee_db.
Qed.

Lemma getUserByToken_In : forall t db u,
  Database.getUserByToken t db = Some u -> In u (users db) /\ u_token u = t.
Proof.
  intros t db u H. unfold Database.getUserByToken in H.
  apply find_some in H. destruct H as [Hin Heq].
  split; [assumption | now apply String.eqb_eq].
Qed.

Lemma NoDup_map_eq : forall (A B : Type) (f : A -> B) (l : list A) (a b : A),
  NoDup (map f l) -> In a l -> In b l -> f a = f b -> a = b.
Proof.
  intros A B f l a b. induction l as [|x l IH]; cbn; intros Hnd Ha Hb Hf; [contradiction|].
  inversion Hnd as [|y l' Hx Hl]; subst.
  destruct Ha as [->|Ha], Hb as [->|Hb].
  - reflexivity.
  - elim Hx. rewrite Hf. now apply in_map.
  - elim Hx. rewrite <- Hf. now apply in_map.
  - now apply IH.
Qed.

Lemma parse_rows_fst : forall E rows w w0,
  fst (parse_rows E rows w) = fst (parse_rows E rows w0).
Proof.
  intros E rows w w0. induction rows as [|row rest IH]; cbn [parse_rows]; [reflexivity|].
  destruct (JSON_parse E (c_data row)); [|reflexivity].
  unfold bind.
  pose proof (parse_rows_world E rest w) as Hw.
  pose proof (parse_rows_world E rest w0) as Hw0.
  destruct (parse_rows E rest w) as [[more|e] w1],
           (parse_rows E rest w0) as [[more0|e0] w2];
    unfold ret; cbn [fst snd] in *; subst; try discriminate; congruence.
Qed.

Lemma filter_filter_implied : forall (A : Type) (p q : A -> bool) (l : list A),
  (forall x, p x = true -> q x = true) ->
  filter p (filter q l) = filter p l.
Proof.
  intros A p q l Hpq. induction l as [|x l IH]; [reflexivity|]. cbn [filter].
  destruct (q x) eqn:Hq; cbn [filter].
  - now rewrite IH.
  - destruct (p x) eqn:Hp; [|exact IH]. apply Hpq in Hp. congruence.
Qed.

Lemma filter_none : forall (A : Type) (p : A -> bool) (l : list A),
  (forall x, In x l -> p x = false) -> filter p l = [].
Proof.
  intros A p l H. induction l as [|x l IH]; [reflexivity|]. cbn [filter].
  rewrite (H x) by now left. apply IH. intros y Hy. apply H. now right.
Qed.

(** The rows of another user after a replace. *)
Lemma post_coffees_others : forall E t u submitted w other,
  t <> "" ->
  Database.getUserByToken t (w_db w) = Some u ->
  other <> u_id u ->
  filter (Database.owned_by other)
         (coffees (w_db (snd (post_coffees E (mkCoffeesBody (Some t) submitted) w))))
  = filter (Database.owned_by other) (coffees (w_db w)).
Proof.
  intros E t u submitted w other Ht Hu Hother.
  assert (Hdel : filter (Database.owned_by other)
                   (filter (fun c => negb (Database.owned_by (u_id u) c)) (coffees (w_db w)))
                 = filter (Database.owned_by other) (coffees (w_db w))).
  { apply filter_filter_implied. intros c Hc. unfold Database.owned_by in *.
    apply Nat.eqb_eq in Hc. apply negb_true_iff, Nat.eqb_neq. congruence. }
  rewrite (post_coffees_eq E t u) by assumption. cbv zeta.
  destruct submitted as [c|]; [|exact Hdel].
  destruct (has_coffees E (Some c)) as [[]|]; [|exact Hdel|exact Hdel].
  destruct (iterate c) as [items|]; [|exact Hdel].
  cbn [snd]. rewrite save_all_coffees, filter_app.
  unfold Database.deleteUserCoffees at 1. cbn [set_db w_db coffees].
  rewrite Hdel.
  rewrite (filter_none _ (Database.owned_by other) (inserted_rows _ _ _ _));
    [apply app_nil_r|].
  intros x Hx. rewrite <- (inserted_rows_owned E (u_id u) items) in Hx.
  apply filter_In in Hx. destruct Hx as [_ Hx]. unfold Database.owned_by in *.
  apply Nat.eqb_eq in Hx. apply Nat.eqb_neq. congruence.
Qed.

(** X15. One user's replace does not touch another user's list. In a
    reachable world, whatever the holder of one token posts to
    [POST /api/coffees], also a request that fails half way, the rows of
    the holder of another token are the same afterwards, and that user's
    [GET /api/coffees] answers as before. *)
Theorem replace_leaves_other_users :
  forall (E : Env) (w : World) (tA tB : string) (uA uB : UserRow) (submitted : value),
  reachable E w ->
  tA <> "" ->
  tA <> tB ->
  Database.getUserByToken tA (w_db w) = Some uA ->
  Database.getUserByToken tB (w_db w) = Some uB ->
  let w' := snd (post_coffees E (mkCoffeesBody (Some tA) submitted) w) in
  u_id uA <> u_id uB /\
  Database.getUserCoffees (u_id uB) (w_db w') = Database.getUserCoffees (u_id uB) (w_db w) /\
  fst (get_coffees E (Some tB) w') = fst (get_coffees E (Some tB) w).
Proof.
  intros E w tA tB uA uB submitted Hw HtA Hdiff HA HB. cbv zeta.
  destruct (getUserByToken_In _ _ _ HA) as [HinA HtokA].
  destruct (getUserByToken_In _ _ _ HB) as [HinB HtokB].
  assert (Hids : u_id uA <> u_id uB).
  { intros Heq. apply Hdiff. rewrite <- HtokA, <- HtokB. f_equal.
    exact (NoDup_map_eq _ _ u_id _ uA uB (reachable_ids E w Hw) HinA HinB Heq). }
  assert (Hrows : Database.getUserCoffees (u_id uB)
                    (w_db (snd (post_coffees E (mkCoffeesBody (Some tA) submitted) w)))
                  = Database.getUserCoffees (u_id uB) (w_db w)).
  { unfold Database.getUserCoffees.
    rewrite (post_coffees_others E tA uA) by (try assumption; congruence). reflexivity. }
  split; [assumption|]. split; [assumption|].
  destruct (String.eqb_spec tB "") as [->|HtB]; [reflexivity|].
  set (w' := snd (post_coffees E (mkCoffeesBody (Some tA) submitted) w)) in *.
  assert (HB' : Database.getUserByToken tB (w_db w') = Some uB).
  { rewrite <- HB. apply getUserByToken_users. apply post_coffees_users. }
  rewrite (get_coffees_known E tB uB w') by assumption.
  rewrite (get_coffees_known E tB uB w) by assumption.
  rewrite Hrows.
  rewrite (parse_rows_fst E _ w' w).
  destruct (fst (parse_rows E _ w)); reflexivity.
Qed.

Lemma replace_leaves_other_users_holds :
  reachable local_env two_users /\
  Database.getUserByToken alice_token (w_db two_users)
    = Some (mkUser 1 "alice" alice_token 0) /\
  Database.getUserByToken bob_token (w_db two_users) = Some (mkUser 2 "bob" bob_token 0) /\
  List.length (Database.getUserCoffees 2 (w_db two_users)) = 1 /\
  (let w' := snd (post_coffees local_env
                    (mkCoffeesBody (Some alice_token) (Some (JObj [("length", JNum 1)])))
                    two_users) in
   1 <> 2 /\
   Database.getUserCoffees 2 (w_db w') = Database.getUserCoffees 2 (w_db two_users) /\
   fst (get_coffees local_env (Some bob_token) w')
     = fst (get_coffees local_env (Some bob_token) two_users)).
Proof.
  assert (Hreach : reachable local_env two_users).
  { unfold two_users. apply reachable_serve.
    unfold with_two_coffees.
    apply (reachable_step local_env _ (PostCoffees _)).
    unfold with_alice. apply reachable_serve. constructor. }
  split; [exact Hreach|]. split; [reflexivity|]. split; [reflexivity|].
  split; [reflexivity|].
  apply (replace_leaves_other_users local_env two_users alice_token bob_token
           (mkUser 1 "alice" alice_token 0) (mkUser 2 "bob" bob_token 0)
           (Some (JObj [("length", JNum 1)])) Hreach).
  - discriminate.
  - discriminate.
  - reflexivity.
  - reflexivity.
Defined.

(** *** [trim] *)

Lemma trimStart_length : forall s, (String.length (trimStart s) <= String.length s)%nat.
Proof.
  induction s as [|c r IH]; cbn [trimStart]; [apply Nat.le_refl|].
  destruct (is_space c); cbn [String.length]; lia.
Qed.

Lemma trimStart_idempotent : forall s, trimStart (trimStart s) = trimStart s.
Proof.
  induction s as [|c r IH]; [reflexivity|]. cbn [trimStart].
  destruct (is_space c) eqn:Hc; [exact IH|]. cbn [trimStart]. now rewrite Hc.
Qed.

Lemma trimEnd_idempotent : forall s, trimEnd (trimEnd s) = trimEnd s.
Proof.
  induction s as [|c r IH]; [reflexivity|]. cbn [trimEnd].
  destruct (is_space c && (trimEnd r =? "")) eqn:Hc; [reflexivity|].
  cbn [trimEnd]. now rewrite IH, Hc.
Qed.

Lemma trimStart_trimEnd : forall s,
  trimStart s = s -> trimStart (trimEnd s) = trimEnd s.
Proof.
  intros [|c r] Hs; [reflexivity|]. cbn [trimStart] in Hs.
  destruct (is_space c) eqn:Hc.
  - pose proof (trimStart_length r) as Hlen. rewrite Hs in Hlen.
    cbn [String.length] in Hlen. lia.
  - cbn [trimEnd]. rewrite Hc. cbn [andb trimStart]. now rewrite Hc.
Qed.

Lemma trim_idempotent : forall s, trim (trim s) = trim s.
Proof.
  intros s. unfold trim.
  rewrite (trimStart_trimEnd (trimStart s)) by apply trimStart_idempotent.
  apply trimEnd_idempotent.
Qed.

(** X16. A stored username is the trimmed text of at least two characters:
    in every reachable world each user's name is unchanged by [trim], so it
    neither starts nor ends with white space, and has two characters or
    more. *)
Theorem usernames_are_trimmed : forall (E : Env) (w : World) (u : UserRow),
  reachable E w ->
  In u (users (w_db w)) ->
  trim (u_username u) = u_username u /\
  trimStart (u_username u) = u_username u /\
  trimEnd (u_username u) = u_username u /\
  (2 <= String.length (u_username u))%nat.
Proof.
  intros E w u Hw. revert u.
  assert (Hall : forall u, In u (users (w_db w)) -> trim (u_username u) = u_username u).
  { induction Hw as [|w r Hw IH]; [intros u []|].
    destruct r as [b|token|token|b|b]; cbn [handle].
    - destruct (auth_register_effect E b w)
        as [[Hdb _]|(s & _ & _ & _ & _ & _ & _ & Hw')].
      + now rewrite Hdb.
      + rewrite Hw'. cbn [after_registration set_db w_db with_user users].
        intros u Hin. apply in_app_or in Hin. destruct Hin as [Hin|[<-|[]]].
        * now apply IH.
        * cbn [u_username]. apply trim_idempotent.
    - now rewrite auth_validate_db.
    - now rewrite get_coffees_db.
    - now rewrite post_coffees_users.
    - now rewrite analyze_coffee_db. }
  intros u Hin. pose proof (Hall u Hin) as Htrim.
  split; [assumption|].
  assert (Hstart : trimStart (u_username u) = u_username u).
  { rewrite <- Htrim at 1 2. unfold trim.
    apply trimStart_trimEnd, trimStart_idempotent. }
  split; [assumption|]. split.
  - rewrite <- Htrim at 1 2. unfold trim. apply trimEnd_idempotent.
  - destruct (reachable_users E w Hw) as [_ Hlen]. rewrite Forall_forall in Hlen.
    now apply Hlen.
Qed.

Lemma usernames_are_trimmed_holds :
  let w := snd (handle local_env (register_request "   bob ") with_alice) in
  reachable local_env w /\
  In (mkUser 2 "bob" bob_token 0) (users (w_db w)) /\
  trim "bob" = "bob" /\ trimStart "bob" = "bob" /\ trimEnd "bob" = "bob" /\
  (2 <= String.length "bob")%nat.
Proof.
  cbv zeta.
  assert (Hreach : reachable local_env
                     (snd (handle local_env (register_request "   bob ") with_alice))).
  { apply reachable_step. unfold with_alice. apply reachable_serve. constructor. }
  split; [exact Hreach|].
  assert (Hin : In (mkUser 2 "bob" bob_token 0)
                   (users (w_db (snd (handle local_env (register_request "   bob ")
                                        with_alice))))).
  { right. left. reflexivity. }
  split; [exact Hin|].
  exact (usernames_are_trimmed local_env _ (mkUser 2 "bob" bob_token 0) Hreach Hin).
Defined.

Lemma saved_count_text : forall s,
  saved_count (Some (JStr s)) = JNum (Z.of_nat (String.length s)).
Proof.
  intros s. unfold saved_count, prop. 
  replace ("length" =? "length") with true by reflexivity.
  unfold or_else, truthy. destruct (String.length s); reflexivity.
Qed.

Lemma has_coffees_text : forall E s,
  has_coffees E (Some (JStr s)) = Some (negb (s =? "")).
Proof.
  intros E s. unfold has_coffees, prop, truthy.
  replace ("length" =? "length") with true by reflexivity.
  destruct s; reflexivity.
Qed.

Lemma has_coffees_object : forall E props,
  has_coffees E (Some (JObj props)) = gt_zero E (assoc "length" props).
Proof. reflexivity. Qed.

Lemma has_coffees_scalar : forall E,
  has_coffees E (Some JNull) = Some false /\
  (forall b, has_coffees E (Some (JBool b)) = Some false) /\
  (forall n, has_coffees E (Some (JNum n)) = Some false).
Proof.
  intros E. split; [reflexivity|]. split; intros x; unfold has_coffees, prop, gt_zero, truthy.
  - destruct x; reflexivity.
  - destruct (negb (x =? 0)%Z); reflexivity.
Qed.

(** X17. With a valid token [POST /api/coffees] answers 200 or 500, and 500
    exactly when [coffees] is an object, not an array, on whose [length]
    the comparison with zero is true or throws: the handler has then
    deleted the list and either finds nothing to iterate or has failed in
    the comparison. The comparison throws exactly on a [length] whose
    conversion to text throws, such as an object with a [toString]
    property of its own; on an object without one it is false, and on a
    number it is the number's sign. In every case the user's rows
    afterwards are one per element of what was posted, when that is an
    array, one per character when it is a text, and none for any other
    value. *)
Theorem replace_outcomes :
  forall (E : Env) (t : string) (u : UserRow) (submitted : value) (w : World),
  t <> "" ->
  Database.getUserByToken t (w_db w) = Some u ->
  let resp := fst (post_coffees E (mkCoffeesBody (Some t) submitted) w) in
  let w' := snd (post_coffees E (mkCoffeesBody (Some t) submitted) w) in
  let stored :=
    match submitted with
    | Some (JArr items) => items
    | Some (JStr s) => map JStr (chars s)
    | _ => []
    end in
  (status resp = 500 <->
   exists props, submitted = Some (JObj props) /\
                 (gt_zero E (assoc "length" props) = Some true \/
                  gt_zero E (assoc "length" props) = None)) /\
  (forall inner, gt_zero E (Some (JObj inner)) <> Some true /\
                 (gt_zero E (Some (JObj inner)) = None <->
                  assoc "toString" inner <> None)) /\
  (forall items, gt_zero E (Some (JArr items)) = None <->
                 to_String (JArr items) = None) /\
  (forall n, gt_zero E (Some (JNum n)) = Some (0 <? n)%Z) /\
  (status resp <> 500 -> resp = coffees_saved (saved_count submitted)) /\
  map c_data (filter (Database.owned_by (u_id u)) (coffees (w_db w')))
    = map (JSON_stringify E) stored /\
  (forall items, submitted = Some (JArr items) ->
     resp = coffees_saved (JNum (Z.of_nat (List.length items)))) /\
  (forall s, submitted = Some (JStr s) ->
     resp = coffees_saved (JNum (Z.of_nat (String.length s)))).
Proof.
  intros E t u submitted w Ht Hu. cbv zeta.
  rewrite (post_coffees_eq E t u) by assumption. cbv zeta.
  assert (Hobject : forall inner,
            gt_zero E (Some (JObj inner)) <> Some true /\
            (gt_zero E (Some (JObj inner)) = None <-> assoc "toString" inner <> None)).
  { intros inner. unfold gt_zero. cbn [to_String].
    destruct (assoc "toString" inner); split; try discriminate;
      split; try discriminate; intros H; try reflexivity; now elim H. }
  assert (Harray : forall items,
            gt_zero E (Some (JArr items)) = None <-> to_String (JArr items) = None).
  { intros items. unfold gt_zero.
    destruct (to_String (JArr items)); cbn [option_map]; split; (discriminate || reflexivity). }
  assert (Hnone : map c_data
                    (filter (Database.owned_by (u_id u))
                       (coffees (w_db (set_db (Database.deleteUserCoffees (u_id u) (w_db w)) w))))
                  = []).
  { cbn [set_db w_db Database.deleteUserCoffees coffees].
    now rewrite filter_owned_deleted. }
  assert (Hsome : forall items,
            map c_data
              (filter (Database.owned_by (u_id u))
                 (coffees (w_db (save_all E (u_id u) items
                                   (set_db (Database.deleteUserCoffees (u_id u) (w_db w)) w)))))
            = map (JSON_stringify E) items).
  { intros items. rewrite save_all_coffees, filter_app, inserted_rows_owned, map_app.
    rewrite Hnone. cbn [app]. apply inserted_rows_data. }
  assert (Hnot : forall P : list (string * json) -> Prop,
            forall v, (forall props, v <> Some (JObj props)) ->
            (status (coffees_saved (saved_count v)) = 500 <->
             exists props, v = Some (JObj props) /\ P props)).
  { intros P v Hv. split; [discriminate|]. intros (props & H & _). now elim (Hv props). }
  destruct submitted as [[ |b|n|s|items|props]|].
  - (* null *)
    cbn [has_coffees truthy fst snd].
    split; [apply Hnot; discriminate|].
    split; [exact Hobject|]. split; [exact Harray|]. split; [reflexivity|].
    split; [reflexivity|]. split; [exact Hnone|]. split; intros ? H; discriminate.
  - (* a boolean *)
    rewrite (proj1 (proj2 (has_coffees_scalar E))). cbn [fst snd].
    split; [apply Hnot; discriminate|].
    split; [exact Hobject|]. split; [exact Harray|]. split; [reflexivity|].
    split; [reflexivity|]. split; [exact Hnone|]. split; intros ? H; discriminate.
  - (* a number *)
    rewrite (proj2 (proj2 (has_coffees_scalar E))). cbn [fst snd].
    split; [apply Hnot; discriminate|].
    split; [exact Hobject|]. split; [exact Harray|]. split; [reflexivity|].
    split; [reflexivity|]. split; [exact Hnone|]. split; intros ? H; discriminate.
  - (* a text *)
    rewrite has_coffees_text. cbn [iterate].
    destruct s as [|c r]; cbn [String.eqb negb fst snd chars map].
    + split; [apply Hnot; discriminate|].
      split; [exact Hobject|]. split; [exact Harray|]. split; [reflexivity|].
      split; [reflexivity|]. split; [exact Hnone|].
      split; intros ? H; [discriminate|]. injection H as <-. reflexivity.
    + split; [apply Hnot; discriminate|].
      split; [exact Hobject|]. split; [exact Harray|]. split; [reflexivity|].
      split; [reflexivity|]. split; [apply (Hsome (map JStr (chars (String c r))))|].
      split; intros ? H; [discriminate|]. injection H as <-.
      now rewrite saved_count_text.
  - (* an array *)
    rewrite has_coffees_array. cbn [iterate].
    destruct items as [|x items]; cbn [List.length Nat.eqb negb fst snd].
    + split; [apply Hnot; discriminate|].
      split; [exact Hobject|]. split; [exact Harray|]. split; [reflexivity|].
      split; [reflexivity|]. split; [exact Hnone|].
      split; intros ? H; [|discriminate]. injection H as <-. reflexivity.
    + split; [apply Hnot; discriminate|].
      split; [exact Hobject|]. split; [exact Harray|]. split; [reflexivity|].
      split; [reflexivity|]. split; [apply Hsome|].
      split; intros ? H; [|discriminate]. injection H as <-.
      now rewrite saved_count_array.
  - (* an object *)
    rewrite has_coffees_object. cbn [iterate].
    destruct (gt_zero E (assoc "length" props)) as [[]|] eqn:Hlen; cbn [fst snd].
    + split; [split; [intros _; exists props; split; [reflexivity | now left]
                     | reflexivity]|].
      split; [exact Hobject|]. split; [exact Harray|]. split; [reflexivity|].
      split; [intros H; now elim H|]. split; [exact Hnone|].
      split; intros ? H; discriminate.
    + split; [split; [discriminate | intros (props' & H & [Hgt|Hgt])]|].
      { injection H as <-. congruence. }
      { injection H as <-. congruence. }
      split; [exact Hobject|]. split; [exact Harray|]. split; [reflexivity|].
      split; [reflexivity|]. split; [exact Hnone|]. split; intros ? H; discriminate.
    + split; [split; [intros _; exists props; split; [reflexivity | now right]
                     | reflexivity]|].
      split; [exact Hobject|]. split; [exact Harray|]. split; [reflexivity|].
      split; [intros H; now elim H|]. split; [exact Hnone|].
      split; intros ? H; discriminate.
  - (* absent *)
    cbn [fst snd].
    split; [apply (Hnot _ None); discriminate|].
    split; [exact Hobject|]. split; [exact Harray|]. split; [reflexivity|].
    split; [reflexivity|]. split; [exact Hnone|]. split; intros ? H; discriminate.
Qed.

Lemma replace_outcomes_holds :
  alice_token <> "" /\
  Database.getUserByToken alice_token (w_db with_two_coffees)
    = Some (mkUser 1 "alice" alice_token 0) /\
  (let submitted := Some (JObj [("length", JObj [("toString", JNum 1)])]) in
   let resp := fst (post_coffees local_env (mkCoffeesBody (Some alice_token) submitted)
                      with_two_coffees) in
   let w' := snd (post_coffees local_env (mkCoffeesBody (Some alice_token) submitted)
                    with_two_coffees) in
   (status resp = 500 <->
    exists props, submitted = Some (JObj props) /\
                  (gt_zero local_env (assoc "length" props) = Some true \/
                   gt_zero local_env (assoc "length" props) = None)) /\
   (forall inner, gt_zero local_env (Some (JObj inner)) <> Some true /\
                  (gt_zero local_env (Some (JObj inner)) = None <->
                   assoc "toString" inner <> None)) /\
   (forall items, gt_zero local_env (Some (JArr items)) = None <->
                  to_String (JArr items) = None) /\
   (forall n, gt_zero local_env (Some (JNum n)) = Some (0 <? n)%Z) /\
   (status resp <> 500 -> resp = coffees_saved (saved_count submitted)) /\
   map c_data (filter (Database.owned_by 1) (coffees (w_db w')))
     = map (JSON_stringify local_env) [] /\
   (forall items, submitted = Some (JArr items) ->
      resp = coffees_saved (JNum (Z.of_nat (List.length items)))) /\
   (forall s, submitted = Some (JStr s) ->
      resp = coffees_saved (JNum (Z.of_nat (String.length s))))).
Proof.
  split; [discriminate|]. split; [reflexivity|].
  apply (replace_outcomes local_env alice_token (mkUser 1 "alice" alice_token 0)
           (Some (JObj [("length", JObj [("toString", JNum 1)])])) with_two_coffees).
  - discriminate.
  - reflexivity.
Defined.

(** X17 at work: a [length] that cannot be compared, one that is positive,
    and a text. Alice has two coffees stored; the first two requests are
    answered 500 and leave her list empty, the third stores one row per
    character. *)
Example replace_with_odd_lists :
  let post submitted :=
    post_coffees local_env (mkCoffeesBody (Some alice_token) (Some submitted))
                 with_two_coffees in
  let uncomparable := JObj [("length", JObj [("toString", JNum 1)])] in
  let positive := JObj [("length", JNum 1)] in
  fst (post uncomparable) = server_error /\
  w_console (snd (post uncomparable)) = [("Save coffees error:", TypeError)] /\
  Database.getUserCoffees 1 (w_db (snd (post uncomparable))) = [] /\
  fst (post positive) = server_error /\
  Database.getUserCoffees 1 (w_db (snd (post positive))) = [] /\
  fst (post (JObj [("length", JObj [])])) = coffees_saved (JObj []) /\
  fst (post (JStr "ab")) = coffees_saved (JNum 2) /\
  List.length (Database.getUserCoffees 1 (w_db (snd (post (JStr "ab"))))) = 2.
Proof. cbv zeta. repeat split; reflexivity. Qed.

(** *** Stored coffee data *)

Lemma parse_rows_throws : forall E rows w,
  (exists parsed, fst (parse_rows E rows w) = Done parsed /\
                  forall row, In row rows -> JSON_parse E (c_data row) <> None) \/
  (fst (parse_rows E rows w) = Throws SyntaxError /\
   exists row, In row rows /\ JSON_parse E (c_data row) = None).
Proof.
  intros E rows w. induction rows as [|row rest IH]; cbn [parse_rows].
  - left. exists []. split; [reflexivity|]. intros row [].
  - destruct (JSON_parse E (c_data row)) as [parsed|] eqn:Hrow.
    + unfold bind.
      destruct IH as [(more & Hmore & Hall)|[Hthrow (bad & Hin & Hbad)]];
        destruct (parse_rows E rest w) as [[more'|e] w1]; cbn [fst] in *;
        try discriminate.
      * left. eexists. split; [reflexivity|].
        intros r [<-|Hr]; [congruence | now apply Hall].
      * right. split; [assumption|]. exists bad. split; [now right | assumption].
    + right. split; [reflexivity|]. exists row. split; [now left | assumption].
Qed.

(** Every stored row holds the [JSON.stringify] text of a posted coffee. *)
Lemma reachable_coffee_data : forall E w,
  reachable E w ->
  Forall (fun c => exists coffee, c_data c = JSON_stringify E coffee) (coffees (w_db w)).
Proof.
  intros E w Hw. induction Hw as [|w r Hw IH]; [constructor|].
  destruct r as [b|token|token|[token submitted]|b]; cbn [handle].
  - destruct (auth_register_effect E b w)
      as [[Hdb _]|(s & _ & _ & _ & _ & _ & _ & Hw')].
    + now rewrite Hdb.
    + rewrite Hw'. exact IH.
  - now rewrite auth_validate_db.
  - now rewrite get_coffees_db.
  - destruct token as [t|]; [|exact IH].
    destruct (Database.getUserByToken t (w_db w)) as [u|] eqn:Hu.
    2:{ rewrite post_coffees_unknown by assumption. exact IH. }
    destruct (String.eqb_spec t "") as [->|Ht]; [exact IH|].
    rewrite (post_coffees_eq E t u) by assumption. cbv zeta.
    assert (Hdel : Forall (fun c => exists coffee, c_data c = JSON_stringify E coffee)
                     (coffees (w_db (set_db (Database.deleteUserCoffees (u_id u) (w_db w)) w)))).
    { cbn [set_db w_db Database.deleteUserCoffees coffees].
      rewrite Forall_forall in *. intros c Hc. apply filter_In in Hc. now apply IH. }
    destruct submitted as [c|]; [|exact Hdel].
    destruct (has_coffees E (Some c)) as [[]|]; [|exact Hdel|exact Hdel].
    destruct (iterate c) as [items|]; [|exact Hdel].
    cbn [snd]. rewrite save_all_coffees. apply Forall_app. split; [exact Hdel|].
    rewrite Forall_forall. intros row Hrow.
    apply (in_map c_data) in Hrow. rewrite inserted_rows_data in Hrow.
    apply in_map_iff in Hrow. destruct Hrow as (coffee & Heq & _). now exists coffee.
  - now rewrite analyze_coffee_db.
Qed.

(** X18. With a valid token [GET /api/coffees] changes nothing in the
    database and answers 200 or 500, and 500 exactly when one of the user's
    rows holds a text that [JSON.parse] rejects. In a reachable world such
    a text is the [JSON.stringify] of a posted coffee: where every text
    that [JSON.stringify] writes reads back, the listing never fails. *)
Theorem listing_outcomes :
  forall (E : Env) (w : World) (t : string) (u : UserRow),
  reachable E w ->
  t <> "" ->
  Database.getUserByToken t (w_db w) = Some u ->
  let rows := Database.getUserCoffees (u_id u) (w_db w) in
  let resp := fst (get_coffees E (Some t) w) in
  let w' := snd (get_coffees E (Some t) w) in
  w_db w' = w_db w /\
  (status resp = 200 \/ status resp = 500) /\
  (status resp = 500 <-> exists row, In row rows /\ JSON_parse E (c_data row) = None) /\
  (status resp = 500 ->
     exists coffee, In (JSON_stringify E coffee) (map c_data rows) /\
                    JSON_parse E (JSON_stringify E coffee) = None) /\
  ((forall coffee, JSON_parse E (JSON_stringify E coffee) <> None) ->
     resp = coffees_listed (map (row_record E) rows) /\ w' = w).
Proof.
  intros E w t u Hw Ht Hu. cbv zeta.
  split; [apply get_coffees_db|].
  assert (Hdata : forall row, In row (Database.getUserCoffees (u_id u) (w_db w)) ->
                    exists coffee, c_data row = JSON_stringify E coffee).
  { intros row Hrow. unfold Database.getUserCoffees in Hrow.
    apply (Permutation_in _ (order_by_perm _)) in Hrow. apply filter_In in Hrow.
    pose proof (reachable_coffee_data E w Hw) as Hall. rewrite Forall_forall in Hall.
    now apply Hall. }
  assert (H500 : status (fst (get_coffees E (Some t) w)) = 500 ->
                 exists row, In row (Database.getUserCoffees (u_id u) (w_db w)) /\
                             JSON_parse E (c_data row) = None).
  { rewrite (get_coffees_known E t u) by assumption.
    destruct (parse_rows_throws E (Database.getUserCoffees (u_id u) (w_db w)) w)
      as [(parsed & -> & _)|[-> Hbad]]; [discriminate | intros _; exact Hbad]. }
  split; [|split; [split; [exact H500|]|split]].
  - rewrite (get_coffees_known E t u) by assumption.
    destruct (fst (parse_rows E _ w)); [now left | now right].
  - intros (row & Hin & Hbad).
    rewrite (get_coffees_known E t u) by assumption.
    destruct (parse_rows_throws E (Database.getUserCoffees (u_id u) (w_db w)) w)
      as [(parsed & _ & Hall)|[-> _]]; [now elim (Hall row Hin) | reflexivity].
  - intros Hs. destruct (H500 Hs) as (row & Hin & Hbad).
    destruct (Hdata row Hin) as [coffee Hcoffee]. exists coffee. split.
    + rewrite <- Hcoffee. now apply in_map.
    + now rewrite <- Hcoffee.
  - intros Hround. rewrite (get_coffees_eq E t u); [now split | assumption | assumption |].
    intros row Hin. destruct (Hdata row Hin) as [coffee ->]. apply Hround.
Qed.

Lemma listing_outcomes_holds :
  reachable local_env two_users /\
  bob_token <> "" /\
  Database.getUserByToken bob_token (w_db two_users) = Some (mkUser 2 "bob" bob_token 0) /\
  (let rows := Database.getUserCoffees 2 (w_db two_users) in
   let resp := fst (get_coffees local_env (Some bob_token) two_users) in
   let w' := snd (get_coffees local_env (Some bob_token) two_users) in
   w_db w' = w_db two_users /\
   (status resp = 200 \/ status resp = 500) /\
   (status resp = 500 <->
    exists row, In row rows /\ JSON_parse local_env (c_data row) = None) /\
   (status resp = 500 ->
      exists coffee, In (JSON_stringify local_env coffee) (map c_data rows) /\
                     JSON_parse local_env (JSON_stringify local_env coffee) = None) /\
   ((forall coffee, JSON_parse local_env (JSON_stringify local_env coffee) <> None) ->
      resp = coffees_listed (map (row_record local_env) rows) /\ w' = two_users)).
Proof.
  assert (Hreach : reachable local_env two_users).
  { unfold two_users. apply reachable_serve.
    unfold with_two_coffees.
    apply (reachable_step local_env _ (PostCoffees _)).
    unfold with_alice. apply reachable_serve. constructor. }
  split; [exact Hreach|]. split; [discriminate|]. split; [reflexivity|].
  apply (listing_outcomes local_env two_users bob_token (mkUser 2 "bob" bob_token 0) Hreach).
  - discriminate.
  - reflexivity.
Defined.

(** X19. [POST /api/analyze-coffee] calls the external service at most
    once: not at all when [imageData] is absent or falsy, which is answered
    400, and exactly once otherwise, with the image as posted and the
    posted media type, or ["image/jpeg"] when that is absent or falsy.
    Whatever comes back, the handler leaves the database alone and draws no
    token; it reads the clock once, for [addedDate], exactly when it
    answers 200. *)
Theorem analyze_calls_upstream_once :
  forall (E : Env) (b : AnalyzeBody) (w : World),
  let resp := fst (analyze_coffee E b w) in
  let w' := snd (analyze_coffee E b w) in
  w_outbound w'
    = w_outbound w ++
      match ab_imageData b with
      | Some imageData =>
          if truthy (Some imageData)
          then [mkOut (if truthy (ab_mediaType b)
                       then match ab_mediaType b with Some m => m | None => JNull end
                       else JStr "image/jpeg")
                      imageData]
          else []
      | None => []
      end /\
  (status resp = 400 <-> truthy (ab_imageData b) = false) /\
  (status resp = 400 -> resp = image_data_required /\ w' = w) /\
  w_db w' = w_db w /\
  w_uuid_calls w' = w_uuid_calls w /\
  w_clock_reads w' = (w_clock_reads w + (if (status resp =? 200)%nat then 1 else 0))%nat.
Proof.
  intros E [imageData mediaType] w. cbv zeta. cbn [ab_imageData ab_mediaType].
  destruct imageData as [img|].
  { destruct (truthy (Some img)) eqn:Himg.
    - assert (Hreq : upstream_request img mediaType
                     = mkOut (if truthy mediaType
                              then match mediaType with Some m => m | None => JNull end
                              else JStr "image/jpeg") img).
      { unfold upstream_request, or_else. destruct mediaType as [m|]; [|reflexivity].
        reflexivity. }
      rewrite <- Hreq. rewrite analyze_coffee_eq by assumption. cbv zeta.
      destruct (fetch E _ _) as [|[] [[]|]];
        try (cbn [fst snd console_error after_upstream_call w_outbound w_db w_uuid_calls
                  w_clock_reads analysis_failed failure status Nat.eqb];
             rewrite Nat.add_0_r;
             repeat split; try discriminate; reflexivity);
        unfold try_catch; rewrite extract_and_respond_eq;
        repeat (break_match_goal;
                try (cbn [fst snd console_error after_upstream_call after_clock_reading
                          w_outbound w_db w_uuid_calls
                          w_clock_reads analysis_failed failure analyzed status Nat.eqb];
                     rewrite ?Nat.add_0_r, ?Nat.add_1_r;
                     repeat split; try discriminate; reflexivity)).
    - unfold analyze_coffee, try_catch, analyze_body. cbn [ab_imageData].
      rewrite Himg. cbn [negb ret fst snd image_data_required failure status Nat.eqb].
      rewrite app_nil_r, Nat.add_0_r. repeat split; reflexivity. }
  cbn [analyze_coffee try_catch analyze_body ab_imageData ret fst snd truthy
       image_data_required failure status Nat.eqb].
  rewrite app_nil_r, Nat.add_0_r. repeat split; reflexivity.
Qed.

(** *** Row ids *)

Lemma NoDup_map_filter : forall (A B : Type) (f : A -> B) (p : A -> bool) (l : list A),
  NoDup (map f l) -> NoDup (map f (filter p l)).
Proof.
  intros A B f p l. induction l as [|x l IH]; cbn [map filter]; intros H; [constructor|].
  inversion H as [|y l' Hx Hl]; subst.
  destruct (p x); cbn [map]; [|now apply IH].
  constructor; [|now apply IH].
  intros Hin. apply Hx. apply in_map_iff in Hin. destruct Hin as (z & Hz & Hin).
  apply filter_In in Hin. rewrite <- Hz. apply in_map. tauto.
Qed.

Lemma list_max_bound : forall l n, Forall (fun x => x <= n) l -> list_max l <= n.
Proof. intros l n H. now apply list_max_le. Qed.

(** One [INSERT INTO coffees] on a table whose ids are distinct and not
    above the sequence: the new id is the sequence plus one. *)
Lemma save_one_ids : forall E userId coffee w,
  NoDup (map c_id (coffees (w_db w))) ->
  Forall (fun c => c_id c <= coffees_seq (w_db w)) (coffees (w_db w)) ->
  let w' := save_one E userId coffee w in
  coffees_seq (w_db w') = S (coffees_seq (w_db w)) /\
  (exists row, coffees (w_db w') = coffees (w_db w) ++ [row] /\
               c_id row = S (coffees_seq (w_db w))) /\
  NoDup (map c_id (coffees (w_db w'))) /\
  Forall (fun c => c_id c <= coffees_seq (w_db w')) (coffees (w_db w')).
Proof.
  intros E userId coffee w Hnd Hle. cbv zeta.
  assert (Hnext : Database.next_rowid (coffees_seq (w_db w)) (map c_id (coffees (w_db w)))
                  = S (coffees_seq (w_db w))).
  { unfold Database.next_rowid. f_equal. apply Nat.max_l. apply list_max_bound.
    rewrite Forall_map. exact Hle. }
  unfold save_one, Database.saveCoffee.
  cbn [fst set_db w_db after_clock_reading coffees coffees_seq].
  rewrite Hnext. split; [reflexivity|]. split; [eexists; split; reflexivity|]. split.
  - rewrite map_app. cbn [map c_id]. apply NoDup_snoc; [assumption|].
    intros Hin. apply in_map_iff in Hin. destruct Hin as (c & Hc & Hin).
    rewrite Forall_forall in Hle. apply Hle in Hin. lia.
  - apply Forall_app. split.
    + rewrite Forall_forall in *. intros c Hc. apply Hle in Hc. lia.
    + constructor; [cbn; lia | constructor].
Qed.

Lemma save_all_ids : forall E userId items w,
  NoDup (map c_id (coffees (w_db w))) ->
  Forall (fun c => c_id c <= coffees_seq (w_db w)) (coffees (w_db w)) ->
  let w' := save_all E userId items w in
  coffees_seq (w_db w') = coffees_seq (w_db w) + List.length items /\
  NoDup (map c_id (coffees (w_db w'))) /\
  Forall (fun c => c_id c <= coffees_seq (w_db w')) (coffees (w_db w')) /\
  (forall c, In c (coffees (w_db w')) ->
     In c (coffees (w_db w)) \/ coffees_seq (w_db w) < c_id c).
Proof.
  intros E userId items. unfold save_all.
  induction items as [|coffee rest IH]; intros w Hnd Hle; cbv zeta; cbn [fold_left].
  - rewrite Nat.add_0_r. repeat split; try assumption. intros c Hc. now left.
  - destruct (save_one_ids E userId coffee w Hnd Hle)
      as (Hseq & (row & Hrows & Hrow) & Hnd1 & Hle1).
    destruct (IH _ Hnd1 Hle1) as (Hseq2 & Hnd2 & Hle2 & Hnew).
    split; [|split; [assumption|split; [assumption|]]].
    + rewrite Hseq2, Hseq. cbn [List.length]. lia.
    + intros c Hc. destruct (Hnew c Hc) as [Hold|Hgt].
      * rewrite Hrows in Hold. apply in_app_or in Hold.
        destruct Hold as [Hold|[<-|[]]]; [now left | right; lia].
      * right. rewrite Hseq in Hgt. lia.
Qed.

(** What a request does to the ids of [coffees]. *)
Lemma handle_coffee_ids : forall E r w,
  NoDup (map c_id (coffees (w_db w))) ->
  Forall (fun c => c_id c <= coffees_seq (w_db w)) (coffees (w_db w)) ->
  let w' := snd (handle E r w) in
  coffees_seq (w_db w) <= coffees_seq (w_db w') /\
  NoDup (map c_id (coffees (w_db w'))) /\
  Forall (fun c => c_id c <= coffees_seq (w_db w')) (coffees (w_db w')) /\
  (forall c, In c (coffees (w_db w')) ->
     In c (coffees (w_db w)) \/ coffees_seq (w_db w) < c_id c).
Proof.
  intros E r w Hnd Hle. cbv zeta.
  assert (Hsame : forall w', (coffees (w_db w') = coffees (w_db w) /\
                              coffees_seq (w_db w') = coffees_seq (w_db w)) ->
            coffees_seq (w_db w) <= coffees_seq (w_db w') /\
            NoDup (map c_id (coffees (w_db w'))) /\
            Forall (fun c => c_id c <= coffees_seq (w_db w')) (coffees (w_db w')) /\
            (forall c, In c (coffees (w_db w')) ->
               In c (coffees (w_db w)) \/ coffees_seq (w_db w) < c_id c)).
  { intros w' [Hc Hs]. rewrite Hc, Hs. repeat split; try assumption; [lia|]. now left. }
  destruct r as [b|token|token|[token submitted]|b]; cbn [handle].
  - destruct (auth_register_effect E b w)
      as [[Hdb _]|(s & _ & _ & _ & _ & _ & _ & Hw')].
    + apply Hsame. now rewrite Hdb.
    + apply Hsame. rewrite Hw'. split; reflexivity.
  - apply Hsame. now rewrite auth_validate_db.
  - apply Hsame. now rewrite get_coffees_db.
  - destruct token as [t|]; [|now apply Hsame].
    destruct (Database.getUserByToken t (w_db w)) as [u|] eqn:Hu.
    2:{ rewrite post_coffees_unknown by assumption. now apply Hsame. }
    destruct (String.eqb_spec t "") as [->|Ht]; [now apply Hsame|].
    rewrite (post_coffees_eq E t u) by assumption. cbv zeta.
    set (w1 := set_db (Database.deleteUserCoffees (u_id u) (w_db w)) w).
    assert (Hnd1 : NoDup (map c_id (coffees (w_db w1)))).
    { apply NoDup_map_filter. exact Hnd. }
    assert (Hle1 : Forall (fun c => c_id c <= coffees_seq (w_db w1)) (coffees (w_db w1))).
    { cbn [w1 set_db w_db Database.deleteUserCoffees coffees coffees_seq].
      rewrite Forall_forall in *. intros c Hc. apply filter_In in Hc. now apply Hle. }
    assert (Hold : forall c, In c (coffees (w_db w1)) -> In c (coffees (w_db w))).
    { intros c Hc. cbn [w1 set_db w_db Database.deleteUserCoffees coffees] in Hc.
      apply filter_In in Hc. tauto. }
    assert (Hdel : coffees_seq (w_db w) <= coffees_seq (w_db w1) /\
                   NoDup (map c_id (coffees (w_db w1))) /\
                   Forall (fun c => c_id c <= coffees_seq (w_db w1)) (coffees (w_db w1)) /\
                   (forall c, In c (coffees (w_db w1)) ->
                      In c (coffees (w_db w)) \/ coffees_seq (w_db w) < c_id c)).
    { repeat split; try assumption; [apply Nat.le_refl|]. intros c Hc. left. now apply Hold. }
    destruct submitted as [c|]; [|exact Hdel].
    destruct (has_coffees E (Some c)) as [[]|]; [|exact Hdel|exact Hdel].
    destruct (iterate c) as [items|]; [|exact Hdel].
    cbn [snd].
    destruct (save_all_ids E (u_id u) items w1 Hnd1 Hle1) as (Hseq & Hnd2 & Hle2 & Hnew).
    split; [|split; [assumption|split; [assumption|]]].
    + rewrite Hseq. cbn [w1 set_db w_db Database.deleteUserCoffees coffees_seq]. lia.
    + intros x Hx. destruct (Hnew x Hx) as [Hx1|Hgt]; [left; now apply Hold | now right].
  - apply Hsame. now rewrite analyze_coffee_db.
Qed.

Lemma reachable_coffee_ids : forall E w,
  reachable E w ->
  NoDup (map c_id (coffees (w_db w))) /\
  Forall (fun c => c_id c <= coffees_seq (w_db w)) (coffees (w_db w)).
Proof.
  intros E w Hw. induction Hw as [|w r Hw [Hnd Hle]].
  - split; constructor.
  - destruct (handle_coffee_ids E r w Hnd Hle) as (_ & Hnd' & Hle' & _). now split.
Qed.

(** X20. The id of a coffee row is never given out twice, also after the
    row is deleted. In every reachable world the stored rows have distinct
    ids, none above the table's sequence; a request never lowers the
    sequence, and every row it leaves is either a row that was there
    before or has an id above the sequence, hence above every id given
    out before. A replace with a valid token and an array of [n] coffees
    raises the sequence by [n]. *)
Theorem coffee_ids_are_never_reused :
  forall (E : Env) (w : World) (rs : list Request),
  reachable E w ->
  let w' := snd (serve E rs w) in
  NoDup (map c_id (coffees (w_db w'))) /\
  Forall (fun c => c_id c <= coffees_seq (w_db w')) (coffees (w_db w')) /\
  coffees_seq (w_db w) <= coffees_seq (w_db w') /\
  (forall c, In c (coffees (w_db w')) ->
     In c (coffees (w_db w)) \/ coffees_seq (w_db w) < c_id c) /\
  (forall t u items,
     t <> "" -> Database.getUserByToken t (w_db w) = Some u ->
     let w1 := snd (post_coffees E (mkCoffeesBody (Some t) (Some (JArr items))) w) in
     coffees_seq (w_db w1) = coffees_seq (w_db w) + List.length items /\
     Forall (fun c => coffees_seq (w_db w) < c_id c)
            (filter (Database.owned_by (u_id u)) (coffees (w_db w1)))).
Proof.
  intros E w rs Hw. cbv zeta.
  destruct (reachable_coffee_ids E _ (reachable_serve E rs w Hw)) as [Hnd' Hle'].
  split; [assumption|]. split; [assumption|].
  destruct (reachable_coffee_ids E w Hw) as [Hnd Hle].
  assert (Hrun : forall rs w, 
            NoDup (map c_id (coffees (w_db w))) ->
            Forall (fun c => c_id c <= coffees_seq (w_db w)) (coffees (w_db w)) ->
            coffees_seq (w_db w) <= coffees_seq (w_db (snd (serve E rs w))) /\
            (forall c, In c (coffees (w_db (snd (serve E rs w)))) ->
               In c (coffees (w_db w)) \/ coffees_seq (w_db w) < c_id c)).
  { clear. induction rs as [|r rest IH]; intros w Hnd Hle; cbn [serve].
    - split; [apply Nat.le_refl | intros c Hc; now left].
    - destruct (handle_coffee_ids E r w Hnd Hle) as (Hseq & Hnd1 & Hle1 & Hnew).
      destruct (handle E r w) as [resp w1]. cbn [snd] in *.
      destruct (IH w1 Hnd1 Hle1) as [Hseq2 Hnew2].
      destruct (serve E rest w1) as [resps w2]. cbn [snd] in *.
      split; [lia|]. intros c Hc. destruct (Hnew2 c Hc) as [Hc1|Hgt]; [|right; lia].
      apply Hnew in Hc1. exact Hc1. }
  destruct (Hrun rs w Hnd Hle) as [Hseq Hnew].
  split; [assumption|]. split; [assumption|].
  intros t u items Ht Hu. cbv zeta.
  rewrite (post_coffees_eq E t u) by assumption. cbv zeta.
  set (w1 := set_db (Database.deleteUserCoffees (u_id u) (w_db w)) w).
  assert (Hnd1 : NoDup (map c_id (coffees (w_db w1)))).
  { apply NoDup_map_filter. exact Hnd. }
  assert (Hle1 : Forall (fun c => c_id c <= coffees_seq (w_db w1)) (coffees (w_db w1))).
  { cbn [w1 set_db w_db Database.deleteUserCoffees coffees coffees_seq].
    rewrite Forall_forall in *. intros c Hc. apply filter_In in Hc. now apply Hle. }
  destruct (save_all_ids E (u_id u) items w1 Hnd1 Hle1) as (Hseq1 & _ & _ & Hnew1).
  rewrite has_coffees_array. cbn [iterate].
  destruct items as [|x items]; cbn [List.length Nat.eqb negb snd].
  - split; [cbn; lia|].
    cbn [w1 set_db w_db Database.deleteUserCoffees coffees].
    rewrite filter_owned_deleted. constructor.
  - split; [exact Hseq1|].
    rewrite Forall_forall. intros c Hc. apply filter_In in Hc. destruct Hc as [Hc Hown].
    destruct (Hnew1 c Hc) as [Hold|Hgt]; [|exact Hgt].
    exfalso. cbn [w1 set_db w_db Database.deleteUserCoffees coffees] in Hold.
    apply filter_In in Hold. destruct Hold as [_ Hnot]. rewrite Hown in Hnot. discriminate.
Qed.

Lemma coffee_ids_are_never_reused_holds :
  let rs := [PostCoffees (mkCoffeesBody (Some alice_token) (Some (JArr [decaf])))] in
  let w' := snd (serve local_env rs with_two_coffees) in
  reachable local_env with_two_coffees /\
  map c_id (coffees (w_db with_two_coffees)) = [1; 2] /\
  map c_id (coffees (w_db w')) = [3] /\
  NoDup (map c_id (coffees (w_db w'))) /\
  Forall (fun c => c_id c <= coffees_seq (w_db w')) (coffees (w_db w')) /\
  coffees_seq (w_db with_two_coffees) <= coffees_seq (w_db w').
Proof.
  cbv zeta.
  assert (Hreach : reachable local_env with_two_coffees).
  { unfold with_two_coffees.
    apply (reachable_step local_env _ (PostCoffees _)).
    unfold with_alice. apply reachable_serve. constructor. }
  split; [exact Hreach|]. split; [reflexivity|]. split; [reflexivity|].
  destruct (coffee_ids_are_never_reused local_env with_two_coffees
              [PostCoffees (mkCoffeesBody (Some alice_token) (Some (JArr [decaf])))] Hreach)
    as (Hnd & Hle & Hseq & _).
  split; [exact Hnd|]. split; [exact Hle | exact Hseq].
Defined.

(** *** The statements of [queries] on their own *)

Lemma violates_unique_spec : forall username token db,
  Database.violates_unique username token db = true <->
  exists u, In u (users db) /\ (u_username u = username \/ u_token u = token).
Proof.
  intros username token db. unfold Database.violates_unique. rewrite existsb_exists.
  split; intros (u & Hin & H); exists u; (split; [assumption|]).
  - apply orb_true_iff in H. now rewrite !String.eqb_eq in H.
  - apply orb_true_iff. now rewrite !String.eqb_eq.
Qed.

Lemma find_token_snoc : forall t l u,
  find (fun x => u_token x =? t) (l ++ [u])
  = match find (fun x => u_token x =? t) l with
    | Some x => Some x
    | None => if u_token u =? t then Some u else None
    end.
Proof.
  intros t l u. induction l as [|x l IH]; cbn [app find]; [reflexivity|].
  destruct (u_token x =? t); [reflexivity | exact IH].
Qed.

(** X21. [createUser] fails exactly when a stored user has the same
    username or the same token, compared as they are written. When it goes
    through, the new row is found under its token with the id returned,
    which is above every id in the table; the count is one higher,
    [usernameExists] answers true for the name in any case of the letters,
    every other token resolves as before and no coffee row changes. The
    [UNIQUE] constraint itself compares exactly: a name that differs from
    a stored one only in case is inserted when its token is new. *)
Theorem createUser_round_trip :
  forall (username token : string) (now : nat) (db : Db),
  (Database.createUser username token now db = None <->
   exists u, In u (users db) /\ (u_username u = username \/ u_token u = token)) /\
  (forall db' id,
     Database.createUser username token now db = Some (db', id) ->
     Database.getUserByToken token db' = Some (mkUser id username token now) /\
     Forall (fun u => u_id u < id) (users db) /\
     Database.getUserCount db' = S (Database.getUserCount db) /\
     (forall other, Database.LOWER other = Database.LOWER username ->
                    Database.usernameExists other db' = true) /\
     (forall t, t <> token ->
                Database.getUserByToken t db' = Database.getUserByToken t db) /\
     coffees db' = coffees db /\
     (forall token' now', Database.createUser username token' now' db' = None) /\
     (forall username' now', Database.createUser username' token now' db' = None) /\
     (forall username' token' now',
        ~ In username' (map u_username (users db')) ->
        ~ In token' (map u_token (users db')) ->
        Database.createUser username' token' now' db' <> None)).
Proof.
  intros username token now db. unfold Database.createUser. split.
  - destruct (Database.violates_unique username token db) eqn:Hv.
    + split; [intros _; now apply violates_unique_spec | reflexivity].
    + split; [discriminate|]. intros H. apply violates_unique_spec in H. congruence.
  - intros db' id H.
    destruct (Database.violates_unique username token db) eqn:Hv; [discriminate|].
    injection H as <- <-.
    assert (Hfresh : forall u, In u (users db) -> u_username u <> username /\ u_token u <> token).
    { intros u Hin. split; intros Heq;
        (assert (Hex : Database.violates_unique username token db = true)
           by (apply violates_unique_spec; exists u; tauto)); congruence. }
    split; [|split; [|split; [|split; [|split; [|split; [|split; [|split]]]]]]].
    + unfold Database.getUserByToken. cbn [users]. rewrite find_token_snoc.
      rewrite find_token_unknown by (intros u Hin; now apply Hfresh).
      cbn [u_token]. now rewrite String.eqb_refl.
    + rewrite Forall_forall. intros u Hin. unfold Database.next_rowid.
      pose proof (proj1 (list_max_le (map u_id (users db)) (list_max (map u_id (users db))))
                        (Nat.le_refl _)) as Hmax.
      rewrite Forall_forall in Hmax. specialize (Hmax (u_id u) (in_map u_id _ _ Hin)). lia.
    + unfold Database.getUserCount. cbn [users]. rewrite length_app. cbn. lia.
    + intros other Hother. unfold Database.usernameExists. cbn [users].
      rewrite existsb_app. cbn [existsb u_username]. rewrite Hother, String.eqb_refl.
      now rewrite orb_true_r.
    + intros t Ht. unfold Database.getUserByToken. cbn [users]. rewrite find_token_snoc.
      cbn [u_token]. destruct (String.eqb_spec token t) as [Heq|_]; [congruence|].
      now destruct (find _ (users db)).
    + reflexivity.
    + intros token' now'. unfold Database.violates_unique. cbn [users].
      rewrite existsb_app. cbn [existsb u_username]. rewrite String.eqb_refl.
      cbn [orb]. now rewrite orb_true_r.
    + intros username' now'. unfold Database.violates_unique. cbn [users].
      rewrite existsb_app. cbn [existsb u_token]. rewrite String.eqb_refl.
      rewrite !orb_true_r. reflexivity.
    + intros username' token' now' Hname Htok.
      match goal with |- (if ?v then _ else _) <> _ => destruct v eqn:Hv' end;
        [|discriminate].
      apply violates_unique_spec in Hv'. destruct Hv' as (u & Hin & [Hu|Hu]).
      * elim Hname. rewrite <- Hu. now apply in_map.
      * elim Htok. rewrite <- Hu. now apply in_map.
Qed.

Lemma order_by_newest : forall (row : CoffeeRow) (l : list CoffeeRow),
  Forall (fun c => c_created_at c < c_created_at row) l ->
  Database.order_by_created_at_desc (l ++ [row])
  = row :: Database.order_by_created_at_desc l.
Proof.
  intros row l H. unfold Database.order_by_created_at_desc.
  induction H as [|x l Hx Hl IH]; [reflexivity|].
  cbn [app fold_right]. rewrite IH. cbn [Database.insert_desc].
  now rewrite (proj2 (Nat.ltb_lt _ _) Hx).
Qed.

(** X22. [saveCoffee] adds one row and nothing else: the user's rows are
    the earlier ones and the new row, which carries the id returned, above
    every id in the table; the rows of every other user and the users are
    as before. A row saved in a later second than all the user's rows
    comes first in [getUserCoffees]. Deleting the user's coffees
    afterwards empties the list again. *)
Theorem saveCoffee_round_trip :
  forall (userId : nat) (data : string) (now : nat) (db : Db),
  let db' := fst (Database.saveCoffee userId data now db) in
  let id := snd (Database.saveCoffee userId data now db) in
  let row := mkCoffee id userId data now in
  Permutation (Database.getUserCoffees userId db') (row :: Database.getUserCoffees userId db) /\
  Forall (fun c => c_id c < id) (coffees db) /\
  (forall other, other <> userId ->
     Database.getUserCoffees other db' = Database.getUserCoffees other db) /\
  users db' = users db /\
  (Forall (fun c => c_created_at c < now) (Database.getUserCoffees userId db) ->
   Database.getUserCoffees userId db' = row :: Database.getUserCoffees userId db) /\
  Database.getUserCoffees userId (Database.deleteUserCoffees userId db') = [].
Proof.
  intros userId data now db. cbv zeta.
  unfold Database.saveCoffee, Database.getUserCoffees. cbn [fst snd coffees users].
  set (id := Database.next_rowid (coffees_seq db) (map c_id (coffees db))).
  assert (Hown : filter (Database.owned_by userId) (coffees db ++ [mkCoffee id userId data now])
                 = filter (Database.owned_by userId) (coffees db) ++ [mkCoffee id userId data now]).
  { rewrite filter_app. cbn [filter]. unfold Database.owned_by at 2. cbn [c_user_id].
    now rewrite Nat.eqb_refl. }
  split; [|split; [|split; [|split; [|split]]]].
  - rewrite Hown. etransitivity; [apply order_by_perm|].
    etransitivity; [apply Permutation_app_comm|]. cbn [app].
    constructor. symmetry. apply order_by_perm.
  - rewrite Forall_forall. intros c Hc. unfold id, Database.next_rowid.
    pose proof (proj1 (list_max_le (map c_id (coffees db)) (list_max (map c_id (coffees db))))
                      (Nat.le_refl _)) as Hmax.
    rewrite Forall_forall in Hmax. specialize (Hmax (c_id c) (in_map c_id _ _ Hc)). lia.
  - intros other Hother. rewrite filter_app. cbn [filter]. unfold Database.owned_by at 2.
    cbn [c_user_id]. rewrite (proj2 (Nat.eqb_neq userId other)) by congruence.
    now rewrite app_nil_r.
  - reflexivity.
  - intros Hnew. rewrite Hown. apply order_by_newest.
    rewrite Forall_forall in *. intros c Hc. apply (Hnew c).
    apply (Permutation_in _ (Permutation_sym (order_by_perm _))). exact Hc.
  - unfold Database.deleteUserCoffees. cbn [coffees].
    now rewrite filter_owned_deleted.
Qed.

(** *** Start-up configuration *)

Lemma split_on_nonempty : forall sep s, Config.split_on sep s <> [].
Proof.
  intros sep s. destruct s as [|c r]; cbn [Config.split_on]; [discriminate|].
  destruct (Ascii.eqb c sep); [discriminate|].
  destruct (Config.split_on sep r); discriminate.
Qed.

Lemma concat_split_on : forall sep s,
  String.concat (String sep EmptyString) (Config.split_on sep s) = s.
Proof.
  intros sep s. induction s as [|c r IH]; [reflexivity|]. cbn [Config.split_on].
  pose proof (split_on_nonempty sep r) as Hne.
  destruct (Ascii.eqb_spec c sep) as [->|Hc].
  - destruct (Config.split_on sep r) as [|p ps]; [congruence|].
    cbn [String.concat String.append] in *. now rewrite IH.
  - destruct (Config.split_on sep r) as [|p ps]; [congruence|].
    destruct ps as [|q qs]; cbn [String.concat String.append] in *; now rewrite IH.
Qed.

Lemma split_on_pieces : forall sep s,
  Forall (fun p => has_char sep p = false) (Config.split_on sep s).
Proof.
  intros sep s. induction s as [|c r IH]; cbn [Config.split_on].
  - constructor; [reflexivity | constructor].
  - destruct (Ascii.eqb_spec c sep) as [->|Hc].
    + constructor; [reflexivity | exact IH].
    + destruct (Config.split_on sep r) as [|p ps].
      * constructor; [|constructor]. cbn [has_char].
        rewrite (proj2 (Ascii.eqb_neq c sep) Hc). reflexivity.
      * inversion IH as [|? ? Hp Hps]; subst. constructor; [|assumption].
        cbn [has_char]. rewrite (proj2 (Ascii.eqb_neq c sep) Hc). exact Hp.
Qed.

Lemma split_on_piece : forall sep p,
  has_char sep p = false -> Config.split_on sep p = [p].
Proof.
  intros sep p. induction p as [|c r IH]; cbn [Config.split_on has_char]; [reflexivity|].
  intros H. apply orb_false_iff in H. destruct H as [Hc Hr].
  rewrite Hc, (IH Hr). reflexivity.
Qed.

Lemma split_on_append : forall sep p rest,
  has_char sep p = false ->
  Config.split_on sep (p ++ String sep rest)%string = p :: Config.split_on sep rest.
Proof.
  intros sep p rest. induction p as [|c r IH]; cbn [has_char String.append Config.split_on].
  - intros _. now rewrite Ascii.eqb_refl.
  - intros H. apply orb_false_iff in H. destruct H as [Hc Hr].
    rewrite Hc, (IH Hr). reflexivity.
Qed.

Lemma split_on_concat : forall sep pieces,
  pieces <> [] ->
  Forall (fun p => has_char sep p = false) pieces ->
  Config.split_on sep (String.concat (String sep EmptyString) pieces) = pieces.
Proof.
  intros sep pieces Hne H. induction H as [|p ps Hp Hps IH]; [congruence|].
  destruct ps as [|q qs].
  - cbn [String.concat]. now apply split_on_piece.
  - change (String.concat (String sep EmptyString) (p :: q :: qs))
      with (p ++ String sep (String.concat (String sep EmptyString) (q :: qs)))%string.
    rewrite split_on_append by assumption. f_equal. apply IH. discriminate.
Qed.

Lemma has_char_trimStart : forall c s,
  has_char c s = false -> has_char c (trimStart s) = false.
Proof.
  intros c s. induction s as [|x r IH]; [reflexivity|]. cbn [trimStart has_char].
  intros H. apply orb_false_iff in H. destruct H as [Hx Hr].
  destruct (is_space x); [now apply IH|]. cbn [has_char]. now rewrite Hx, Hr.
Qed.

Lemma has_char_trimEnd : forall c s,
  has_char c s = false -> has_char c (trimEnd s) = false.
Proof.
  intros c s. induction s as [|x r IH]; [reflexivity|]. cbn [trimEnd has_char].
  intros H. apply orb_false_iff in H. destruct H as [Hx Hr].
  destruct (is_space x && (trimEnd r =? "")); [reflexivity|].
  cbn [has_char]. now rewrite Hx, IH.
Qed.

Lemma existsb_eqb_In : forall (o : string) (l : list string),
  existsb (String.eqb o) l = true <-> In o l.
Proof.
  intros o l. rewrite existsb_exists. split.
  - intros (x & Hin & Heq). apply String.eqb_eq in Heq. now subst.
  - intros Hin. exists o. split; [assumption | apply String.eqb_refl].
Qed.

(** X23. The origin filter. A request without an [Origin] header passes
    under every configuration. An origin passes exactly when it is in
    [allowedOrigins]: outside development that list is the trimmed pieces
    of [ALLOWED_ORIGINS] between its commas, so with the variable unset or
    empty every origin is refused, and no entry has a comma or white space
    around it; with [NODE_ENV] set to development the three local origins
    pass whatever else is configured. Writing a list of comma-free origins
    with commas between them allows exactly their trimmed texts. *)
Theorem cors_policy : forall (env : Config.Environ),
  Config.cors_allows env None = true /\
  (forall o, Config.cors_allows env (Some o) = true <->
             o = "" \/ In o (Config.allowedOrigins env)) /\
  (Config.is_development env = false ->
     (env "ALLOWED_ORIGINS" = None \/ env "ALLOWED_ORIGINS" = Some "") ->
     forall o, o <> "" -> Config.cors_allows env (Some o) = false) /\
  (Config.is_development env = false ->
     forall o, In o (Config.allowedOrigins env) ->
               trim o = o /\ has_char "," o = false) /\
  (Config.is_development env = true ->
     forall o, In o Config.local_origins -> Config.cors_allows env (Some o) = true) /\
  (forall origins,
     origins <> [] -> origins <> [""] ->
     Forall (fun p => has_char "," p = false) origins ->
     env "ALLOWED_ORIGINS" = Some (String.concat "," origins) ->
     Config.is_development env = false ->
     Config.allowedOrigins env = map trim origins).
Proof.
  intros env.
  assert (Hiff : forall o, Config.cors_allows env (Some o) = true <->
                           o = "" \/ In o (Config.allowedOrigins env)).
  { intros o. unfold Config.cors_allows. cbn [truthy].
    destruct (String.eqb_spec o "") as [->|Ho]; cbn [negb].
    - split; [now left | reflexivity].
    - rewrite existsb_eqb_In. split; [now right | intros [H|H]; [contradiction | exact H]]. }
  assert (Hlist : Config.is_development env = false ->
            Config.allowedOrigins env
            = match env "ALLOWED_ORIGINS" with
              | Some v => if v =? "" then [] else map trim (Config.split_on "," v)
              | None => []
              end).
  { intros Hdev. unfold Config.allowedOrigins, Config.is_set. rewrite Hdev, app_nil_r.
    destruct (env "ALLOWED_ORIGINS") as [v|]; [|reflexivity].
    cbn [option_map truthy]. now destruct (v =? ""). }
  split; [reflexivity|]. split; [exact Hiff|].
  split; [|split; [|split]].
  - intros Hdev Hunset o Ho.
    destruct (Config.cors_allows env (Some o)) eqn:Hal; [|reflexivity].
    apply Hiff in Hal. destruct Hal as [Hal|Hal]; [contradiction|].
    rewrite (Hlist Hdev) in Hal. destruct Hunset as [Hu|Hu]; rewrite Hu in Hal; destruct Hal.
  - intros Hdev o Hin. rewrite (Hlist Hdev) in Hin.
    destruct (env "ALLOWED_ORIGINS") as [v|]; [|destruct Hin].
    destruct (v =? ""); [destruct Hin|].
    apply in_map_iff in Hin. destruct Hin as (p & <- & Hp).
    split; [apply trim_idempotent|].
    pose proof (split_on_pieces "," v) as Hall. rewrite Forall_forall in Hall.
    unfold trim. apply has_char_trimEnd, has_char_trimStart. now apply Hall.
  - intros Hdev o Hin. apply Hiff. right. unfold Config.allowedOrigins.
    rewrite Hdev. apply in_or_app. now right.
  - intros origins Hne Hne' Hfree Hvar Hdev. rewrite (Hlist Hdev), Hvar.
    rewrite split_on_concat by assumption.
    destruct (String.eqb_spec (String.concat "," origins) "") as [Heq|_]; [|reflexivity].
    exfalso. destruct origins as [|p [|q qs]]; [congruence| |].
    + cbn [String.concat] in Heq. congruence.
    + change (String.concat "," (p :: q :: qs))
        with (p ++ String "," (String.concat "," (q :: qs)))%string in Heq.
      destruct p; discriminate.
Qed.

(** X24. [validateEnvironment] lets the server start exactly when
    [ANTHROPIC_API_KEY] is set to a text that is not empty; otherwise the
    process ends with code 1 and that one name reported. No other variable
    is required. *)
Theorem validateEnvironment_requires_the_key : forall (env : Config.Environ),
  (Config.validateEnvironment env = Config.Continues <->
   exists key, env "ANTHROPIC_API_KEY" = Some key /\ key <> "") /\
  (Config.validateEnvironment env <> Config.Continues ->
   Config.validateEnvironment env = Config.Exits 1 ["ANTHROPIC_API_KEY"]) /\
  (forall env' : Config.Environ,
     env' "ANTHROPIC_API_KEY" = env "ANTHROPIC_API_KEY" ->
     Config.validateEnvironment env' = Config.validateEnvironment env).
Proof.
  intros env.
  assert (Hval : forall e : Config.Environ,
            Config.validateEnvironment e
            = match e "ANTHROPIC_API_KEY" with
              | Some key => if key =? "" then Config.Exits 1 ["ANTHROPIC_API_KEY"]
                            else Config.Continues
              | None => Config.Exits 1 ["ANTHROPIC_API_KEY"]
              end).
  { intros e. unfold Config.validateEnvironment, Config.missing, Config.required,
      Config.is_set. cbn [filter].
    destruct (e "ANTHROPIC_API_KEY") as [key|]; [|reflexivity].
    cbn [option_map truthy]. destruct (key =? ""); reflexivity. }
  split; [|split].
  - rewrite Hval. destruct (env "ANTHROPIC_API_KEY") as [key|].
    + destruct (String.eqb_spec key "") as [->|Hkey].
      * split; [discriminate|]. intros (k & Hk & Hne). congruence.
      * split; [intros _; now exists key | reflexivity].
    + split; [discriminate|]. intros (k & Hk & _). discriminate.
  - rewrite Hval. destruct (env "ANTHROPIC_API_KEY") as [key|]; [|reflexivity].
    destruct (key =? ""); [reflexivity | intros H; now elim H].
  - intros env' Heq. now rewrite !Hval, Heq.
Qed.

Example cors_two_origins :
  let env : Config.Environ :=
    fun key => if key =? "ALLOWED_ORIGINS"
               then Some "https://brewbuddy.example, https://www.brewbuddy.example"
               else None in
  Config.allowedOrigins env = ["https://brewbuddy.example"; "https://www.brewbuddy.example"] /\
  Config.cors_allows env (Some "https://www.brewbuddy.example") = true /\
  Config.cors_allows env (Some " https://www.brewbuddy.example") = false /\
  Config.cors_allows env (Some "http://localhost:5173") = false /\
  Config.cors_allows env None = true.
Proof. repeat split; reflexivity. Qed.

(** *** The module state of [db/database.js] *)

(** X25. Without a connection nothing is queried. On the module as loaded,
    and again after [closeDatabase] went through, every helper of
    [queries] throws "Database not initialized. Call initDatabase()
    first." and changes nothing; [getDatabaseType] is then [null], and the
    data are where they were. A [closeDatabase] that throws leaves the
    module as it was. *)
Theorem queries_need_a_connection :
  forall (elsewhere : DbModule.Handle -> bool -> DbModule.Query -> nat -> Db
                      -> outcome DbModule.Answer * Db)
         (q : DbModule.Query) (now : nat) (closes : option exn) (st : DbModule.State),
  DbModule.run_query elsewhere q now DbModule.loaded
    = (Throws DbModule.not_initialized, DbModule.loaded) /\
  (forall st', DbModule.closeDatabase closes st = (Done tt, st') ->
     DbModule.getDatabase st' = Throws DbModule.not_initialized /\
     DbModule.getDatabaseType st' = None /\
     DbModule.run_query elsewhere q now st' = (Throws DbModule.not_initialized, st') /\
     DbModule.m_file st' = DbModule.m_file st /\
     DbModule.m_server st' = DbModule.m_server st /\
     DbModule.closeDatabase closes st' = (Done tt, st')) /\
  (forall e st', DbModule.closeDatabase closes st = (Throws e, st') ->
     st' = st /\ DbModule.m_db st <> None) /\
  (DbModule.m_db st = None ->
     DbModule.run_query elsewhere q now st = (Throws DbModule.not_initialized, st) /\
     fst (DbModule.closeDatabase closes st) = Done tt).
Proof.
  intros elsewhere q now closes st. split; [reflexivity|]. split; [|split].
  - intros st' H. unfold DbModule.closeDatabase in H.
    assert (Hst : st' = DbModule.mkState None None (DbModule.m_file st) (DbModule.m_server st)).
    { destruct (DbModule.m_db st) as [[]|], (DbModule.m_dbType st) as [[]|], closes;
        try discriminate; now injection H as <-. }
    subst st'. repeat split; reflexivity.
  - intros e st' H. unfold DbModule.closeDatabase in H.
    destruct (DbModule.m_db st) as [[]|], (DbModule.m_dbType st) as [[]|], closes;
      try discriminate; injection H as _ <-; split; (reflexivity || discriminate).
  - intros Hdb. unfold DbModule.run_query, DbModule.getDatabase, DbModule.closeDatabase.
    rewrite Hdb. split; reflexivity.
Qed.

(** X26. [initDatabase] picks PostgreSQL exactly when [NODE_ENV] is
    production and [DATABASE_URL] is set and not empty, and SQLite in every
    other case, also in production without a URL. [dbType] is set before
    the connection is tried: when the connection fails the call throws the
    error, [getDatabaseType] already names the backend picked and [db] is
    what it was; when the table script fails the call throws and the new
    connection stays. When the call returns, the connection and the type
    it returns are the ones [getDatabase] and [getDatabaseType] give, and
    on SQLite each helper of [queries] is its statement on the file, with
    the module variables unchanged. No data are touched. *)
Theorem initDatabase_selects_backend :
  forall (elsewhere : DbModule.Handle -> bool -> DbModule.Query -> nat -> Db
                      -> outcome DbModule.Answer * Db)
         (env : Config.Environ) (connect tables : option exn) (st : DbModule.State),
  let result := fst (DbModule.initDatabase env connect tables st) in
  let st' := snd (DbModule.initDatabase env connect tables st) in
  let production :=
    match env "NODE_ENV", env "DATABASE_URL" with
    | Some mode, Some url => (mode =? "production") && negb (url =? "")
    | _, _ => false
    end in
  let picked := if production then DbModule.postgresql else DbModule.sqlite in
  let handle := if production then DbModule.PoolWrapper else DbModule.SqliteHandle in
  DbModule.getDatabaseType st' = Some picked /\
  DbModule.m_file st' = DbModule.m_file st /\
  DbModule.m_server st' = DbModule.m_server st /\
  (forall e, connect = Some e -> result = Throws e /\ DbModule.m_db st' = DbModule.m_db st) /\
  (forall e, connect = None -> tables = Some e ->
             result = Throws e /\ DbModule.getDatabase st' = Done handle) /\
  (connect = None -> tables = None ->
     result = Done (handle, picked) /\ DbModule.getDatabase st' = Done handle) /\
  (forall h t, result = Done (h, t) ->
     connect = None /\ tables = None /\
     DbModule.getDatabase st' = Done h /\ DbModule.getDatabaseType st' = Some t /\
     (t = DbModule.sqlite ->
      forall q now,
        DbModule.run_query elsewhere q now st'
        = (fst (DbModule.on_sqlite q now (DbModule.m_file st)),
           DbModule.mkState (DbModule.m_db st') (DbModule.m_dbType st')
                            (snd (DbModule.on_sqlite q now (DbModule.m_file st)))
                            (DbModule.m_server st)))).
Proof.
  intros elsewhere env connect tables st. cbv zeta.
  assert (Hprod : DbModule.isProduction env && Config.is_set env "DATABASE_URL"
                  = match env "NODE_ENV", env "DATABASE_URL" with
                    | Some mode, Some url => (mode =? "production") && negb (url =? "")
                    | _, _ => false
                    end).
  { unfold DbModule.isProduction, Config.is_set.
    destruct (env "NODE_ENV") as [mode|], (env "DATABASE_URL") as [url|];
      cbn [option_map truthy]; try reflexivity. apply andb_false_r. }
  unfold DbModule.initDatabase. rewrite Hprod.
  destruct (match env "NODE_ENV", env "DATABASE_URL" with
            | Some mode, Some url => (mode =? "production") && negb (url =? "")
            | _, _ => false
            end);
    destruct connect as [e1|], tables as [e2|]; cbn [fst snd];
    (split; [reflexivity|]); (split; [reflexivity|]); (split; [reflexivity|]);
    (split; [intros e He; try discriminate; injection He as <-; now split|]);
    (split; [intros e Hc He; try discriminate; injection He as <-; now split|]);
    (split; [intros Hc Ht; try discriminate; now split|]);
    intros h t H; try discriminate; injection H as <- <-;
    (split; [reflexivity|]); (split; [reflexivity|]); (split; [reflexivity|]);
    (split; [reflexivity|]); intros Ht; try discriminate;
    intros q now; unfold DbModule.run_query;
    cbn [DbModule.getDatabase DbModule.set_handle DbModule.set_dbType DbModule.m_db
         DbModule.m_dbType DbModule.m_file DbModule.m_server negb orb];
    destruct (DbModule.on_sqlite q now (DbModule.m_file st)); reflexivity.
Qed.

Lemma send_all_spec : forall (pool_query : string -> option exn) (l : list string),
  Forall (fun s => DbModule.blank s = false) l ->
  let result := fst (DbModule.send_all pool_query l) in
  let sent := snd (DbModule.send_all pool_query l) in
  (exists rest, l = sent ++ rest) /\
  (result = Done tt <-> Forall (fun s => pool_query s = None) l) /\
  (result = Done tt -> sent = l) /\
  (forall e, result = Throws e ->
     exists before s, sent = before ++ [s] /\ pool_query s = Some e /\
                      Forall (fun s => pool_query s = None) before).
Proof.
  intros pool_query l H. cbv zeta. induction H as [|x l Hx Hl IH].
  - cbn. split; [now exists []|]. split; [split; [constructor | reflexivity]|].
    split; [reflexivity | discriminate].
  - cbn [DbModule.send_all]. rewrite Hx. cbn [negb].
    destruct (pool_query x) as [err|] eqn:Hq.
    + cbn [fst snd]. split; [now exists l|].
      split; [split; [discriminate | intros Hall; inversion Hall; congruence]|].
      split; [discriminate|]. intros e He. injection He as <-.
      exists [], x. split; [reflexivity|]. split; [assumption | constructor].
    + destruct IH as ([rest Hrest] & Hdone & Hall & Hthrow).
      destruct (DbModule.send_all pool_query l) as [o sent]. cbn [fst snd] in *.
      split; [exists rest; cbn; now f_equal|].
      split; [|split].
      * rewrite Hdone. split; [intros Hacc; now constructor|].
        intros Hacc. now inversion Hacc.
      * intros Ho. f_equal. now apply Hall.
      * intros e He. destruct (Hthrow e He) as (before & s & -> & Hs & Hbefore).
        exists (x :: before), s. split; [reflexivity|]. split; [assumption|].
        now constructor.
Qed.

(** X27. [exec] of the PostgreSQL wrapper cuts the text at every semicolon,
    so that the pieces joined by semicolons are the text again, and sends
    the pieces that are not blank, in their order, each as one statement:
    a statement sent is never blank and holds no semicolon. The call goes
    through exactly when the server takes every statement; a statement it
    rejects is the last one sent, and the call throws its error. *)
Theorem exec_sends_statements :
  forall (pool_query : string -> option exn) (sql : string),
  let statements :=
    filter (fun s => negb (DbModule.blank s)) (Config.split_on ";" sql) in
  let result := fst (DbModule.exec pool_query sql) in
  let sent := snd (DbModule.exec pool_query sql) in
  String.concat ";" (Config.split_on ";" sql) = sql /\
  Forall (fun s => trim s <> "" /\ has_char ";" s = false) sent /\
  (exists rest, statements = sent ++ rest) /\
  (result = Done tt <-> Forall (fun s => pool_query s = None) statements) /\
  (result = Done tt -> sent = statements) /\
  (forall e, result = Throws e ->
     exists before s, sent = before ++ [s] /\ pool_query s = Some e /\
                      Forall (fun s => pool_query s = None) before).
Proof.
  intros pool_query sql. cbv zeta. unfold DbModule.exec.
  set (statements := filter (fun s => negb (DbModule.blank s)) (Config.split_on ";" sql)).
  assert (Hstat : Forall (fun s => DbModule.blank s = false /\ has_char ";" s = false)
                         statements).
  { rewrite Forall_forall. intros s Hs. apply filter_In in Hs. destruct Hs as [Hin Hb].
    split; [now apply negb_true_iff|].
    pose proof (split_on_pieces ";" sql) as Hall. rewrite Forall_forall in Hall.
    now apply Hall. }
  assert (Hblank : Forall (fun s => DbModule.blank s = false) statements).
  { rewrite Forall_forall in *. intros s Hs. now apply Hstat. }
  destruct (send_all_spec pool_query statements Hblank) as ([rest Hrest] & Hdone & Hall & Hthrow).
  split; [apply concat_split_on|]. split; [|split; [now exists rest|repeat split; tauto]].
  rewrite Hrest in Hstat. apply Forall_app in Hstat. destruct Hstat as [Hsent _].
  rewrite Forall_forall in *. intros s Hs. destruct (Hsent s Hs) as [Hb Hc].
  split; [|assumption]. unfold DbModule.blank in Hb. cbn [truthy] in Hb.
  intros Heq. rewrite Heq in Hb. discriminate.
Qed.

Example exec_two_statements :
  DbModule.exec (fun _ => None) "CREATE TABLE a (id INTEGER); ; CREATE INDEX i ON a(id); "
  = (Done tt, ["CREATE TABLE a (id INTEGER)"; " CREATE INDEX i ON a(id)"]) /\
  DbModule.exec (fun s => if s =? "SELECT 1" then Some (JsError "syntax error") else None)
                "SELECT 1;SELECT 2"
  = (Throws (JsError "syntax error"), ["SELECT 1"]).
Proof. split; reflexivity. Qed.

(** *** Code fences *)

Lemma remove_all_keep : forall p c r,
  starts_with p (String c r) = false ->
  remove_all p 0 false (String c r) = String c (remove_all p 0 false r).
Proof. intros p c r H. cbn [remove_all andb]. now rewrite H. Qed.

Lemma kept_starts_no_fence : forall c r,
  starts_with "```" (String c r) = false ->
  starts_with "```" (String c (remove_all "```" 0 false r)) = false.
Proof.
  intros c r H.
  destruct (Ascii.eqb "`" c) eqn:Hc; [|cbn [starts_with]; now rewrite Hc].
  destruct r as [|b r]; [cbn [remove_all starts_with]; now rewrite andb_false_r|].
  assert (Hshort : forall x y, starts_with "```" (String x (String y "")) = false).
  { intros x y. cbn [starts_with]. now rewrite !andb_false_r. }
  destruct (Ascii.eqb "`" b) eqn:Hb.
  - destruct r as [|d r].
    + rewrite remove_all_keep by (cbn [starts_with]; now rewrite !andb_false_r).
      apply Hshort.
    + assert (Hd : Ascii.eqb "`" d = false).
      { cbn [starts_with] in H. rewrite Hc, Hb in H. cbn [andb] in H.
        now rewrite andb_true_r in H. }
      rewrite remove_all_keep by (cbn [starts_with]; now rewrite Hb, Hd).
      rewrite remove_all_keep by (cbn [starts_with]; now rewrite Hd).
      cbn [starts_with]. now rewrite Hc, Hb, Hd.
  - rewrite remove_all_keep by (cbn [starts_with]; now rewrite Hb).
    cbn [starts_with]. now rewrite Hc, Hb.
Qed.

Lemma remove_all_no_fence : forall s skip ws,
  occurs "```" (remove_all "```" skip ws s) = false.
Proof.
  induction s as [|c r IH]; intros skip ws; [reflexivity|].
  cbn [remove_all]. destruct skip as [|k]; [|apply IH].
  destruct (ws && is_space c); [apply IH|].
  destruct (starts_with "```" (String c r)) eqn:Hs; [apply IH|].
  cbn [occurs]. rewrite IH, (kept_starts_no_fence c r Hs). reflexivity.
Qed.

Lemma remove_all_absent : forall p s,
  occurs p s = false -> remove_all p 0 false s = s.
Proof.
  intros p s. induction s as [|c r IH]; [reflexivity|]. cbn [occurs remove_all andb].
  intros H. apply orb_false_iff in H. destruct H as [Hs Hr].
  rewrite Hs, (IH Hr). reflexivity.
Qed.

Lemma starts_with_longer : forall p q s,
  starts_with (p ++ q)%string s = true -> starts_with p s = true.
Proof.
  induction p as [|a p IH]; intros q s H; [reflexivity|].
  destruct s as [|b s]; [discriminate|]. cbn [String.append starts_with] in *.
  apply andb_true_iff in H. destruct H as [Hab H]. rewrite Hab. now apply (IH q).
Qed.

Lemma occurs_longer : forall p q s,
  occurs p s = false -> occurs (p ++ q)%string s = false.
Proof.
  intros p q s. induction s as [|c r IH]; cbn [occurs]; intros H;
    apply orb_false_iff in H; destruct H as [Hs Hr].
  - rewrite orb_false_r.
    destruct (starts_with (p ++ q) "") eqn:Hpq; [|reflexivity].
    apply starts_with_longer in Hpq. congruence.
  - rewrite (IH Hr), orb_false_r.
    destruct (starts_with (p ++ q) (String c r)) eqn:Hpq; [|reflexivity].
    apply starts_with_longer in Hpq. congruence.
Qed.

(** What [trimStart] and [trimEnd] drop is white space. *)
Lemma trimStart_split : forall s,
  exists pre, s = (pre ++ trimStart s)%string /\
              forall c, is_space c = false -> has_char c pre = false.
Proof.
  induction s as [|x r (pre & Hpre & Hsp)]; [exists ""; now split|].
  cbn [trimStart]. destruct (is_space x) eqn:Hx.
  - exists (String x pre). split; [cbn; now f_equal|].
    intros c Hc. cbn [has_char]. rewrite (Hsp c Hc).
    destruct (Ascii.eqb_spec x c) as [->|_]; [congruence | reflexivity].
  - exists "". now split.
Qed.

Lemma trimEnd_split : forall s,
  exists post, s = (trimEnd s ++ post)%string /\
               forall c, is_space c = false -> has_char c post = false.
Proof.
  induction s as [|x r (post & Hpost & Hsp)]; [exists ""; now split|].
  cbn [trimEnd]. destruct (is_space x && (trimEnd r =? "")) eqn:Hx.
  - apply andb_true_iff in Hx. destruct Hx as [Hx Hr]. apply String.eqb_eq in Hr.
    exists (String x post). split.
    + cbn [String.append]. f_equal. rewrite Hr in Hpost. exact Hpost.
    + intros c Hc. cbn [has_char]. rewrite (Hsp c Hc).
      destruct (Ascii.eqb_spec x c) as [->|_]; [congruence | reflexivity].
  - exists post. split; [cbn [String.append]; now f_equal | assumption].
Qed.

Lemma match_braces_trim : forall s, match_braces (trim s) = match_braces s.
Proof.
  intros s. unfold trim.
  destruct (trimStart_split s) as (pre & Hpre & Hsp).
  destruct (trimEnd_split (trimStart s)) as (post & Hpost & Hsp').
  rewrite Hpre at 2. rewrite Hpost at 2.
  symmetry. apply match_braces_wrapped; [apply Hsp | apply Hsp']; reflexivity.
Qed.

(** X28. The fence stripping of the earlier server. After
    [replace(/```json\s*/g, '').replace(/```\s*/g, '')] no run of three
    backticks is left in the text, whatever it was; a text without such a
    run is returned as it is. On a reply whose first content block is a
    text block without code fences, the earlier server and [server.js]
    therefore parse the same span: [trim] does not move a brace. *)
Theorem fences_are_stripped :
  forall (s : string),
  occurs "```" (strip_code_fences s) = false /\
  (occurs "```" s = false -> strip_code_fences s = s) /\
  match_braces (trim s) = match_braces s /\
  (occurs "```" (trim s) = false ->
   forall fields more,
     let message :=
       JObj [("content", JArr (JObj (("type", JStr "text") :: ("text", JStr s) :: fields)
                               :: more))] in
     reply_text message = Some s /\
     first_text_block message = Some s /\
     match_braces (strip_code_fences (trim s)) = match_braces s).
Proof.
  intros s.
  assert (Hid : forall t, occurs "```" t = false -> strip_code_fences t = t).
  { intros t Ht. unfold strip_code_fences.
    rewrite (remove_all_absent "```json" t) by exact (occurs_longer "```" "json" t Ht).
    now apply remove_all_absent. }
  split; [apply remove_all_no_fence|]. split; [apply Hid|].
  split; [apply match_braces_trim|].
  intros Hfree fields more. cbv zeta.
  split; [reflexivity|]. split; [reflexivity|].
  rewrite (Hid _ Hfree). apply match_braces_trim.
Qed.
